(** * Order, execution and risk core of the quantitative trading platform

    A shallow embedding of
      - [src/trading/order_management.py]   (Order, Fill, OrderManager,
                                             ExecutionHandler),
      - [src/trading/execution_algorithms.py] (the five slicing strategies,
                                             ExecutionEngine, the cost
                                             estimate),
      - [src/risk/risk_rules.py]            (risk rules and their engine),
      - [src/risk/position_manager.py]      (PositionManager),
      - [src/risk/risk_monitor.py]          (the context of check_risk),
    followed by the properties of the specification that concern them
    and by further properties of the code (numbered X1, X2, ...).

    Numbers.  The Python code computes with [float].  The arithmetic is a
    parameter of the development (class [Arith]) with two instances:
    exact rationals [Q], over which the general theorems are proved, and
    IEEE-754 binary64 ([PrimFloat]), the arithmetic Python really uses,
    over which concrete scenarios are evaluated bit for bit.  Theorems
    stated for the [Q] instance are therefore statements about the
    program in exact arithmetic, and theorems stated for every
    arithmetic hold of both.  Where rounding changes what the program
    does (a comparison, the end of a loop, a status), the binary64
    evaluation is part of the theorem. *)

From Stdlib Require Import QArith Qabs Qround Lqa ZArith Lia.
From Corelib Require Import SpecFloat PrimFloat FloatOps.
From Stdlib Require FloatAxioms.
From stdpp Require Import gmap strings list pretty.

Set Default Proof Using "Type".

(** ** Python runtime: exceptions and results *)

(** The built-in exceptions the modelled code can raise. *)
Inductive exn : Set :=
| ZeroDivisionError
| IndexError
| ValueError
| KeyError
| NotImplementedError.

(** The outcome of a call: a returned value or a raised exception. *)
Inductive result (A : Type) : Type :=
| Ok (a : A)
| Raise (e : exn).
Arguments Ok {A} a.
Arguments Raise {A} e.

Definition raises {A} (r : result A) : bool :=
  match r with Ok _ => false | Raise _ => true end.

Definition result_bind {A B} (r : result A) (k : A → result B) : result B :=
  match r with Ok a => k a | Raise e => Raise e end.

Notation "'let+' x := c 'in' k" := (result_bind c (λ x, k))
  (at level 10, x name, c at level 100, k at level 200, only parsing).

(** A [for] loop over [l] threading the loop state [s]; an exception
    raised by the body ends the loop. *)
Fixpoint for_each {A S} (l : list A) (body : S → A → result S) (s : S)
    : result S :=
  match l with
  | [] => Ok s
  | x :: l' => let+ s' := body s x in for_each l' body s'
  end.

(** [range(n)] for a Python int [n]: empty when [n <= 0]. *)
Definition range (n : Z) : list nat := seq 0 (Z.to_nat n).

(** [a // b] on Python ints: floor division, raising on a zero divisor. *)
Definition floordiv (a b : Z) : result Z :=
  if Z.eqb b 0 then Raise ZeroDivisionError else Ok (Z.div a b).

(** ** Arithmetic *)

Class Arith (F : Type) : Type := {
  of_Z : Z → F;                 (* int -> float conversion               *)
  fadd : F → F → F;
  fsub : F → F → F;
  fmul : F → F → F;
  fdiv : F → F → F;             (* quotient for a non-zero divisor        *)
  fopp : F → F;                 (* unary minus                            *)
  fabs : F → F;
  fltb : F → F → bool;          (* x < y                                  *)
  fleb : F → F → bool;          (* x <= y                                 *)
  feqb : F → F → bool;          (* x == y                                 *)
  trunc : F → option Z          (* int(x): towards zero; None when the
                                   value is not finite                    *)
}.

Section PyArith.
Context {F : Type} `{Arith F}.

Definition fzero : F := of_Z 0.

(** A decimal literal such as [1.0005], as the quotient [10005/10000]:
    exact over the rationals, and in binary64 the correctly rounded
    value, which is what the Python parser produces. *)
Definition lit (n d : Z) : F := fdiv (of_Z n) (of_Z d).

(** [x > y] and [x >= y] are the swapped comparisons, as in Python. *)
Definition fgtb (x y : F) : bool := fltb y x.
Definition fgeb (x y : F) : bool := fleb y x.

(** [min(a, b)] returns [a] unless [b < a]; [max(a, b)] returns [a]
    unless [b > a]. *)
Definition py_min (a b : F) : F := if fltb b a then b else a.
Definition py_max (a b : F) : F := if fgtb b a then b else a.

(** [a / b] on Python floats raises on a zero divisor. *)
Definition py_div (a b : F) : result F :=
  if feqb b fzero then Raise ZeroDivisionError else Ok (fdiv a b).

(** Truthiness of a float: non-zero. *)
Definition truthy (x : F) : bool := negb (feqb x fzero).
End PyArith.

(** *** Exact rationals *)

Definition Qltb (x y : Q) : bool := negb (Qle_bool y x).

(** [int(x)]: the quotient rounded towards zero. *)
Definition Qtrunc (x : Q) : Z := Z.quot (Qnum x) (Zpos (Qden x)).

#[export] Instance Q_arith : Arith Q := {|
  of_Z := inject_Z;
  fadd := Qplus;
  fsub := Qminus;
  fmul := Qmult;
  fdiv := Qdiv;
  fopp := Qopp;
  fabs := Qabs;
  fltb := Qltb;
  fleb := Qle_bool;
  feqb := Qeq_bool;
  trunc := λ x, Some (Qtrunc x)
|}.

(** *** IEEE-754 binary64 *)

(** Integers of magnitude below [2^53] convert exactly, and so does
    [10^16 = 2^16 * 5^16]; that covers every integer used in the
    evaluations below. *)
Definition float_of_Z (z : Z) : float :=
  match z with
  | Z0 => PrimFloat.zero
  | Zpos p => PrimFloat.of_uint63 (Uint63Axioms.of_Z (Zpos p))
  | Zneg p => PrimFloat.opp (PrimFloat.of_uint63 (Uint63Axioms.of_Z (Zpos p)))
  end.

(** [int(x)]: the integer part of a finite float. *)
Definition float_trunc (x : float) : option Z :=
  match Prim2SF x with
  | S754_zero _ => Some 0%Z
  | S754_finite s m e =>
      let mag := match e with
                 | Zneg k => Z.shiftr (Zpos m) (Zpos k)
                 | _ => Z.shiftl (Zpos m) e
                 end in
      Some (if s then Z.opp mag else mag)
  | _ => None
  end.

(** The rational number a finite float stands for, and the sum in
    exact arithmetic of the numbers a list of floats stands for. *)
Definition float_value (x : float) : option Q :=
  match Prim2SF x with
  | S754_zero _ => Some 0%Q
  | S754_finite s m e =>
      Some (inject_Z (if s then Zneg m else Zpos m) * Qpower 2 e)%Q
  | _ => None
  end.

Definition exact_total (l : list float) : option Q :=
  foldr (λ x acc,
           match float_value x, acc with
           | Some v, Some a => Some (v + a)%Q
           | _, _ => None
           end)
    (Some 0%Q) l.

#[export] Instance float_arith : Arith float := {|
  of_Z := float_of_Z;
  fadd := PrimFloat.add;
  fsub := PrimFloat.sub;
  fmul := PrimFloat.mul;
  fdiv := PrimFloat.div;
  fopp := PrimFloat.opp;
  fabs := PrimFloat.abs;
  fltb := PrimFloat.ltb;
  fleb := PrimFloat.leb;
  feqb := PrimFloat.eqb;
  trunc := float_trunc
|}.

(** ** Order management ([src/trading/order_management.py]) *)

Module OrderManagement.

Inductive OrderStatus : Set :=
| NEW | PARTIALLY_FILLED | FILLED | CANCELLED | REJECTED
| PENDING_CANCEL | PENDING_NEW.

Inductive OrderType : Set :=
| MARKET | LIMIT | STOP | STOP_LIMIT | TRAILING_STOP.

Inductive OrderSide : Set := BUY | SELL.

Definition status_eqb (a b : OrderStatus) : bool :=
  match a, b with
  | NEW, NEW | PARTIALLY_FILLED, PARTIALLY_FILLED | FILLED, FILLED
  | CANCELLED, CANCELLED | REJECTED, REJECTED
  | PENDING_CANCEL, PENDING_CANCEL | PENDING_NEW, PENDING_NEW => true
  | _, _ => false
  end.

Section Model.
Context {F : Type} `{Arith F}.

Record Order : Type := mkOrder {
  id : string;
  symbol : string;
  side : OrderSide;
  order_type : OrderType;
  quantity : F;
  price : option F;
  stop_price : option F;
  filled_quantity : F;
  average_fill_price : F;
  status : OrderStatus;
  timestamp : string;
  exchange_id : option string;
  time_in_force : string;
  client_order_id : option string
}.

Definition unfilled_quantity (o : Order) : F :=
  fsub (quantity o) (filled_quantity o).

Definition is_filled (o : Order) : bool := status_eqb (status o) FILLED.

Definition is_active (o : Order) : bool :=
  match status o with
  | NEW | PARTIALLY_FILLED | PENDING_NEW | PENDING_CANCEL => true
  | _ => false
  end.

(** The statuses [cancel_order] refuses. *)
Definition is_terminal (s : OrderStatus) : bool :=
  match s with
  | FILLED | CANCELLED | REJECTED => true
  | _ => false
  end.

(** Attribute assignments on an order object. *)
Definition set_status (s : OrderStatus) (o : Order) : Order :=
  mkOrder (id o) (symbol o) (side o) (order_type o) (quantity o) (price o)
    (stop_price o) (filled_quantity o) (average_fill_price o) s
    (timestamp o) (exchange_id o) (time_in_force o) (client_order_id o).

Definition set_filled_quantity (q : F) (o : Order) : Order :=
  mkOrder (id o) (symbol o) (side o) (order_type o) (quantity o) (price o)
    (stop_price o) q (average_fill_price o) (status o)
    (timestamp o) (exchange_id o) (time_in_force o) (client_order_id o).

Definition set_average_fill_price (a : F) (o : Order) : Order :=
  mkOrder (id o) (symbol o) (side o) (order_type o) (quantity o) (price o)
    (stop_price o) (filled_quantity o) a (status o)
    (timestamp o) (exchange_id o) (time_in_force o) (client_order_id o).

Definition set_quantity (q : F) (o : Order) : Order :=
  mkOrder (id o) (symbol o) (side o) (order_type o) q (price o)
    (stop_price o) (filled_quantity o) (average_fill_price o) (status o)
    (timestamp o) (exchange_id o) (time_in_force o) (client_order_id o).

Definition set_price (p : option F) (o : Order) : Order :=
  mkOrder (id o) (symbol o) (side o) (order_type o) (quantity o) p
    (stop_price o) (filled_quantity o) (average_fill_price o) (status o)
    (timestamp o) (exchange_id o) (time_in_force o) (client_order_id o).

Record Fill : Type := mkFill {
  fill_order_id : string;
  fill_symbol : string;
  fill_side : OrderSide;
  fill_quantity : F;
  fill_price : F;
  fill_time : string;
  fee : F;
  total_value : F
}.

(** [Fill.__init__] *)
Definition new_fill (oid sym : string) (sd : OrderSide)
    (qty px : F) (tm : string) (fe : F) : Fill :=
  mkFill oid sym sd qty px tm fe (fmul px qty).

(** What the manager does that an observer can see: the two writes the
    specification orders (an order's status, the fill log) and the
    deliveries to registered callbacks.  A callback is identified by a
    number; callbacks are observers and do not call back into the
    manager. *)
Inductive Event : Type :=
| StatusApplied (oid : string) (old new : OrderStatus)
| FillRecorded (f : Fill)
| StatusCallback (cb : nat) (oid : string) (old new : OrderStatus)
| FillCallback (cb : nat) (f : Fill).

(** [OrderManager].  [orders] is the store of order objects, keyed by
    id.  The Python dict [active_orders] holds, under the same ids,
    references to the very same objects, so it is modelled by its key
    set: a write to an order is seen through both dicts. *)
Record OrderManager : Type := mkOrderManager {
  orders : gmap string Order;
  fills : list Fill;
  active_orders : gset string;
  order_counter : nat;
  on_order_status_change : list nat;
  on_fill : list nat;
  on_error : list nat
}.

(** [OrderManager.__init__] *)
Definition init : OrderManager := mkOrderManager ∅ [] ∅ 0 [] [] [].

Definition with_orders (f : gmap string Order → gmap string Order)
    (m : OrderManager) : OrderManager :=
  mkOrderManager (f (orders m)) (fills m) (active_orders m)
    (order_counter m) (on_order_status_change m) (on_fill m) (on_error m).

Definition with_fills (f : list Fill → list Fill)
    (m : OrderManager) : OrderManager :=
  mkOrderManager (orders m) (f (fills m)) (active_orders m)
    (order_counter m) (on_order_status_change m) (on_fill m) (on_error m).

Definition with_active (f : gset string → gset string)
    (m : OrderManager) : OrderManager :=
  mkOrderManager (orders m) (fills m) (f (active_orders m))
    (order_counter m) (on_order_status_change m) (on_fill m) (on_error m).

Definition with_counter (c : nat) (m : OrderManager) : OrderManager :=
  mkOrderManager (orders m) (fills m) (active_orders m)
    c (on_order_status_change m) (on_fill m) (on_error m).

(** *** The manager monad: state, exceptions and the event trace.
    A raised exception keeps the state reached and the events emitted
    so far, as in Python. *)
Definition M (A : Type) : Type :=
  OrderManager → result A * OrderManager * list Event.

Definition ret {A} (a : A) : M A := λ m, (Ok a, m, []).

Definition bind {A B} (c : M A) (k : A → M B) : M B := λ m,
  match c m with
  | (Ok a, m1, t1) =>
      match k a m1 with (r, m2, t2) => (r, m2, t1 ++ t2) end
  | (Raise e, m1, t1) => (Raise e, m1, t1)
  end.

Definition get : M OrderManager := λ m, (Ok m, m, []).
Definition modify (f : OrderManager → OrderManager) : M unit :=
  λ m, (Ok tt, f m, []).
Definition emit (l : list Event) : M unit := λ m, (Ok tt, m, l).
Definition lift {A} (r : result A) : M A := λ m, (r, m, []).

(** An attribute write on the order object stored under [oid]. *)
Definition mutate (oid : string) (f : Order → Order) : M unit :=
  modify (with_orders (alter f oid)).
End Model.

Arguments Order F : clear implicits.
Arguments Fill F : clear implicits.
Arguments Event F : clear implicits.
Arguments OrderManager F : clear implicits.
Arguments M F A : clear implicits.

Notation "'let*' x := c 'in' k" := (bind c (λ x, k))
  (at level 10, x name, c at level 100, k at level 200, only parsing).
Notation "c ;;; k" := (bind c (λ _, k))
  (at level 100, k at level 200, right associativity, only parsing).

(** [str.zfill]-style padding of a decimal to [w] digits, as done by the
    format [{n:06d}] for a non-negative [n]. *)
Definition zero_pad (w : nat) (s : string) : string :=
  String.concat EmptyString (replicate (w - String.length s) "0") +:+ s.

Section Operations.
Context {F : Type} `{Arith F}.

(** [OrderManager._update_order_status] *)
Definition _update_order_status (oid : string) (new_status : OrderStatus)
    : M F unit :=
  let* m := get in
  match orders m !! oid with
  | None => ret tt
  | Some order =>
      let old_status := status order in
      mutate oid (set_status new_status) ;;;
      emit [StatusApplied oid old_status new_status] ;;;
      emit ((λ cb, StatusCallback cb oid old_status new_status)
              <$> on_order_status_change m)
  end.

(** [OrderManager.create_order]; [now] is [datetime.now().isoformat()]
    read by [Order.__post_init__]. *)
Definition create_order (now : string) (sym : string) (sd : OrderSide)
    (ty : OrderType) (qty : F) (px stop_px : option F) (tif : string)
    : M F (Order F) :=
  let* m := get in
  let counter := S (order_counter m) in
  modify (with_counter counter) ;;;
  let order_id := "ORDER_" +:+ zero_pad 6 (pretty counter) in
  let order :=
    mkOrder order_id sym sd ty qty px stop_px fzero fzero PENDING_NEW
      now None tif (Some ("CLIENT_" +:+ order_id)) in
  modify (with_orders (insert order_id order)) ;;;
  modify (with_active (λ a, {[order_id]} ∪ a)) ;;;
  _update_order_status order_id NEW ;;;
  let* m' := get in
  (* the returned reference is the stored object *)
  ret (default order (orders m' !! order_id)).

(** [self.active_orders[order_id]]: the object is the one of the store. *)
Definition active_lookup (oid : string) : M F (Order F) :=
  let* m := get in
  match orders m !! oid with
  | Some o => ret o
  | None => lift (Raise KeyError)
  end.

(** [OrderManager.cancel_order] *)
Definition cancel_order (oid : string) : M F bool :=
  let* m := get in
  if negb (bool_decide (oid ∈ active_orders m)) then ret false
  else
    let* order := active_lookup oid in
    match status order with
    | FILLED | CANCELLED | REJECTED => ret false
    | _ =>
        _update_order_status oid CANCELLED ;;;
        modify (with_active (λ a, a ∖ {[oid]})) ;;;
        ret true
    end.

(** [OrderManager.modify_order] *)
Definition modify_order (oid : string) (qty : option F) (px : option F)
    : M F bool :=
  let* m := get in
  if negb (bool_decide (oid ∈ active_orders m)) then ret false
  else
    let* order := active_lookup oid in
    if negb (is_active order) then ret false
    else
      match qty with
      | Some q => mutate oid (set_quantity q)
      | None => ret tt
      end ;;;
      match px with
      | Some p => mutate oid (set_price (Some p))
      | None => ret tt
      end ;;;
      ret true.

(** [OrderManager.process_fill]; [now] is the clock read for
    [fill_time]. *)
Definition process_fill (now : string) (oid : string)
    (fill_qty fill_px fee_ : F) : M F (option (Fill F)) :=
  let* m := get in
  match orders m !! oid with
  | None => ret None
  | Some order =>
      if negb (is_active order) then ret None
      else
        let available_quantity := unfilled_quantity order in
        let actual_fill_qty := py_min fill_qty available_quantity in
        if fleb actual_fill_qty fzero then ret None
        else
          let total_value :=
            fadd (fmul (average_fill_price order) (filled_quantity order))
                 (fmul fill_px actual_fill_qty) in
          let filled := fadd (filled_quantity order) actual_fill_qty in
          mutate oid (set_filled_quantity filled) ;;;
          let* avg := lift (py_div total_value filled) in
          mutate oid (set_average_fill_price avg) ;;;
          let fill :=
            new_fill oid (symbol order) (side order) actual_fill_qty
              fill_px now fee_ in
          modify (with_fills (λ l, l ++ [fill])) ;;;
          emit [FillRecorded fill] ;;;
          (if fgeb filled (quantity order) then
             _update_order_status oid FILLED ;;;
             modify (with_active (λ a, a ∖ {[oid]}))
           else
             _update_order_status oid PARTIALLY_FILLED) ;;;
          emit ((λ cb, FillCallback cb fill) <$> on_fill m) ;;;
          ret (Some fill)
  end.

(** [OrderManager.register_callback] *)
Definition register_callback (event_type : string) (cb : nat)
    : M F unit :=
  modify (λ m,
    if String.eqb event_type "order_status" then
      mkOrderManager (orders m) (fills m) (active_orders m)
        (order_counter m) (on_order_status_change m ++ [cb]) (on_fill m)
        (on_error m)
    else if String.eqb event_type "fill" then
      mkOrderManager (orders m) (fills m) (active_orders m)
        (order_counter m) (on_order_status_change m) (on_fill m ++ [cb])
        (on_error m)
    else if String.eqb event_type "error" then
      mkOrderManager (orders m) (fills m) (active_orders m)
        (order_counter m) (on_order_status_change m) (on_fill m)
        (on_error m ++ [cb])
    else m).

(** [OrderManager.get_order] *)
Definition get_order (m : OrderManager F) (oid : string)
    : option (Order F) := orders m !! oid.

(** [OrderManager.get_fills_for_order] *)
Definition get_fills_for_order (m : OrderManager F) (oid : string)
    : list (Fill F) :=
  filter (λ f, fill_order_id f = oid) (fills m).

(** The order object a fill of [delta] units at price [px] leaves
    behind, in the words of the specification: the filled quantity
    grows by [delta], the average fill price becomes
    [(avg * filled + px * delta) / (filled + delta)], and the status is
    [FILLED] once the filled quantity reaches the quantity. *)
Definition after_fill (o : Order F) (delta px : F) : Order F :=
  let filled := fadd (filled_quantity o) delta in
  let avg :=
    fdiv (fadd (fmul (average_fill_price o) (filled_quantity o))
               (fmul px delta)) filled in
  set_status (if fgeb filled (quantity o) then FILLED else PARTIALLY_FILLED)
    (set_average_fill_price avg (set_filled_quantity filled o)).

(** A run [x] with the events [l] emitted before it. *)
Definition preceded_by {A} (l : list (Event F))
    (x : result A * OrderManager F * list (Event F))
    : result A * OrderManager F * list (Event F) :=
  (x.1.1, x.1.2, l ++ x.2).

(** Kinds of events, and "every [P] event comes before every [Q]
    event" in a trace. *)
Definition is_status_applied (e : Event F) : bool :=
  match e with StatusApplied _ _ _ => true | _ => false end.
Definition is_fill_recorded (e : Event F) : bool :=
  match e with FillRecorded _ => true | _ => false end.
Definition is_status_callback (e : Event F) : bool :=
  match e with StatusCallback _ _ _ _ => true | _ => false end.
Definition is_fill_callback (e : Event F) : bool :=
  match e with FillCallback _ _ => true | _ => false end.

Definition all_before (P Q : Event F → bool) (tr : list (Event F)) : Prop :=
  ∀ i j a b, tr !! i = Some a → tr !! j = Some b →
             P a = true → Q b = true → i < j.

(** The id [create_order] assigns next, and the order it creates. *)
Definition next_id (m : OrderManager F) : string :=
  "ORDER_" +:+ zero_pad 6 (pretty (S (order_counter m))).

Definition created (now sym : string) (sd : OrderSide) (ty : OrderType)
    (qty : F) (px spx : option F) (tif : string) (m : OrderManager F)
    : Order F :=
  mkOrder (next_id m) sym sd ty qty px spx fzero fzero NEW now None tif
    (Some ("CLIENT_" +:+ next_id m)).

(** An attribute write that leaves the filled quantity alone. *)
Definition keeps_filled (f : Order F → Order F) : Prop :=
  ∀ o, filled_quantity (f o) = filled_quantity o.

(** The calls a client (or the [ExecutionHandler], which rejects an
    order through [_update_order_status]) can make on a manager. *)
Inductive Call : Type :=
| CreateOrder (now sym : string) (sd : OrderSide) (ty : OrderType)
    (qty : F) (px stop_px : option F) (tif : string)
| CancelOrder (oid : string)
| ModifyOrder (oid : string) (qty px : option F)
| ProcessFill (now oid : string) (fill_qty fill_px fee_ : F)
| UpdateStatus (oid : string) (s : OrderStatus)
| RegisterCallback (event_type : string) (cb : nat).

Definition call (c : Call) : M F unit :=
  match c with
  | CreateOrder now sym sd ty qty px spx tif =>
      create_order now sym sd ty qty px spx tif ;;; ret tt
  | CancelOrder oid => cancel_order oid ;;; ret tt
  | ModifyOrder oid qty px => modify_order oid qty px ;;; ret tt
  | ProcessFill now oid q p fe => process_fill now oid q p fe ;;; ret tt
  | UpdateStatus oid s => _update_order_status oid s
  | RegisterCallback ty cb => register_callback ty cb
  end.

(** The manager state after a call, whether it returned or raised. *)
Definition after (c : Call) (m : OrderManager F) : OrderManager F :=
  (call c m).1.2.

(** The states a manager can be in: those reached from a fresh manager
    by a sequence of calls. *)
Inductive reachable : OrderManager F → Prop :=
| reachable_init : reachable init
| reachable_call c m : reachable m → reachable (after c m).
End Operations.

(** In exact arithmetic: no stored order has a negative filled
    quantity. *)
Definition filled_nonneg (m : OrderManager Q) : Prop :=
  ∀ k o, orders m !! k = Some o → (0 <= filled_quantity o)%Q.

End OrderManagement.

(** ** Execution strategies ([src/trading/execution_algorithms.py]) *)

Module Execution.
Import OrderManagement.

(** A child order specification [(quantity, price)]. *)
Abbreviation Slice F := (F * F)%type (only parsing).

Section Model.
Context {F : Type} `{Arith F}.

(** One row of the [market_data] frame; the frame is the list of its
    rows, oldest first. *)
Record Bar : Type := mkBar {
  datetime : string;
  open : F;
  high : F;
  low : F;
  close : F;
  volume : F
}.


(** [market_data.iloc[-(k+1)]]: the row [k] places before the last;
    pandas raises [IndexError] when there is none. *)
Definition iloc_back (market_data : list Bar) (k : nat) : result Bar :=
  match rev market_data !! k with
  | Some b => Ok b
  | None => Raise IndexError
  end.

(** [sum(q for q, p in child_orders)]: accumulation from [0], left to
    right. *)
Definition total_sliced {P} (child_orders : list (F * P)) : F :=
  foldl (λ acc s, fadd acc s.1) fzero child_orders.

(** *** TWAP *)
Record TWAPStrategy : Type := mkTWAP {
  time_window_minutes : Z;
  slice_interval_minutes : Z
}.

(** [TWAPStrategy.__init__] defaults *)
Definition TWAP_default : TWAPStrategy := mkTWAP 60 5.

(** The body of the loop of [TWAPStrategy.execute]. *)
Definition twap_body (order : Order F) (market_data : list Bar)
    (slice_quantity : F) (child_orders : list (Slice F)) (i : nat)
    : result (list (Slice F)) :=
  if bool_decide (i < length market_data) then
    let+ row := iloc_back market_data i in
    let current_price := close row in
    let execution_price :=
      match side order with
      | BUY => fmul current_price (lit 10005 10000)
      | SELL => fmul current_price (lit 9995 10000)
      end in
    Ok (child_orders ++ [(slice_quantity, execution_price)])
  else if bool_decide (0 < length market_data) then
    let+ row := iloc_back market_data 0 in
    let last_price := close row in
    let execution_price :=
      match side order with
      | BUY => fmul last_price (lit 10005 10000)
      | SELL => fmul last_price (lit 9995 10000)
      end in
    Ok (child_orders ++ [(slice_quantity, execution_price)])
  else Ok child_orders.

(** [TWAPStrategy.execute] *)
Definition twap_execute (s : TWAPStrategy) (order : Order F)
    (market_data : list Bar) : result (list (Slice F)) :=
  let total_quantity := quantity order in
  let+ time_slices :=
    floordiv (time_window_minutes s) (slice_interval_minutes s) in
  let+ slice_quantity :=
    (* float / int raises exactly when the int is zero *)
    if Z.eqb time_slices 0 then Raise ZeroDivisionError
    else Ok (fdiv total_quantity (of_Z time_slices)) in
  for_each (range time_slices)
    (twap_body order market_data slice_quantity) [].

(** *** Participate *)
Record ParticipateStrategy : Type := mkParticipate {
  participation_rate : F
}.

(** [df.tail(n)] *)
Definition tail (n : nat) (market_data : list Bar) : list Bar :=
  drop (length market_data - n) market_data.

(** [df.tail(n)] for a Python int [n]: a negative [n] drops the first
    [-n] rows instead. *)
Definition tail_int (n : Z) (market_data : list Bar) : list Bar :=
  if (0 <=? n)%Z then tail (Z.to_nat n) market_data
  else drop (Z.to_nat (- n)) market_data.

(** [df['volume'].mean()] on a non-empty frame *)
Definition mean_volume (df : list Bar) : F :=
  fdiv (foldl (λ acc b, fadd acc (volume b)) fzero df)
       (of_Z (Z.of_nat (length df))).

(** The [while remaining_quantity > 0] loop of
    [ParticipateStrategy.execute], run for at most [fuel] tests of its
    condition; [None] when the fuel does not suffice. *)
Fixpoint participate_loop (fuel : nat) (order : Order F)
    (market_data : list Bar) (desired_participation : F)
    (remaining_quantity : F) (child_orders : list (Slice F))
    : option (result (list (Slice F))) :=
  match fuel with
  | O => None
  | S fuel' =>
      if fgtb remaining_quantity fzero then
        let chunk_size := py_min desired_participation remaining_quantity in
        match iloc_back market_data 0 with
        | Raise e => Some (Raise e)
        | Ok row =>
            let current_price := close row in
            let execution_price :=
              match side order with
              | BUY => fmul current_price (lit 10005 10000)
              | SELL => fmul current_price (lit 9995 10000)
              end in
            participate_loop fuel' order market_data desired_participation
              (fsub remaining_quantity chunk_size)
              (child_orders ++ [(chunk_size, execution_price)])
        end
      else Some (Ok child_orders)
  end.

(** [ParticipateStrategy.execute] *)
Definition participate_execute (fuel : nat) (s : ParticipateStrategy)
    (order : Order F) (market_data : list Bar)
    : option (result (list (Slice F))) :=
  if bool_decide (length market_data = 0) then
    Some (Ok [(quantity order, fzero)])
  else
    let df := tail 20 market_data in
    let avg_volume := mean_volume df in
    if feqb avg_volume fzero then
      Some (let+ row := iloc_back market_data 0 in
            Ok [(quantity order, close row)])
    else
      let desired_participation := fmul avg_volume (participation_rate s) in
      participate_loop fuel order market_data desired_participation
        (quantity order) [].

(** *** Iceberg *)
Record IcebergStrategy : Type := mkIceberg {
  display_size : F;
  refresh_time_seconds : Z
}.

(** The body of the hidden-chunk loop of [IcebergStrategy.execute];
    the loop state is [(child_orders, remaining_quantity)]. *)
Definition iceberg_body (s : IcebergStrategy) (order : Order F)
    (current_price : F) (st : list (Slice F) * F) (i : nat)
    : result (list (Slice F) * F) :=
  let '(child_orders, remaining_quantity) := st in
  if fgtb remaining_quantity fzero then
    let chunk_size := py_min (display_size s) remaining_quantity in
    let execution_price :=
      match side order with
      | BUY => fmul current_price (lit 10003 10000)
      | SELL => fmul current_price (lit 9997 10000)
      end in
    Ok (child_orders ++ [(chunk_size, execution_price)],
        fsub remaining_quantity chunk_size)
  else Ok st.

(** [int(x)] *)
Definition py_int (x : F) : result Z :=
  match trunc x with Some z => Ok z | None => Raise ValueError end.

(** [IcebergStrategy.execute] *)
Definition iceberg_execute (s : IcebergStrategy) (order : Order F)
    (market_data : list Bar) : result (list (Slice F)) :=
  let total_quantity := quantity order in
  let displayed_quantity := py_min (display_size s) total_quantity in
  let remaining_quantity := fsub total_quantity displayed_quantity in
  let+ row := iloc_back market_data 0 in
  let current_price := close row in
  let execution_price :=
    match side order with
    | BUY => fmul current_price (lit 10002 10000)
    | SELL => fmul current_price (lit 9998 10000)
    end in
  let child_orders := [(displayed_quantity, execution_price)] in
  let+ ratio := py_div remaining_quantity (display_size s) in
  let+ whole := py_int ratio in
  let hidden_chunks := Z.max 1 whole in
  let+ st := for_each (range hidden_chunks)
               (iceberg_body s order current_price)
               (child_orders, remaining_quantity) in
  Ok st.1.
(** *** VWAP *)
Record VWAPStrategy : Type := mkVWAP {
  lookback_days : Z
}.

(** [series.cumsum()] *)
Fixpoint cumsum_from (acc : F) (l : list F) : list F :=
  match l with
  | [] => []
  | x :: l' => let acc' := fadd acc x in acc' :: cumsum_from acc' l'
  end.
Definition cumsum (l : list F) : list F :=
  match l with
  | [] => []
  | x :: l' => x :: cumsum_from x l'
  end.

(** An element-wise quotient of two numpy values: no exception is
    raised; [None] stands for the nan or inf that a zero divisor
    yields. *)
Definition np_div (a b : F) : option F :=
  if feqb b fzero then None else Some (fdiv a b).

(** The column [vwap_values = cum_vwp / cum_vol]. *)
Definition vwap_values (market_data : list Bar) : list (option F) :=
  let typical_price :=
    (λ b, fdiv (fadd (fadd (high b) (low b)) (close b)) (of_Z 3))
      <$> market_data in
  let vwp := zip_with fmul typical_price (volume <$> market_data) in
  let cum_vol := cumsum (volume <$> market_data) in
  let cum_vwp := cumsum vwp in
  zip_with np_div cum_vwp cum_vol.

(** [VWAPStrategy.execute]; the price of a slice is [None] where numpy
    has a nan or inf. *)
Definition vwap_execute (s : VWAPStrategy) (order : Order F)
    (market_data : list Bar) : list (F * option F) :=
  if bool_decide (length market_data = 0) then
    [(quantity order, Some fzero)]
  else
    let values := vwap_values market_data in
    let current_vwap := default None (last values) in
    let total_volume :=
      foldl (λ acc b, fadd acc (volume b)) fzero market_data in
    if feqb total_volume fzero then [(quantity order, current_vwap)]
    else
      let time_slices := Nat.min 20 (length market_data) in
      let slice_quantity :=
        fdiv (quantity order) (of_Z (Z.of_nat time_slices)) in
      (λ i,
         let target_price :=
           if bool_decide (i < length values)
           then default None (values !! i)
           else current_vwap in
         let execution_price :=
           match side order with
           | BUY => (λ t, fmul t (lit 10003 10000)) <$> target_price
           | SELL => (λ t, fmul t (lit 9997 10000)) <$> target_price
           end in
         (slice_quantity, execution_price)) <$> seq 0 time_slices.

(** *** MinSlippage *)
Record MinSlippageStrategy : Type := mkMinSlippage {
  volatility_lookback : Z
}.

Section Volatility.
(** [np.log(close / close.shift(1)).dropna().std() * np.sqrt(252)] over
    the closes of the trailing bars: a computation of numpy, taken as
    given; [None] stands for a nan. *)
Variable annualized_volatility : list F → option F.

(** [v < x] and [v > x] for a volatility that may be nan: comparisons
    with nan are false. *)
Definition vol_lt (v : option F) (x : F) : bool :=
  match v with Some y => fltb y x | None => false end.
Definition vol_gt (v : option F) (x : F) : bool :=
  match v with Some y => fgtb y x | None => false end.

(** [MinSlippageStrategy.execute] *)
Definition min_slippage_execute (s : MinSlippageStrategy) (order : Order F)
    (market_data : list Bar) : result (list (Slice F)) :=
  if bool_decide (Z.of_nat (length market_data) < volatility_lookback s)%Z
  then
    let+ row := iloc_back market_data 0 in
    let price_ := close row in
    let execution_price :=
      match side order with
      | BUY => fmul price_ (lit 10005 10000)
      | SELL => fmul price_ (lit 9995 10000)
      end in
    Ok [(quantity order, execution_price)]
  else
    let df := tail_int (volatility_lookback s) market_data in
    let volatility := annualized_volatility (close <$> df) in
    let+ time_slices :=
      if vol_lt volatility (lit 2 100) then
        let+ n := py_int (fdiv (quantity order) (of_Z 1000)) in
        Ok (Z.max 1 n)
      else if vol_lt volatility (lit 5 100) then
        let+ n := py_int (fdiv (quantity order) (of_Z 500)) in
        Ok (Z.max 2 n)
      else
        let+ n := py_int (fdiv (quantity order) (of_Z 100)) in
        Ok (Z.max 5 n) in
    let slice_quantity := fdiv (quantity order) (of_Z time_slices) in
    let+ row := iloc_back market_data 0 in
    let current_price := close row in
    let execution_price :=
      match side order with
      | BUY =>
          if vol_gt volatility (lit 5 100)
          then fmul current_price (fadd (of_Z 1) (lit 1 1000))
          else fmul current_price (fadd (of_Z 1) (lit 3 10000))
      | SELL =>
          if vol_gt volatility (lit 5 100)
          then fmul current_price (fsub (of_Z 1) (lit 1 1000))
          else fmul current_price (fsub (of_Z 1) (lit 3 10000))
      end in
    Ok ((λ _, (slice_quantity, execution_price)) <$> range time_slices).
End Volatility.
End Model.

Arguments Bar F : clear implicits.
Arguments IcebergStrategy F : clear implicits.
Arguments ParticipateStrategy F : clear implicits.
Arguments min_slippage_execute {F _} annualized_volatility s order market_data.

End Execution.

(** ** Positions ([data_interface_framework.Position] and
       [src/risk/position_manager.py]) *)

Module Portfolio.

Inductive AssetType : Set := CRYPTO | STOCK | FOREX | FUTURES | OPTIONS.

(** [needle in haystack] on strings *)
Definition contains (needle haystack : string) : bool :=
  match String.index 0 needle haystack with Some _ => true | None => false end.

Section Model.
Context {F : Type} `{Arith F}.

(** A [Position] object.  [stop_loss], [take_profit] and [side] are the
    attributes [open_position] attaches after construction; [None]
    stands for an attribute that is absent (or, for the two prices,
    set to [None]), which is how the code reads them with [getattr]. *)
Record Position : Type := mkPosition {
  symbol : string;
  quantity : F;
  avg_entry_price : F;
  current_price : F;
  asset_type : AssetType;
  pnl : F;
  stop_loss : option F;
  take_profit : option F;
  side : option string
}.

(** [getattr(position, 'side', 'buy')] *)
Definition side_of (p : Position) : string := default "buy" (side p).

(** [Position._calculate_pnl] *)
Definition _calculate_pnl (qty entry current : F) : F :=
  if feqb qty fzero then fzero
  else if fgtb qty fzero then fmul (fsub current entry) qty
  else fmul (fsub entry current) (fabs qty).

(** An entry of the trade log. *)
Record Trade : Type := mkTrade {
  trade_symbol : string;
  action : string;
  trade_side : string;
  trade_quantity : F;
  trade_price : F;
  profit_loss : option F;
  trade_timestamp : string
}.

Record PositionManager : Type := mkPositionManager {
  initial_capital : F;
  current_capital : F;
  max_position_size : F;
  max_risk_per_trade : F;
  positions : gmap string Position;
  trades : list Trade
}.

(** [PositionManager.__init__] *)
Definition new_manager (capital max_size max_risk : F) : PositionManager :=
  mkPositionManager capital capital max_size max_risk ∅ [].

(** [PositionManager._detect_asset_type] *)
Definition _detect_asset_type (sym : string) : AssetType :=
  if contains "-USDT" sym || contains "-USD" sym then CRYPTO else STOCK.

(** [PositionManager.open_position]; [now] is [_get_timestamp()]. *)
Definition open_position (now : string) (sym side_ : string) (qty entry : F)
    (sl tp : option F) (pm : PositionManager)
    : PositionManager * Position :=
  let q := if String.eqb side_ "buy" then qty else fopp qty in
  let position :=
    mkPosition sym q entry entry (_detect_asset_type sym)
      (_calculate_pnl q entry entry) sl tp (Some side_) in
  (mkPositionManager (initial_capital pm) (current_capital pm)
     (max_position_size pm) (max_risk_per_trade pm)
     (<[sym := position]> (positions pm))
     (trades pm ++ [mkTrade sym "open" side_ qty entry None now]),
   position).

(** [PositionManager.close_position]; [now] is [_get_timestamp()]. *)
Definition close_position (now : string) (sym : string) (exit_price : F)
    (pm : PositionManager) : PositionManager * F :=
  match positions pm !! sym with
  | None => (pm, fzero)
  | Some position =>
      let side_ := side_of position in
      let pl :=
        if String.eqb side_ "buy" then
          fmul (fsub exit_price (avg_entry_price position))
               (quantity position)
        else
          fmul (fsub (avg_entry_price position) exit_price)
               (fabs (quantity position)) in
      (mkPositionManager (initial_capital pm)
         (fadd (current_capital pm) pl)
         (max_position_size pm) (max_risk_per_trade pm)
         (delete sym (positions pm))
         (trades pm ++
            [mkTrade sym "close" side_ (fabs (quantity position))
               exit_price (Some pl) now]),
       pl)
  end.

(** [PositionManager.update_position_price] *)
Definition update_position_price (sym : string) (px : F)
    (pm : PositionManager) : PositionManager :=
  mkPositionManager (initial_capital pm) (current_capital pm)
    (max_position_size pm) (max_risk_per_trade pm)
    (alter (λ p, mkPosition (symbol p) (quantity p) (avg_entry_price p) px
                   (asset_type p) (pnl p) (stop_loss p) (take_profit p)
                   (side p)) sym (positions pm))
    (trades pm).

(** [PositionManager.get_position] *)
Definition get_position (pm : PositionManager) (sym : string)
    : option Position := positions pm !! sym.

(** [PositionManager.get_all_positions]: the values of the position
    map (in key order here; the claims concern membership only). *)
Definition get_all_positions (pm : PositionManager) : list Position :=
  (map_to_list (positions pm)).*2.
End Model.

Arguments Position F : clear implicits.
Arguments Trade F : clear implicits.
Arguments PositionManager F : clear implicits.

End Portfolio.

(** ** Risk rules ([src/risk/risk_rules.py]) *)

Module Risk.
Import Portfolio.

Section Model.
Context {F : Type} `{Arith F}.

(** The risk context: a dict in the source; a field is [None] when the
    key is absent. *)
Record Context : Type := mkContext {
  position_size : option F;
  ctx_symbol : option string;
  trade_pnl : option F;
  portfolio_value : option F;
  ctx_positions : option (list (Position F))
}.

Definition empty_context : Context := mkContext None None None None None.

(** The reason of a violation.  The source formats it into text; the
    model keeps the numbers that are formatted. *)
Inductive Reason : Type :=
| PositionSizeExceeds (size max : F)
| DailyLossExceeds (loss max : F)
| DrawdownExceeds (drawdown max : F)
| StopLossTriggered
| TakeProfitTriggered.

(** The [details] dict of a violation. *)
Inductive Details : Type :=
| PositionSizeDetails (sym : string) (size : F)
| DailyLossDetails (daily_pnl : F) (daily_trades : nat)
| DrawdownDetails (peak current drawdown : F)
| StopDetails (sym : string) (stop_price current : F) (action : string)
| ProfitDetails (sym : string) (profit_price current : F) (action : string).

Record Violation : Type := mkViolation {
  rule : string;
  reason : Reason;
  details : Details;
  violation_timestamp : string
}.

(** The rule classes with their own state.  [AbstractRule] is the base
    class [RiskRule], whose [check] is not implemented. *)
Inductive RuleKind : Type :=
| AbstractRule
| MaxPositionSizeRule (max_size : F)
| MaxDailyLossRule (max_daily_loss daily_pnl : F) (daily_trade_count : nat)
| MaxDrawdownRule (max_drawdown_percent peak_value current_value : F)
| StopLossRule
| TakeProfitRule.

(** A rule object: the attributes of [RiskRule] and the subclass part. *)
Record RiskRule : Type := mkRule {
  name : string;
  enabled : bool;
  violations : list Violation;
  kind : RuleKind
}.

(** Constructors, with the names the subclasses pass to [RiskRule]. *)
Definition new_MaxPositionSizeRule (max_size : F) : RiskRule :=
  mkRule "MaxPositionSizeRule" true [] (MaxPositionSizeRule max_size).
Definition new_MaxDailyLossRule (max_loss : F) : RiskRule :=
  mkRule "MaxDailyLossRule" true [] (MaxDailyLossRule max_loss fzero 0).
Definition new_MaxDrawdownRule (max_dd : F) : RiskRule :=
  mkRule "MaxDrawdownRule" true [] (MaxDrawdownRule max_dd fzero fzero).
Definition new_StopLossRule : RiskRule :=
  mkRule "StopLossRule" true [] StopLossRule.
Definition new_TakeProfitRule : RiskRule :=
  mkRule "TakeProfitRule" true [] TakeProfitRule.

Definition with_kind (k : RuleKind) (r : RiskRule) : RiskRule :=
  mkRule (name r) (enabled r) (violations r) k.

(** [RiskRule.add_violation]; [now] is the clock it reads. *)
Definition add_violation (now : string) (why : Reason) (d : Details)
    (r : RiskRule) : RiskRule :=
  mkRule (name r) (enabled r)
    (violations r ++ [mkViolation (name r) why d now]) (kind r).

(** [RiskRule.get_violations] *)
Definition get_violations (r : RiskRule) : list Violation := violations r.

(** [RiskRule.clear_violations] *)
Definition clear_violations (r : RiskRule) : RiskRule :=
  mkRule (name r) (enabled r) [] (kind r).

(** [MaxDrawdownRule.reset_peak] *)
Definition reset_peak (r : RiskRule) : RiskRule :=
  match kind r with
  | MaxDrawdownRule m _ c =>
      clear_violations (with_kind (MaxDrawdownRule m fzero c) r)
  | _ => r
  end.

(** [MaxPositionSizeRule.check] *)
Definition check_max_position_size (now : string) (ctx : Context)
    (max_size : F) (r : RiskRule) : RiskRule * result bool :=
  let size := default fzero (position_size ctx) in
  let sym := default EmptyString (ctx_symbol ctx) in
  if fgtb size max_size then
    (add_violation now (PositionSizeExceeds size max_size)
       (PositionSizeDetails sym size) r, Ok true)
  else (r, Ok false).

(** [MaxDailyLossRule.check] *)
Definition check_max_daily_loss (now : string) (ctx : Context)
    (max_loss daily : F) (count : nat) (r : RiskRule)
    : RiskRule * result bool :=
  let '(daily, count) :=
    match trade_pnl ctx with
    | Some pnl_ => (fadd daily pnl_, S count)
    | None => (daily, count)
    end in
  let r := with_kind (MaxDailyLossRule max_loss daily count) r in
  if fltb daily (fopp max_loss) then
    (add_violation now (DailyLossExceeds (fabs daily) max_loss)
       (DailyLossDetails daily count) r, Ok true)
  else (r, Ok false).

(** [MaxDrawdownRule.check] *)
Definition check_max_drawdown (now : string) (ctx : Context)
    (max_dd peak current : F) (r : RiskRule) : RiskRule * result bool :=
  let '(peak, current) :=
    match portfolio_value ctx with
    | Some value => (if fgtb value peak then value else peak, value)
    | None => (peak, current)
    end in
  let r := with_kind (MaxDrawdownRule max_dd peak current) r in
  if fgtb peak fzero then
    match py_div (fsub peak current) peak with
    | Raise e => (r, Raise e)
    | Ok ratio =>
        let drawdown_percent := fmul ratio (of_Z 100) in
        if fgtb drawdown_percent max_dd then
          (add_violation now (DrawdownExceeds drawdown_percent max_dd)
             (DrawdownDetails peak current drawdown_percent) r, Ok true)
        else (r, Ok false)
    end
  else (r, Ok false).

(** Truthiness of an optional price: present and non-zero. *)
Definition price_set (p : option F) : bool :=
  match p with Some x => truthy x | None => false end.

(** The crossings collected by the loop of [StopLossRule.check]. *)
Definition stop_loss_hits (ps : list (Position F)) : list Details :=
  flat_map (λ p,
    match stop_loss p with
    | Some sl =>
        if truthy sl && truthy (current_price p) then
          if String.eqb (side_of p) "buy" then
            if fleb (current_price p) sl
            then [StopDetails (symbol p) sl (current_price p) "sell"]
            else []
          else
            if fgeb (current_price p) sl
            then [StopDetails (symbol p) sl (current_price p) "buy"]
            else []
        else []
    | None => []
    end) ps.

(** The crossings collected by the loop of [TakeProfitRule.check]. *)
Definition take_profit_hits (ps : list (Position F)) : list Details :=
  flat_map (λ p,
    match take_profit p with
    | Some tp =>
        if truthy tp && truthy (current_price p) then
          if String.eqb (side_of p) "buy" then
            if fgeb (current_price p) tp
            then [ProfitDetails (symbol p) tp (current_price p) "sell"]
            else []
          else
            if fleb (current_price p) tp
            then [ProfitDetails (symbol p) tp (current_price p) "buy"]
            else []
        else []
    | None => []
    end) ps.

(** The tail shared by [StopLossRule.check] and [TakeProfitRule.check]:
    one violation per crossing. *)
Definition record_hits (now : string) (why : Reason) (hits : list Details)
    (r : RiskRule) : RiskRule * result bool :=
  match hits with
  | [] => (r, Ok false)
  | _ => (foldl (λ r d, add_violation now why d r) r hits, Ok true)
  end.

(** [rule.check(context)], dispatched on the class of the rule.  The
    rule object after the call is returned in either case: what a
    [check] wrote before raising stays written. *)
Definition check (now : string) (ctx : Context) (r : RiskRule)
    : RiskRule * result bool :=
  match kind r with
  | AbstractRule => (r, Raise NotImplementedError)
  | MaxPositionSizeRule max_size =>
      check_max_position_size now ctx max_size r
  | MaxDailyLossRule max_loss daily count =>
      check_max_daily_loss now ctx max_loss daily count r
  | MaxDrawdownRule max_dd peak current =>
      check_max_drawdown now ctx max_dd peak current r
  | StopLossRule =>
      record_hits now StopLossTriggered
        (stop_loss_hits (default [] (ctx_positions ctx))) r
  | TakeProfitRule =>
      record_hits now TakeProfitTriggered
        (take_profit_hits (default [] (ctx_positions ctx))) r
  end.

(** [RiskRulesEngine] *)
Record RiskRulesEngine : Type := mkEngine {
  rules : list RiskRule;
  engine_enabled : bool
}.

(** [RiskRulesEngine.add_rule] *)
Definition add_rule (r : RiskRule) (e : RiskRulesEngine) : RiskRulesEngine :=
  mkEngine (rules e ++ [r]) (engine_enabled e).

(** [RiskRulesEngine.create_default_rules] on a fresh engine *)
Definition create_default_rules (max_size max_loss max_dd : F)
    : RiskRulesEngine :=
  add_rule new_TakeProfitRule
    (add_rule new_StopLossRule
      (add_rule (new_MaxDrawdownRule max_dd)
        (add_rule (new_MaxDailyLossRule max_loss)
          (add_rule (new_MaxPositionSizeRule max_size)
            (mkEngine [] true))))).

(** What one run of the loop of [check_rules] leaves behind: the rule
    objects after their checks, the list [violations] built, and the
    errors caught (rule name and exception), in the order printed. *)
Record Outcome : Type := mkOutcome {
  rules_after : list RiskRule;
  returned : list Violation;
  caught : list (string * exn)
}.

(** The loop of [RiskRulesEngine.check_rules] over the rules still to
    visit, with the [violations] list accumulated so far. *)
Fixpoint check_loop (now : string) (ctx : Context) (todo : list RiskRule)
    (acc : list Violation) : Outcome :=
  match todo with
  | [] => mkOutcome [] acc []
  | r :: todo' =>
      if enabled r then
        match check now ctx r with
        | (r', Ok is_violated) =>
            let acc' :=
              if is_violated then acc ++ get_violations r' else acc in
            let o := check_loop now ctx todo' acc' in
            mkOutcome (r' :: rules_after o) (returned o) (caught o)
        | (r', Raise e) =>
            let o := check_loop now ctx todo' acc in
            mkOutcome (r' :: rules_after o) (returned o)
              ((name r', e) :: caught o)
        end
      else
        let o := check_loop now ctx todo' acc in
        mkOutcome (r :: rules_after o) (returned o) (caught o)
  end.

(** [RiskRulesEngine.check_rules]: the engine afterwards, the list
    returned, and the errors caught. *)
Definition check_rules (now : string) (ctx : Context) (e : RiskRulesEngine)
    : RiskRulesEngine * list Violation * list (string * exn) :=
  if negb (engine_enabled e) then (e, [], [])
  else
    let o := check_loop now ctx (rules e) [] in
    (mkEngine (rules_after o) (engine_enabled e), returned o, caught o).

(** [RiskRulesEngine.get_all_violations] *)
Definition get_all_violations (e : RiskRulesEngine) : list Violation :=
  flat_map get_violations (rules e).

(** What the engine does with one rule, whatever the other rules do. *)
Definition rule_after (now : string) (ctx : Context) (r : RiskRule)
      : RiskRule :=
  if enabled r then (check now ctx r).1 else r.

Definition rule_returned (now : string) (ctx : Context) (r : RiskRule)
      : list Violation :=
  if enabled r then
    match check now ctx r with
    | (r', Ok true) => get_violations r'
    | _ => []
    end
  else [].

Definition rule_caught (now : string) (ctx : Context) (r : RiskRule)
      : list (string * exn) :=
  if enabled r then
    match check now ctx r with
    | (r', Raise e) => [(name r', e)]
    | _ => []
    end
  else [].

(** The violations recorded between two states of the same rules: each
    rule only ever appends to its violation list. *)
Definition newly_recorded (before after : list RiskRule)
    : list Violation :=
  flat_map (λ p, drop (length (violations p.1)) (violations p.2))
    (zip before after).
End Model.

Arguments Context F : clear implicits.
Arguments Violation F : clear implicits.
Arguments RiskRule F : clear implicits.
Arguments RiskRulesEngine F : clear implicits.
Arguments Outcome F : clear implicits.

End Risk.

(** ** Order management: queries, the execution handler and the
       transitions of a manager *)

Module OrderQueries.
Import OrderManagement.

(** [s.endswith(suffix)] *)
Definition ends_with (suffix s : string) : bool :=
  (String.length suffix <=? String.length s)%nat &&
  String.eqb
    (String.substring (String.length s - String.length suffix)
       (String.length suffix) s)
    suffix.

Definition side_eqb (a b : OrderSide) : bool :=
  match a, b with BUY, BUY | SELL, SELL => true | _, _ => false end.

(** The id [create_order] gives the order numbered [n]:
    [f"ORDER_{n:06d}"]. *)
Definition order_id (n : nat) : string :=
  "ORDER_" +:+ zero_pad 6 (pretty n).

Section Model.
Context {F : Type} `{Arith F}.

(** [sum(...)] over floats: accumulation from [0], left to right. *)
Definition py_sum (l : list F) : F := foldl fadd fzero l.

(** [OrderManager.get_active_orders]: the objects the active dict holds
    (in key order here; the properties below concern membership). *)
Definition get_active_orders (m : OrderManager F) : list (Order F) :=
  omap (λ k, orders m !! k) (elements (active_orders m)).

(** [OrderManager._get_avg_cost] *)
Definition _get_avg_cost (sym oid : string) : F := fzero.

(** The dict [get_portfolio_summary] returns. *)
Record Summary : Type := mkSummary {
  summary_active_orders : nat;
  summary_total_orders : nat;
  summary_total_fills : nat;
  summary_realized_pnl : F;
  summary_total_fees : F
}.

(** The term of a fill in the realized P&L of the summary. *)
Definition fill_pnl (f : Fill F) : F :=
  match fill_side f with
  | BUY =>
      fmul (fill_quantity f)
        (fsub (fill_price f) (_get_avg_cost (fill_symbol f) (fill_order_id f)))
  | SELL =>
      fmul (fill_quantity f)
        (fsub (_get_avg_cost (fill_symbol f) (fill_order_id f)) (fill_price f))
  end.

(** [OrderManager.get_portfolio_summary] *)
Definition get_portfolio_summary (m : OrderManager F) : Summary :=
  mkSummary (size (active_orders m)) (size (orders m)) (length (fills m))
    (py_sum (fill_pnl <$> fills m))
    (py_sum (fee <$> fills m)).

(** *** [ExecutionHandler] *)

(** One entry of the ['fills'] list of an adapter's reply; [fd_time] is
    the clock reading when the fill is processed. *)
Record FillData : Type := mkFillData {
  fd_quantity : F;
  fd_price : F;
  fd_fee : option F;
  fd_time : string
}.

(** What [_submit_to_exchange] hands back: a reply with a true
    ['success'] and its fills, or a reply without success (which is also
    what an adapter that raises is turned into). *)
Inductive Reply : Type :=
| Accepted (reported : list FillData)
| Refused.

(** [ExecutionHandler._get_exchange_for_symbol] *)
Definition _get_exchange_for_symbol (sym : string) : string :=
  if ends_with "-USDT" sym || ends_with "-USD" sym then "okx" else "alpaca".

(** The loop over the reported fills in [execute_order]; an exception of
    [process_fill] leaves the [try] block. *)
Fixpoint process_reported (oid : string) (reported : list FillData)
    : M F unit :=
  match reported with
  | [] => ret tt
  | fd :: rest =>
      process_fill (fd_time fd) oid (fd_quantity fd) (fd_price fd)
        (default fzero (fd_fee fd)) ;;;
      process_reported oid rest
  end.

(** [ExecutionHandler.execute_order]: [adapters] are the names of the
    registered adapters and [reply] is what the adapter concerned
    answers.  An exception inside the [try] block is caught: the order
    is rejected and [False] returned. *)
Definition execute_order (adapters : gset string) (reply : Reply)
    (order : Order F) : M F bool :=
  let exchange_name := _get_exchange_for_symbol (symbol order) in
  if negb (bool_decide (exchange_name ∈ adapters)) then ret false
  else
    match reply with
    | Accepted reported =>
        λ m,
          match process_reported (id order) reported m with
          | (Ok _, m', tr) => (Ok true, m', tr)
          | (Raise _, m', tr) =>
              preceded_by tr
                ((_update_order_status (id order) REJECTED ;;; ret false) m')
          end
    | Refused => _update_order_status (id order) REJECTED ;;; ret false
    end.

(** *** Transitions *)

(** The calls of a client: all but the status write the execution
    handler does on its own. *)
Definition is_client_call (c : Call (F := F)) : bool :=
  match c with UpdateStatus _ _ => false | _ => true end.

(** The managers reached from a fresh one by client calls only. *)
Inductive client_reachable : OrderManager F → Prop :=
| client_init : client_reachable init
| client_step c m :
    is_client_call c = true → client_reachable m →
    client_reachable (after c m).

(** What [modify_order] writes to the order. *)
Definition modified (qty px : option F) (o : Order F) : Order F :=
  let o1 := match qty with Some q => set_quantity q o | None => o end in
  match px with Some p => set_price (Some p) o1 | None => o1 end.

(** The order after a fill that raised: only its filled quantity was
    written. *)
Definition half_filled (o : Order F) (delta : F) : Order F :=
  set_filled_quantity (fadd (filled_quantity o) delta) o.

(** The steps a manager can take, one for each path through a call;
    [client] tells whether the step can be taken by a client call. *)
Inductive transition (m : OrderManager F) : bool → OrderManager F → Prop :=
| t_none client : transition m client m
| t_create client now sym sd ty qty px spx tif :
    transition m client
      (mkOrderManager
         (<[next_id m := created now sym sd ty qty px spx tif m]> (orders m))
         (fills m) ({[next_id m]} ∪ active_orders m) (S (order_counter m))
         (on_order_status_change m) (on_fill m) (on_error m))
| t_cancel client oid o :
    oid ∈ active_orders m → orders m !! oid = Some o →
    is_terminal (status o) = false →
    transition m client
      (mkOrderManager (<[oid := set_status CANCELLED o]> (orders m))
         (fills m) (active_orders m ∖ {[oid]}) (order_counter m)
         (on_order_status_change m) (on_fill m) (on_error m))
| t_modify client oid o qty px :
    oid ∈ active_orders m → orders m !! oid = Some o →
    is_active o = true →
    transition m client
      (mkOrderManager (<[oid := modified qty px o]> (orders m))
         (fills m) (active_orders m) (order_counter m)
         (on_order_status_change m) (on_fill m) (on_error m))
| t_fill client now oid o q p fe :
    orders m !! oid = Some o → is_active o = true →
    fleb (py_min q (unfilled_quantity o)) fzero = false →
    feqb (fadd (filled_quantity o) (py_min q (unfilled_quantity o))) fzero
      = false →
    transition m client
      (mkOrderManager
         (<[oid := after_fill o (py_min q (unfilled_quantity o)) p]> (orders m))
         (fills m ++
            [new_fill oid (symbol o) (side o)
               (py_min q (unfilled_quantity o)) p now fe])
         (if fgeb (fadd (filled_quantity o) (py_min q (unfilled_quantity o)))
               (quantity o)
          then active_orders m ∖ {[oid]} else active_orders m)
         (order_counter m) (on_order_status_change m) (on_fill m) (on_error m))
| t_fill_raise client oid o q :
    orders m !! oid = Some o → is_active o = true →
    fleb (py_min q (unfilled_quantity o)) fzero = false →
    feqb (fadd (filled_quantity o) (py_min q (unfilled_quantity o))) fzero
      = true →
    transition m client
      (mkOrderManager
         (<[oid := half_filled o (py_min q (unfilled_quantity o))]> (orders m))
         (fills m) (active_orders m) (order_counter m)
         (on_order_status_change m) (on_fill m) (on_error m))
| t_status oid o s :
    orders m !! oid = Some o →
    transition m false
      (mkOrderManager (<[oid := set_status s o]> (orders m))
         (fills m) (active_orders m) (order_counter m)
         (on_order_status_change m) (on_fill m) (on_error m))
| t_register client cbs1 cbs2 cbs3 :
    transition m client
      (mkOrderManager (orders m) (fills m) (active_orders m)
         (order_counter m) cbs1 cbs2 cbs3).

(** The lifecycle: the status changes a client call may make. *)
Definition lifecycle_edge (s s' : OrderStatus) : bool :=
  match s, s' with
  | NEW, (NEW | PARTIALLY_FILLED | FILLED | CANCELLED) => true
  | PARTIALLY_FILLED, (PARTIALLY_FILLED | FILLED | CANCELLED) => true
  | FILLED, FILLED | CANCELLED, CANCELLED => true
  | _, _ => false
  end.

(** The stored ids are those of the orders numbered 1 to
    [order_counter]. *)
Definition ids_numbered (m : OrderManager F) : Prop :=
  ∀ k, is_Some (orders m !! k) ↔
       ∃ c, 1 ≤ c ≤ order_counter m ∧ k = order_id c.

(** The active dict holds the stored orders whose status is active. *)
Definition active_consistent (m : OrderManager F) : Prop :=
  ∀ k, k ∈ active_orders m ↔
       ∃ o, orders m !! k = Some o ∧ is_active o = true.

(** The statuses an order can have under client calls. *)
Definition client_status (s : OrderStatus) : bool :=
  match s with
  | NEW | PARTIALLY_FILLED | FILLED | CANCELLED => true
  | _ => false
  end.

Definition statuses_ok (m : OrderManager F) : Prop :=
  ∀ k o, orders m !! k = Some o → client_status (status o) = true.
End Model.

Arguments Summary F : clear implicits.
Arguments FillData F : clear implicits.
Arguments Reply F : clear implicits.

(** In exact arithmetic: the quantity and the value the recorded fills
    of an order add up to. *)
Definition filled_by_fills (m : OrderManager Q) (oid : string) : Q :=
  py_sum (fill_quantity <$> get_fills_for_order m oid).

Definition value_by_fills (m : OrderManager Q) (oid : string) : Q :=
  py_sum (total_value <$> get_fills_for_order m oid).

(** The fill log agrees with the orders: every fill belongs to a stored
    order and carries its own value, and the fills of an order add up to
    its filled quantity and to its average fill price times that. *)
Definition fills_consistent (m : OrderManager Q) : Prop :=
  (∀ f, f ∈ fills m →
        is_Some (orders m !! fill_order_id f) ∧
        total_value f = (fill_price f * fill_quantity f)%Q) ∧
  (∀ k o, orders m !! k = Some o →
          (filled_by_fills m k == filled_quantity o)%Q ∧
          (value_by_fills m k
           == average_fill_price o * filled_quantity o)%Q).

(** The value bought and the value sold according to the fill log. *)
Definition traded_value (sd : OrderSide) (m : OrderManager Q) : Q :=
  py_sum ((λ f, if side_eqb (fill_side f) sd then total_value f else 0%Q)
            <$> fills m).

End OrderQueries.

(** ** The execution engine and the cost estimate
       ([src/trading/execution_algorithms.py]) *)

Module Engine.
Import OrderManagement Execution.

(** [ExecutionAlgorithm] and the [value] of its members. *)
Inductive ExecutionAlgorithm : Set :=
| ALGO_VWAP | ALGO_TWAP | ALGO_PARTICIPATE | ALGO_MIN_SLIPPAGE | ALGO_ICEBERG.

Definition algorithm_value (a : ExecutionAlgorithm) : string :=
  match a with
  | ALGO_VWAP => "vwap"
  | ALGO_TWAP => "twap"
  | ALGO_PARTICIPATE => "participate"
  | ALGO_MIN_SLIPPAGE => "min_slippage"
  | ALGO_ICEBERG => "iceberg"
  end.

Section Model.
Context {F : Type} `{Arith F}.

(** A value of the [parameters] dict of a strategy. *)
Inductive ParamValue : Type :=
| IntParam (z : Z)
| FloatParam (x : F).

(** The attributes of a strategy object that [execute] reads. *)
Inductive StrategyFields : Type :=
| TWAP (s : TWAPStrategy)
| VWAP (s : VWAPStrategy)
| Participate (s : ParticipateStrategy F)
| MinSlippage (s : MinSlippageStrategy)
| Iceberg (s : IcebergStrategy F).

(** The algorithm a strategy object implements. *)
Definition algorithm_of (flds : StrategyFields) : ExecutionAlgorithm :=
  match flds with
  | TWAP _ => ALGO_TWAP
  | VWAP _ => ALGO_VWAP
  | Participate _ => ALGO_PARTICIPATE
  | MinSlippage _ => ALGO_MIN_SLIPPAGE
  | Iceberg _ => ALGO_ICEBERG
  end.

(** What a callable stored as the attribute [execute] does when it is
    called with the order and the market data: it returns slices
    (pairs of numbers; a price may be nan) or raises; [None] when it
    does not return.  The callable reads its
    arguments only: it does not reach the engine or its strategies. *)
Definition Executor : Type :=
  Order F → list (Bar F) → option (result (list (F * option F))).

(** A strategy object: [name], the attributes [execute] reads, the
    [parameters] dict its constructor filled in, and the instance
    attribute [execute] once one has been set, which then hides the
    method of the class. *)
Record Strategy : Type := mkStrategy {
  name : string;
  fields : StrategyFields;
  parameters : list (string * ParamValue);
  execute_attribute : option Executor
}.

(** The constructors [TWAPStrategy(...)], [VWAPStrategy(...)], ... *)
Definition new_twap (time_window slice_interval : Z) : Strategy :=
  mkStrategy "TWAP" (TWAP (mkTWAP time_window slice_interval))
    [("time_window", IntParam time_window);
     ("slice_interval", IntParam slice_interval)]
    None.

Definition new_vwap (lookback : Z) : Strategy :=
  mkStrategy "VWAP" (VWAP (mkVWAP lookback))
    [("lookback_days", IntParam lookback)] None.

Definition new_participate (rate : F) : Strategy :=
  mkStrategy "Participate" (Participate (mkParticipate rate))
    [("participation_rate", FloatParam rate)] None.

Definition new_min_slippage (lookback : Z) : Strategy :=
  mkStrategy "MinSlippage" (MinSlippage (mkMinSlippage lookback))
    [("volatility_lookback", IntParam lookback)] None.

Definition new_iceberg (display : F) (refresh : Z) : Strategy :=
  mkStrategy "Iceberg" (Iceberg (mkIceberg display refresh))
    [("display_size", FloatParam display); ("refresh_time", IntParam refresh)]
    None.

(** A keyword argument of [execute_order_with_strategy]: a number of
    the attribute's own type for one of the numeric attributes, a
    string for [name], a dict of numbers for [parameters], a callable
    for [execute]; or [other keyword], which is any other keyword, and
    also one of the keywords above when its value is of another kind. *)
Inductive Override : Type :=
| time_window_minutes_ (z : Z)
| slice_interval_minutes_ (z : Z)
| lookback_days_ (z : Z)
| participation_rate_ (x : F)
| volatility_lookback_ (z : Z)
| display_size_ (x : F)
| refresh_time_seconds_ (z : Z)
| name_ (s : string)
| parameters_ (d : list (string * ParamValue))
| execute_ (f : Executor)
| other (keyword : string).

(** The names [hasattr(strategy, ...)] finds among the attributes the
    constructors set and the method of the class. *)
Definition attribute_names (flds : StrategyFields) : list string :=
  ["name"; "parameters"; "execute"] ++
  match flds with
  | TWAP _ => ["time_window_minutes"; "slice_interval_minutes"]
  | VWAP _ => ["lookback_days"]
  | Participate _ => ["participation_rate"]
  | MinSlippage _ => ["volatility_lookback"]
  | Iceberg _ => ["display_size"; "refresh_time_seconds"]
  end.

(** The keywords the model gives no meaning to: an attribute of the
    strategy that would get a value of a kind the model has no type
    for, a name starting with two underscores, which may be one of the
    attributes every object has, and the names of the parameters of
    [execute_order_with_strategy], which never reach [kwargs]. *)
Definition unmodelled (flds : StrategyFields) (keyword : string) : bool :=
  bool_decide (keyword ∈ attribute_names flds)
  || String.prefix "__" keyword
  || bool_decide
       (keyword ∈ ["self"; "order"; "strategy_type"; "market_data"]).

(** [if hasattr(strategy, param): setattr(strategy, param, value)];
    [None] for a keyword the model gives no meaning to. *)
Definition set_attribute (s : Strategy) (kw : Override) : option Strategy :=
  let with_fields flds :=
    Some (mkStrategy (name s) flds (parameters s) (execute_attribute s)) in
  match kw, fields s with
  | time_window_minutes_ z, TWAP t =>
      with_fields (TWAP (mkTWAP z (slice_interval_minutes t)))
  | slice_interval_minutes_ z, TWAP t =>
      with_fields (TWAP (mkTWAP (time_window_minutes t) z))
  | lookback_days_ z, VWAP _ => with_fields (VWAP (mkVWAP z))
  | participation_rate_ x, Participate _ =>
      with_fields (Participate (mkParticipate x))
  | volatility_lookback_ z, MinSlippage _ =>
      with_fields (MinSlippage (mkMinSlippage z))
  | display_size_ x, Iceberg t =>
      with_fields (Iceberg (mkIceberg x (refresh_time_seconds t)))
  | refresh_time_seconds_ z, Iceberg t =>
      with_fields (Iceberg (mkIceberg (display_size t) z))
  | name_ v, _ =>
      Some (mkStrategy v (fields s) (parameters s) (execute_attribute s))
  | parameters_ d, _ =>
      Some (mkStrategy (name s) (fields s) d (execute_attribute s))
  | execute_ f, _ =>
      Some (mkStrategy (name s) (fields s) (parameters s) (Some f))
  | other keyword, flds => if unmodelled flds keyword then None else Some s
  | _, _ => Some s
  end.

(** The loop over [kwargs.items()]. *)
Definition apply_kwargs (kwargs : list Override) (s : Strategy)
    : option Strategy :=
  foldl (λ acc kw, acc ≫= λ s, set_attribute s kw) (Some s) kwargs.

(** Whether a keyword argument is a dict for [parameters]. *)
Definition is_parameters (kw : Override) : bool :=
  match kw with parameters_ _ => true | _ => false end.

(** An entry of [execution_history]; [cancelled] is the key
    [cancel_execution] adds. *)
Record ExecutionRecord : Type := mkExecutionRecord {
  parent_order_id : string;
  strategy : string;
  record_timestamp : string;
  child_orders_count : nat;
  total_quantity : F;
  strategy_params : list (string * ParamValue);
  cancelled : bool
}.

(** [ExecutionEngine]; nothing writes [active_executions]. *)
Record ExecutionEngine : Type := mkExecutionEngine {
  strategies : gmap string Strategy;
  execution_history : list ExecutionRecord
}.

(** [ExecutionEngine.__init__] *)
Definition new_engine : ExecutionEngine :=
  mkExecutionEngine
    (<["twap" := new_twap 60 5]>
       (<["vwap" := new_vwap 30]>
          (<["participate" := new_participate (lit 10 100)]>
             (<["min_slippage" := new_min_slippage 20]>
                (<["iceberg" := new_iceberg (of_Z 100) 30]> ∅)))))
    [].

(** [price > 0] for a price that may be nan. *)
Definition positive_price (p : option F) : bool :=
  match p with Some x => fgtb x fzero | None => false end.

(** The child order made from the slice numbered [i]; [now] is the
    clock read by [Order.__post_init__]. *)
Definition child_order (order : Order F) (now : string) (i : nat)
    (slice : F * option F) : Order F :=
  let '(quantity_, price_) := slice in
  mkOrder (id order +:+ "_CHILD_" +:+ zero_pad 3 (pretty i))
    (symbol order) (side order)
    (if positive_price price_ then LIMIT else MARKET)
    quantity_
    (if positive_price price_ then price_ else None)
    None fzero fzero PENDING_NEW now None "GTC" None.

Section Run.
Variable annualized_volatility : list F → option F.

(** The method [execute] of the class of the strategy; the while loop
    of Participate runs on [fuel]. *)
Definition class_execute (fuel : nat) (flds : StrategyFields)
    (order : Order F) (market_data : list (Bar F))
    : option (result (list (F * option F))) :=
  let priced (r : result (list (F * F))) :=
    result_bind r (λ l, Ok (prod_map (λ q, q) Some <$> l)) in
  match flds with
  | TWAP s => Some (priced (twap_execute s order market_data))
  | VWAP s => Some (Ok (vwap_execute s order market_data))
  | Participate s =>
      priced <$> participate_execute fuel s order market_data
  | MinSlippage s =>
      Some (priced
              (min_slippage_execute annualized_volatility s order market_data))
  | Iceberg s => Some (priced (iceberg_execute s order market_data))
  end.

(** [strategy.execute(order, market_data)]: the instance attribute when
    there is one, the method of the class otherwise. *)
Definition run_strategy (fuel : nat) (s : Strategy)
    (order : Order F) (market_data : list (Bar F))
    : option (result (list (F * option F))) :=
  match execute_attribute s with
  | Some f => f order market_data
  | None => class_execute fuel (fields s) order market_data
  end.

(** [ExecutionEngine.execute_order_with_strategy]; [clock i] is the
    [i]-th reading of the clock during the call.  The result is [None]
    when the model does not describe the call: a keyword has no
    meaning in it, the fuel does not suffice, or a callable set as
    [execute] does not return.  An exception leaves the engine as it
    is when raised. *)
Definition execute_order_with_strategy (fuel : nat) (clock : nat → string)
    (order : Order F) (strategy_type : ExecutionAlgorithm)
    (market_data : list (Bar F)) (kwargs : list Override)
    (e : ExecutionEngine)
    : option (result (list (Order F)) * ExecutionEngine) :=
  let strategy_name := algorithm_value strategy_type in
  match strategies e !! strategy_name with
  | None => Some (Raise ValueError, e)
  | Some strategy_ =>
      strategy_ ← apply_kwargs kwargs strategy_;
      let e1 :=
        mkExecutionEngine (<[strategy_name := strategy_]> (strategies e))
          (execution_history e) in
      match run_strategy fuel strategy_ order market_data with
      | None => None
      | Some (Raise exc) => Some (Raise exc, e1)
      | Some (Ok child_orders_data) =>
          let child_orders :=
            imap (λ i slice, child_order order (clock i) i slice)
              child_orders_data in
          let execution_record :=
            mkExecutionRecord (id order) strategy_name
              (clock (length child_orders)) (length child_orders)
              (quantity order) (parameters strategy_) false in
          Some (Ok child_orders,
                mkExecutionEngine (strategies e1)
                  (execution_history e1 ++ [execution_record]))
      end
  end.
End Run.

(** [ExecutionEngine.get_strategy] *)
Definition get_strategy (e : ExecutionEngine)
    (strategy_type : ExecutionAlgorithm) : option Strategy :=
  strategies e !! algorithm_value strategy_type.

Definition mark_cancelled (r : ExecutionRecord) : ExecutionRecord :=
  mkExecutionRecord (parent_order_id r) (strategy r) (record_timestamp r)
    (child_orders_count r) (total_quantity r) (strategy_params r) true.

(** The loop of [cancel_execution] over the history. *)
Fixpoint cancel_first (parent : string) (history : list ExecutionRecord)
    : bool * list ExecutionRecord :=
  match history with
  | [] => (false, [])
  | record :: rest =>
      if String.eqb (parent_order_id record) parent
      then (true, mark_cancelled record :: rest)
      else
        let '(found, rest') := cancel_first parent rest in
        (found, record :: rest')
  end.

(** [ExecutionEngine.cancel_execution] *)
Definition cancel_execution (parent : string) (e : ExecutionEngine)
    : bool * ExecutionEngine :=
  let '(found, history) := cancel_first parent (execution_history e) in
  (found, mkExecutionEngine (strategies e) history).

(** The dict [estimate_transaction_cost] returns; [current_price] is
    absent from the one for an empty frame.  [cost_percent] is a
    quotient of numpy floats: [None] stands for its nan or inf. *)
Record CostEstimate : Type := mkCostEstimate {
  expected_cost : F;
  cost_percent : option F;
  current_price : option F
}.

(** [estimate_transaction_cost] *)
Definition estimate_transaction_cost (order : Order F)
    (market_data : list (Bar F)) (bid_ask_spread : F) : result CostEstimate :=
  if bool_decide (length market_data = 0) then
    Ok (mkCostEstimate fzero (Some fzero) None)
  else
    let+ row := iloc_back market_data 0 in
    let current_price := close row in
    let expected_cost_per_share :=
      match order_type order with
      | MARKET => fmul bid_ask_spread current_price
      | _ => fmul (fmul bid_ask_spread current_price) (lit 5 10)
      end in
    let expected_cost := fmul expected_cost_per_share (quantity order) in
    let cost_percent :=
      (λ x, fmul x (of_Z 100))
        <$> np_div expected_cost (fmul current_price (quantity order)) in
    Ok (mkCostEstimate expected_cost cost_percent (Some current_price)).
End Model.

Arguments ParamValue F : clear implicits.
Arguments StrategyFields F : clear implicits.
Arguments Strategy F : clear implicits.
Arguments Override F : clear implicits.
Arguments ExecutionRecord F : clear implicits.
Arguments ExecutionEngine F : clear implicits.
Arguments CostEstimate F : clear implicits.
Arguments execute_order_with_strategy {F _} annualized_volatility fuel clock
  order strategy_type market_data kwargs e.
Arguments class_execute {F _} annualized_volatility fuel flds order
  market_data.
Arguments run_strategy {F _} annualized_volatility fuel s order market_data.
Arguments Executor F : clear implicits.

(** The engines reached from a fresh one by calls of
    [execute_order_with_strategy] that returned or raised, with keyword
    arguments among [allowed], and of [cancel_execution]. *)
Inductive engine_reachable {F : Type} `{Arith F}
    (annualized_volatility : list F → option F)
    (allowed : Override F → Prop)
    : ExecutionEngine F → Prop :=
| engine_new : engine_reachable annualized_volatility allowed new_engine
| engine_executed fuel clock order ty market_data kwargs e r e' :
    engine_reachable annualized_volatility allowed e →
    Forall allowed kwargs →
    execute_order_with_strategy annualized_volatility fuel clock order ty
      market_data kwargs e = Some (r, e') →
    engine_reachable annualized_volatility allowed e'
| engine_cancelled parent e :
    engine_reachable annualized_volatility allowed e →
    engine_reachable annualized_volatility allowed
      (cancel_execution parent e).2.

(** No keyword argument among [allowed] is a dict for [parameters]. *)
Definition keeps_parameters {F : Type} `{Arith F}
    (allowed : Override F → Prop) : Prop :=
  ∀ kw, allowed kw → is_parameters kw = false.

(** The [parameters] dict the strategy registered as [strategy_name] is
    built with. *)
Definition default_parameters {F : Type} `{Arith F} (strategy_name : string)
    : list (string * ParamValue F) :=
  default [] (parameters <$> strategies new_engine !! strategy_name).

End Engine.

(** ** Risk: the rest of the rules engine, position sizing and the
       monitor *)

(** *** [RiskRulesEngine] and the rules ([src/risk/risk_rules.py]) *)

Module RiskAdmin.
Import Portfolio Risk.

Section Model.
Context {F : Type} `{Arith F}.

Definition set_enabled (b : bool) (r : RiskRule F) : RiskRule F :=
  mkRule (name r) b (violations r) (kind r).

(** [MaxDailyLossRule.reset_day] *)
Definition reset_day (r : RiskRule F) : RiskRule F :=
  match kind r with
  | MaxDailyLossRule m _ _ =>
      clear_violations (with_kind (MaxDailyLossRule m fzero 0) r)
  | _ => r
  end.

(** [RiskRulesEngine.remove_rule] *)
Definition remove_rule (rule_name : string) (e : RiskRulesEngine F)
    : RiskRulesEngine F :=
  mkEngine (filter (λ r, name r ≠ rule_name) (rules e)) (engine_enabled e).

(** The loop of [RiskRulesEngine.get_rule]. *)
Fixpoint find_rule (rule_name : string) (rs : list (RiskRule F))
    : option (RiskRule F) :=
  match rs with
  | [] => None
  | r :: rs' =>
      if String.eqb (name r) rule_name then Some r
      else find_rule rule_name rs'
  end.

(** [RiskRulesEngine.get_rule] *)
Definition get_rule (e : RiskRulesEngine F) (rule_name : string)
    : option (RiskRule F) := find_rule rule_name (rules e).

(** [RiskRulesEngine.clear_all_violations] *)
Definition clear_all_violations (e : RiskRulesEngine F) : RiskRulesEngine F :=
  mkEngine (clear_violations <$> rules e) (engine_enabled e).

(** [RiskRulesEngine.enable_rules] *)
Definition enable_rules (e : RiskRulesEngine F) : RiskRulesEngine F :=
  mkEngine (set_enabled true <$> rules e) true.

(** [RiskRulesEngine.disable_rules] *)
Definition disable_rules (e : RiskRulesEngine F) : RiskRulesEngine F :=
  mkEngine (set_enabled false <$> rules e) false.

(** The value of [daily_pnl] after each of the checks of the contexts
    [ctxs], starting from [daily]. *)
Fixpoint daily_totals (daily : F) (ctxs : list (Context F)) : list F :=
  match ctxs with
  | [] => []
  | ctx :: rest =>
      let daily' :=
        match trade_pnl ctx with
        | Some pnl_ => fadd daily pnl_
        | None => daily
        end in
      daily' :: daily_totals daily' rest
  end.

(** The context [RiskMonitor.check_risk] builds
    ([src/risk/risk_monitor.py]): the portfolio value and the positions;
    no rule reads its timestamp. *)
Definition monitor_context (portfolio_value_ : F)
    (positions_ : list (Position F)) : Context F :=
  mkContext None None None (Some portfolio_value_) (Some positions_).

(** The rule after the checks of the contexts [ctxs], one after the
    other. *)
Definition check_all (now : string) (ctxs : list (Context F))
    (r : RiskRule F) : RiskRule F :=
  foldl (λ r ctx, (check now ctx r).1) r ctxs.

(** The engine after [check_rules] on the contexts [ctxs], one after
    the other. *)
Definition check_rules_all (now : string) (ctxs : list (Context F))
    (e : RiskRulesEngine F) : RiskRulesEngine F :=
  foldl (λ e ctx, (check_rules now ctx e).1.1) e ctxs.
End Model.
End RiskAdmin.

(** *** [PositionManager]: sizing, limits and valuation
        ([src/risk/position_manager.py]) *)

Module Sizing.
Import Portfolio Risk Execution OrderQueries.

Section Model.
Context {F : Type} `{Arith F}.

(** [PositionManager.calculate_position_size]; the symbol is not
    used. *)
Definition calculate_position_size (entry_price : F)
    (stop_loss_price risk_amount : option F) (pm : PositionManager F)
    : result Z :=
  let risk_amount :=
    default (fmul (current_capital pm) (max_risk_per_trade pm)) risk_amount in
  let+ shares :=
    match stop_loss_price with
    | Some stop =>
        if truthy stop && negb (feqb stop entry_price) then
          let risk_per_share := fabs (fsub entry_price stop) in
          if fgtb risk_per_share fzero
          then py_int (fdiv risk_amount risk_per_share)
          else Ok 0%Z
        else
          let+ ratio :=
            py_div (fmul (current_capital pm) (max_position_size pm))
              entry_price in
          py_int ratio
    | None =>
        let+ ratio :=
          py_div (fmul (current_capital pm) (max_position_size pm))
            entry_price in
        py_int ratio
    end in
  let shares := Z.max 1 shares in
  let max_position_value :=
    fmul (current_capital pm) (max_position_size pm) in
  let+ ratio := py_div max_position_value entry_price in
  let+ max_shares := py_int ratio in
  Ok (Z.min shares max_shares).

(** [PositionManager.get_portfolio_value]; [held] is the sequence
    [self.positions.values()] in the order the dict yields it. *)
Definition get_portfolio_value (held : list (Position F))
    (pm : PositionManager F) : F :=
  let total_exposure :=
    foldl (λ total position,
             let position_exposure :=
               if String.eqb (side_of position) "buy"
               then fmul (quantity position) (current_price position)
               else fmul (fabs (quantity position)) (current_price position) in
             fadd total position_exposure)
      fzero held in
  let cash :=
    fsub (current_capital pm)
      (py_sum ((λ pos, fmul (quantity pos) (avg_entry_price pos)) <$> held)) in
  fadd total_exposure cash.

(** [PositionManager.check_position_limits]; [held] as above, the
    symbol is not used. *)
Definition check_position_limits (held : list (Position F))
    (quantity_ price_ : F) (pm : PositionManager F) : bool :=
  let position_value := fmul quantity_ price_ in
  let max_position_value :=
    fmul (current_capital pm) (max_position_size pm) in
  if fgtb position_value max_position_value then false
  else
    let current_exposure :=
      py_sum ((λ pos, fmul (quantity pos) (current_price pos)) <$> held) in
    let total_exposure := fadd current_exposure position_value in
    let max_exposure := fmul (current_capital pm) (lit 5 10) in
    if fgtb total_exposure max_exposure then false else true.

(** [trade['profit_loss'] > 0]; an open trade has no such key. *)
Definition is_win (t : Trade F) : result bool :=
  match profit_loss t with
  | Some pl => Ok (fgtb pl fzero)
  | None => Raise KeyError
  end.

(** [sum(1 for trade in closed_trades if trade['profit_loss'] > 0)] *)
Fixpoint count_wins (closed_trades : list (Trade F)) : result nat :=
  match closed_trades with
  | [] => Ok 0
  | t :: rest =>
      let+ w := is_win t in
      let+ n := count_wins rest in
      Ok (if w then S n else n)
  end.

(** [PositionManager._calculate_win_rate] *)
Definition _calculate_win_rate (pm : PositionManager F) : result F :=
  let closed_trades :=
    filter (λ t, action t = "close") (trades pm) in
  if bool_decide (length closed_trades = 0) then Ok fzero
  else
    let+ wins := count_wins closed_trades in
    Ok (fmul (fdiv (of_Z (Z.of_nat wins))
                   (of_Z (Z.of_nat (length closed_trades))))
             (of_Z 100)).

(** The calls that change a position manager. *)
Inductive ManagerCall : Type :=
| OpenPosition (now sym side_ : string) (qty entry : F) (sl tp : option F)
| ClosePosition (now sym : string) (exit_price : F)
| UpdatePrice (sym : string) (px : F).

Definition manager_after (c : ManagerCall) (pm : PositionManager F)
    : PositionManager F :=
  match c with
  | OpenPosition now sym side_ qty entry sl tp =>
      (open_position now sym side_ qty entry sl tp pm).1
  | ClosePosition now sym exit_price =>
      (close_position now sym exit_price pm).1
  | UpdatePrice sym px => update_position_price sym px pm
  end.

(** The managers reached from a new one. *)
Inductive manager_reachable : PositionManager F → Prop :=
| manager_new capital max_size max_risk :
    manager_reachable (new_manager capital max_size max_risk)
| manager_call c pm :
    manager_reachable pm → manager_reachable (manager_after c pm).

(** The unrealized profit of a long position. *)
Definition unrealized (p : Position F) : F :=
  fmul (quantity p) (fsub (current_price p) (avg_entry_price p)).
End Model.
End Sizing.

(** ** Concrete scenarios *)

Module Scenarios.
Import OrderManagement.

Section Orders.
Context {F : Type} `{Arith F}.

(** A fresh manager on which a market buy order for 10 units is
    created. *)
Definition one_order : OrderManager F :=
  after (CreateOrder "t0" "AAPL" BUY MARKET (of_Z 10) None None "GTC") init.

(** ... then filled with 6 units at 100.0 ... *)
Definition first_fill : OrderManager F :=
  after (ProcessFill "t1" "ORDER_000001" (of_Z 6) (of_Z 100) fzero)
    one_order.

(** ... and with 4 units at 110.0. *)
Definition second_fill : OrderManager F :=
  after (ProcessFill "t2" "ORDER_000001" (of_Z 4) (of_Z 110) fzero)
    first_fill.

(** [first_fill] after [modify_order] has lowered the quantity of the
    order, of which 6 units are filled, to 5. *)
Definition shrunk : OrderManager F :=
  after (ModifyOrder "ORDER_000001" (Some (of_Z 5)) None) first_fill.

(** A fresh manager on which a market buy order for 0.9 units is
    created ... *)
Definition small_order : OrderManager F :=
  after (CreateOrder "t0" "AAPL" BUY MARKET (lit 9 10) None None "GTC") init.

(** ... then filled with 0.3 units and with 1.0 unit, which is more
    than what remains ... *)
Definition overfilled : OrderManager F :=
  after (ProcessFill "t2" "ORDER_000001" (of_Z 1) (of_Z 100) fzero)
    (after (ProcessFill "t1" "ORDER_000001" (lit 3 10) (of_Z 100) fzero)
       small_order).

(** ... or filled with 0.2 units and with 0.7 units, which is what
    remains in exact arithmetic. *)
Definition underfilled : OrderManager F :=
  after (ProcessFill "t2" "ORDER_000001" (lit 7 10) (of_Z 100) fzero)
    (after (ProcessFill "t1" "ORDER_000001" (lit 2 10) (of_Z 100) fzero)
       small_order).

(** The order [one_order] holds. *)
Definition the_order : Order F :=
  mkOrder "ORDER_000001" "AAPL" BUY MARKET (of_Z 10) None None fzero fzero
    NEW "t0" None "GTC" (Some "CLIENT_ORDER_000001").

(** The manager of [one_order] with a status observer [1] and a fill
    observer [2] registered. *)
Definition observed : OrderManager F :=
  after (RegisterCallback "fill" 2)
    (after (RegisterCallback "order_status" 1) one_order).
End Orders.

Section Slicing.
Import Execution.
Context {F : Type} `{Arith F}.

(** A parent buy order for [q] units. *)
Definition parent (q : F) : Order F :=
  mkOrder "PARENT" "AAPL" BUY MARKET q None None fzero fzero NEW "t0" None
    "GTC" None.

(** A market window of [n] identical bars closing at 100.0 on a volume
    of 50. *)
Definition flat_bar : Bar F :=
  mkBar "d" (of_Z 100) (of_Z 100) (of_Z 100) (of_Z 100) (of_Z 50).
Definition window (n : nat) : list (Bar F) := replicate n flat_bar.

(** A market window of one bar closing at 100.0 on a volume of [v]. *)
Definition one_bar (v : F) : list (Bar F) :=
  [mkBar "d" (of_Z 100) (of_Z 100) (of_Z 100) (of_Z 100) v].

(** [IcebergStrategy()] with its default parameters. *)
Definition iceberg_default : IcebergStrategy F := mkIceberg (of_Z 100) 30.

(** [ParticipateStrategy()] with its default rate [0.10]. *)
Definition participate_default : ParticipateStrategy F :=
  mkParticipate (lit 10 100).
End Slicing.

Section RiskRules.
Import Risk.
Context {F : Type} `{Arith F}.

(** A context holding only [portfolio_value]. *)
Definition valued (v : F) : Context F :=
  mkContext None None None (Some v) None.

(** A [MaxDrawdownRule] with a 10% threshold observing the portfolio
    values 100000, 95000 and 89000 in turn; each step is the rule after
    the check and what the check returned. *)
Definition drawdown_1 : RiskRule F * result bool :=
  check "t1" (valued (of_Z 100000)) (new_MaxDrawdownRule (of_Z 10)).
Definition drawdown_2 : RiskRule F * result bool :=
  check "t2" (valued (of_Z 95000)) drawdown_1.1.
Definition drawdown_3 : RiskRule F * result bool :=
  check "t3" (valued (of_Z 89000)) drawdown_2.1.

(** A [MaxDrawdownRule] with a 7% threshold observing the portfolio
    values 100000 and 93000, a drawdown of 7%. *)
Definition at_threshold_1 : RiskRule F * result bool :=
  check "t1" (valued (of_Z 100000)) (new_MaxDrawdownRule (of_Z 7)).
Definition at_threshold_2 : RiskRule F * result bool :=
  check "t2" (valued (of_Z 93000)) at_threshold_1.1.

(** A context holding a position size of 15000 for AAPL. *)
Definition oversized : Context F :=
  mkContext (Some (of_Z 15000)) (Some "AAPL") None None None.

(** An engine holding a [MaxPositionSizeRule] with maximum 10000, and the
    same engine behind a rule whose [check] is not implemented. *)
Definition size_engine : RiskRulesEngine F :=
  add_rule (new_MaxPositionSizeRule (of_Z 10000)) (mkEngine [] true).
Definition broken_engine : RiskRulesEngine F :=
  add_rule (new_MaxPositionSizeRule (of_Z 10000))
    (add_rule (mkRule "Broken" true [] AbstractRule) (mkEngine [] true)).
End RiskRules.

Section Positions.
Import Portfolio.
Context {F : Type} `{Arith F}.

(** [PositionManager()] with its default parameters, holding a long
    position of 10 units of AAPL entered at 150.0. *)
Definition long_aapl : PositionManager F :=
  (open_position "t0" "AAPL" "buy" (of_Z 10) (of_Z 150) None None
     (new_manager (of_Z 100000) (lit 2 10) (lit 2 100))).1.

(** The same with a short position. *)
Definition short_aapl : PositionManager F :=
  (open_position "t0" "AAPL" "sell" (of_Z 10) (of_Z 150) None None
     (new_manager (of_Z 100000) (lit 2 10) (lit 2 100))).1.
End Positions.
End Scenarios.

(** * Properties *)

(** ** Order management *)

Module OrderManagementSpec.
Import OrderManagement.

Section MonadLaws.
Context {F : Type} `{Arith F}.
Implicit Types (m : OrderManager F).

Lemma bind_get {B} (k : OrderManager F → M F B) m : bind get k m = k m m.
Proof. unfold bind, get. by destruct (k m m) as [[??]?]. Qed.

Lemma bind_ret {A B} (a : A) (k : A → M F B) m : bind (ret a) k m = k a m.
Proof. unfold bind, ret. by destruct (k a m) as [[??]?]. Qed.

Lemma bind_modify {B} f (k : unit → M F B) m :
  bind (modify f) k m = k tt (f m).
Proof. unfold bind, modify. by destruct (k tt (f m)) as [[??]?]. Qed.

Lemma bind_mutate {B} oid f (k : unit → M F B) m :
  bind (mutate oid f) k m = k tt (with_orders (alter f oid) m).
Proof. apply bind_modify. Qed.

Lemma bind_emit {B} l (k : unit → M F B) m :
  bind (emit l) k m = preceded_by l (k tt m).
Proof. unfold bind, emit, preceded_by. by destruct (k tt m) as [[??]?]. Qed.

Lemma bind_lift_ok {A B} (a : A) (k : A → M F B) m :
  bind (lift (Ok a)) k m = k a m.
Proof. unfold bind, lift. by destruct (k a m) as [[??]?]. Qed.

Lemma bind_lift_raise {A B} e (k : A → M F B) m :
  bind (lift (Raise e)) k m = (Raise e, m, []).
Proof. reflexivity. Qed.

Lemma bind_assoc {A B C} (c : M F A) (k : A → M F B) (k' : B → M F C) m :
  bind (bind c k) k' m = bind c (λ a, bind (k a) k') m.
Proof.
  unfold bind. destruct (c m) as [[[a|e] m1] t1]; [|done].
  destruct (k a m1) as [[[b|e] m2] t2]; [|done].
  destruct (k' b m2) as [[r m3] t3]. by rewrite (assoc_L (++)).
Qed.
End MonadLaws.

Ltac step :=
  first [ rewrite bind_get | rewrite bind_ret | rewrite bind_mutate
        | rewrite bind_modify | rewrite bind_emit | rewrite bind_lift_ok
        | rewrite bind_lift_raise ].

Section Generic.
Context {F : Type} `{Arith F}.
Implicit Types (m : OrderManager F) (o : Order F).

Lemma with_orders_id m : with_orders (λ os, os) m = m.
Proof. by destruct m. Qed.

Lemma alter_absent (f : Order F → Order F) (os : gmap string (Order F)) oid :
  os !! oid = None → alter f oid os = os.
Proof.
  intros Hn. apply map_eq. intros k. destruct (decide (oid = k)) as [->|Hne].
  - by rewrite lookup_alter_eq, Hn.
  - by rewrite lookup_alter_ne.
Qed.

Lemma alter_present (f : Order F → Order F) (os : gmap string (Order F)) oid o :
  os !! oid = Some o → alter f oid os = <[oid := f o]> os.
Proof.
  intros Ho. apply map_eq. intros k. destruct (decide (oid = k)) as [->|Hne].
  - by rewrite lookup_alter_eq, Ho, lookup_insert_eq.
  - by rewrite lookup_alter_ne, lookup_insert_ne.
Qed.

Lemma alter3_insert (f g h : Order F → Order F)
    (os : gmap string (Order F)) oid o :
  os !! oid = Some o →
  alter f oid (alter g oid (alter h oid os)) = <[oid := f (g (h o))]> os.
Proof.
  intros Ho. apply map_eq. intros k. destruct (decide (oid = k)) as [->|Hne].
  - by rewrite !lookup_alter_eq, Ho, lookup_insert_eq.
  - by rewrite !lookup_alter_ne, lookup_insert_ne.
Qed.

(** *** [_update_order_status] *)

Lemma update_status_some m oid o s :
  orders m !! oid = Some o →
  _update_order_status oid s m =
    (Ok tt, with_orders (alter (set_status s) oid) m,
     StatusApplied oid (status o) s ::
       ((λ cb, StatusCallback cb oid (status o) s)
          <$> on_order_status_change m)).
Proof.
  intros Ho. unfold _update_order_status. rewrite bind_get, Ho.
  rewrite bind_mutate, bind_emit. reflexivity.
Qed.

Lemma update_status_none m oid s :
  orders m !! oid = None → _update_order_status oid s m = (Ok tt, m, []).
Proof.
  intros Ho. unfold _update_order_status. by rewrite bind_get, Ho.
Qed.

(** In either case the store afterwards is the store with the status
    written under [oid], and nothing is raised. *)
Lemma update_status_state m oid s :
  (_update_order_status oid s m).1 =
    (Ok tt, with_orders (alter (set_status s) oid) m).
Proof.
  destruct (orders m !! oid) as [o|] eqn:Ho.
  - by rewrite (update_status_some _ _ _ _ Ho).
  - rewrite (update_status_none _ _ _ Ho). cbn. f_equal.
    unfold with_orders. rewrite (alter_absent _ _ _ Ho). by destruct m.
Qed.

(** *** [create_order] *)

Lemma create_order_eq now sym sd ty qty px spx tif m :
  create_order now sym sd ty qty px spx tif m =
    (Ok (created now sym sd ty qty px spx tif m),
     mkOrderManager
       (<[next_id m := created now sym sd ty qty px spx tif m]> (orders m))
       (fills m) ({[next_id m]} ∪ active_orders m) (S (order_counter m))
       (on_order_status_change m) (on_fill m) (on_error m),
     StatusApplied (next_id m) PENDING_NEW NEW ::
       ((λ cb, StatusCallback cb (next_id m) PENDING_NEW NEW)
          <$> on_order_status_change m)).
Proof.
  unfold create_order. rewrite bind_get. do 3 step. fold (next_id m).
  set (o0 := mkOrder _ _ _ _ _ _ _ _ _ PENDING_NEW _ _ _ _).
  set (m1 := with_active _ _).
  assert (Ho : orders m1 !! next_id m = Some o0).
  { subst m1. cbn. by rewrite lookup_insert_eq. }
  unfold bind at 1. rewrite (update_status_some _ _ _ _ Ho).
  rewrite bind_get. unfold ret. subst m1. cbn.
  rewrite lookup_alter_eq, lookup_insert_eq. cbn.
  unfold with_orders, with_active, with_counter. cbn.
  rewrite (alter_present _ _ _ o0) by apply lookup_insert_eq.
  rewrite insert_insert_eq, app_nil_r. reflexivity.
Qed.

(** *** [cancel_order] *)

Lemma cancel_order_inactive m oid :
  oid ∉ active_orders m → cancel_order oid m = (Ok false, m, []).
Proof.
  intros Hn. unfold cancel_order. rewrite bind_get.
  by rewrite bool_decide_eq_false_2.
Qed.

Lemma cancel_order_active m oid o :
  oid ∈ active_orders m → orders m !! oid = Some o →
  cancel_order oid m =
    match status o with
    | FILLED | CANCELLED | REJECTED => (Ok false, m, [])
    | _ =>
        (Ok true,
         mkOrderManager (<[oid := set_status CANCELLED o]> (orders m))
           (fills m) (active_orders m ∖ {[oid]}) (order_counter m)
           (on_order_status_change m) (on_fill m) (on_error m),
         StatusApplied oid (status o) CANCELLED ::
           ((λ cb, StatusCallback cb oid (status o) CANCELLED)
              <$> on_order_status_change m))
    end.
Proof.
  intros Ha Ho. unfold cancel_order. rewrite bind_get.
  rewrite bool_decide_eq_true_2 by done. cbn [negb].
  unfold active_lookup. rewrite bind_assoc, bind_get, Ho, bind_ret.
  destruct (status o) eqn:Hs; try reflexivity;
    unfold bind at 1; rewrite (update_status_some _ _ _ _ Ho);
    rewrite bind_modify; unfold ret, with_active, with_orders; cbn;
    rewrite (alter_present _ _ _ _ Ho), Hs, app_nil_r; reflexivity.
Qed.

(** *** [process_fill] *)

Lemma process_fill_failure now oid q p fe m :
  (orders m !! oid = None ∨
   ∃ o, orders m !! oid = Some o ∧
        (is_active o = false ∨
         fleb (py_min q (unfilled_quantity o)) fzero = true)) →
  process_fill now oid q p fe m = (Ok None, m, []).
Proof.
  intros [Hn | (o & Ho & [Ha | Hq])]; unfold process_fill; rewrite bind_get.
  - by rewrite Hn.
  - by rewrite Ho, Ha.
  - rewrite Ho. destruct (is_active o); [|done]. cbn [negb]. by rewrite Hq.
Qed.

Lemma process_fill_success now oid q p fe m o :
  orders m !! oid = Some o → is_active o = true →
  let delta := py_min q (unfilled_quantity o) in
  let filled := fadd (filled_quantity o) delta in
  let fill := new_fill oid (symbol o) (side o) delta p now fe in
  let new_status :=
    if fgeb filled (quantity o) then FILLED else PARTIALLY_FILLED in
  fleb delta fzero = false →
  feqb filled fzero = false →
  process_fill now oid q p fe m =
    (Ok (Some fill),
     mkOrderManager (<[oid := after_fill o delta p]> (orders m))
       (fills m ++ [fill])
       (if fgeb filled (quantity o) then active_orders m ∖ {[oid]}
        else active_orders m)
       (order_counter m) (on_order_status_change m) (on_fill m) (on_error m),
     [FillRecorded fill; StatusApplied oid (status o) new_status] ++
     ((λ cb, StatusCallback cb oid (status o) new_status)
        <$> on_order_status_change m) ++
     ((λ cb, FillCallback cb fill) <$> on_fill m)).
Proof.
  intros Ho Ha delta filled fill new_status Hd Hz.
  unfold process_fill. rewrite bind_get, Ho, Ha. cbn [negb].
  fold delta. rewrite Hd. fold filled.
  rewrite bind_mutate. unfold py_div.
  rewrite Hz, bind_lift_ok, bind_mutate, bind_modify, bind_emit.
  fold fill. set (avg := fdiv _ filled). set (m2 := with_fills _ _).
  assert (Ho2 : orders m2 !! oid =
            Some (set_average_fill_price avg (set_filled_quantity filled o))).
  { subst m2. cbn. by rewrite !lookup_alter_eq, Ho. }
  unfold after_fill. fold filled avg. subst new_status.
  destruct (fgeb filled (quantity o)).
  - rewrite bind_assoc. unfold bind at 1.
    rewrite (update_status_some _ _ _ _ Ho2), bind_modify, bind_emit.
    unfold preceded_by, ret. subst m2.
    unfold with_active, with_orders, with_fills. cbn.
    rewrite alter3_insert with (o := o) by done.
    by rewrite app_nil_r.
  - unfold bind at 1. rewrite (update_status_some _ _ _ _ Ho2), bind_emit.
    unfold preceded_by, ret. subst m2.
    unfold with_active, with_orders, with_fills. cbn.
    rewrite alter3_insert with (o := o) by done.
    by rewrite app_nil_r.
Qed.

(** The one path on which [process_fill] raises: the division by a
    filled quantity that is zero after the fill. *)
Lemma process_fill_raise now oid q p fe m o :
  orders m !! oid = Some o → is_active o = true →
  let delta := py_min q (unfilled_quantity o) in
  let filled := fadd (filled_quantity o) delta in
  fleb delta fzero = false →
  feqb filled fzero = true →
  process_fill now oid q p fe m =
    (Raise ZeroDivisionError,
     with_orders (alter (set_filled_quantity filled) oid) m, []).
Proof.
  intros Ho Ha delta filled Hd Hz.
  unfold process_fill. rewrite bind_get, Ho, Ha. cbn [negb].
  fold delta. rewrite Hd. fold filled.
  rewrite bind_mutate. unfold py_div. by rewrite Hz, bind_lift_raise.
Qed.
End Generic.


Section Orders.
Context {F : Type} `{Arith F}.
Implicit Types (m : OrderManager F) (o : Order F).

Lemma all_before_app (P Q : Event F → bool) (l1 l2 : list (Event F)) :
  (∀ b, b ∈ l1 → Q b = false) → (∀ a, a ∈ l2 → P a = false) →
  all_before P Q (l1 ++ l2).
Proof.
  intros H1 H2 i j a b Hi Hj HP HQ.
  assert (i < length l1).
  { destruct (decide (i < length l1)) as [|Hge]; [done|].
    rewrite lookup_app_r in Hi by lia.
    apply list_elem_of_lookup_2, H2 in Hi. congruence. }
  assert (length l1 ≤ j).
  { destruct (decide (length l1 ≤ j)) as [|Hlt]; [done|].
    rewrite lookup_app_l in Hj by lia.
    apply list_elem_of_lookup_2, H1 in Hj. congruence. }
  lia.
Qed.

(** C9: on each failure path of process_fill (unknown order id, order
    not active, clamped fill quantity at most zero) the call returns
    None, the whole manager state is the state before the call (fills,
    every order, the active set) and no event is emitted, so no
    observer callback fires. *)
Theorem process_fill_failure_leaves_state now oid q p fe m :
  (orders m !! oid = None ∨
   ∃ o, orders m !! oid = Some o ∧
        (is_active o = false ∨
         fleb (py_min q (unfilled_quantity o)) fzero = true)) →
  process_fill now oid q p fe m = (Ok None, m, []).
Proof. apply process_fill_failure. Qed.

(** C3, as the code has it: create_order validates nothing.  For every
    intent it returns a new order in status NEW carrying the requested
    symbol, side, type, quantity and prices, with nothing filled, whose
    id is ORDER_ followed by the incremented counter in at least six
    digits; the order is registered in the order store and in the
    active set under that id, the other orders, the active set and the
    fills stay as they are, and the counter goes up by one. *)
Theorem create_order_always_registers now sym sd ty qty px spx tif m :
  ∃ o m' tr,
    create_order now sym sd ty qty px spx tif m = (Ok o, m', tr) ∧
    quantity o = qty ∧ price o = px ∧ stop_price o = spx ∧
    order_type o = ty ∧ status o = NEW ∧
    orders m' !! id o = Some o ∧ id o ∈ active_orders m' ∧
    order_counter m' = S (order_counter m) ∧
    id o = "ORDER_" +:+ zero_pad 6 (pretty (S (order_counter m))) ∧
    symbol o = sym ∧ side o = sd ∧ filled_quantity o = fzero ∧
    orders m' = <[id o := o]> (orders m) ∧
    active_orders m' = {[id o]} ∪ active_orders m ∧
    fills m' = fills m.
Proof.
  eexists _, _, _. split; [apply create_order_eq|]. cbn.
  repeat split; [by rewrite lookup_insert_eq|].
  apply elem_of_union_l, elem_of_singleton. reflexivity.
Qed.

(** C8, as the code has it: on every successful process_fill the Fill
    record is appended first, then the status update is applied and the
    status-change event is delivered to the status observers, and only
    then the fill event is delivered to the fill observers. *)
Theorem process_fill_event_order now oid q p fe m fill m' tr :
  process_fill now oid q p fe m = (Ok (Some fill), m', tr) →
  ∃ old new,
    tr = [FillRecorded fill; StatusApplied oid old new] ++
         ((λ cb, StatusCallback cb oid old new)
            <$> on_order_status_change m) ++
         ((λ cb, FillCallback cb fill) <$> on_fill m) ∧
    all_before is_fill_recorded is_status_applied tr ∧
    all_before is_status_applied is_status_callback tr ∧
    all_before is_status_callback is_fill_callback tr.
Proof.
  intros Hrun.
  destruct (orders m !! oid) as [o|] eqn:Ho;
    [|rewrite process_fill_failure in Hrun by auto; congruence].
  destruct (is_active o) eqn:Ha;
    [|rewrite process_fill_failure in Hrun by eauto; congruence].
  destruct (fleb (py_min q (unfilled_quantity o)) fzero) eqn:Hd;
    [rewrite process_fill_failure in Hrun by eauto; congruence|].
  destruct (feqb (fadd (filled_quantity o) (py_min q (unfilled_quantity o)))
              fzero) eqn:Hz;
    [rewrite (process_fill_raise _ _ _ _ _ _ _ Ho Ha Hd Hz) in Hrun;
     congruence|].
  rewrite (process_fill_success _ _ _ _ _ _ _ Ho Ha Hd Hz) in Hrun.
  injection Hrun as <- <- <-.
  eexists _, _. split; [reflexivity|].
  set (f := new_fill _ _ _ _ _ _ _).
  set (old := status o). set (new := if fgeb _ _ then _ else _).
  assert (Hcb1 : ∀ a : Event F, a ∈ (λ cb, StatusCallback cb oid old new)
                          <$> on_order_status_change m →
                      is_status_callback a = true).
  { by intros a (cb & -> & _)%list_elem_of_fmap. }
  assert (Hcb2 : ∀ a : Event F, a ∈ (λ cb, FillCallback cb f) <$> on_fill m →
                      is_fill_callback a = true).
  { by intros a (cb & -> & _)%list_elem_of_fmap. }
  split; [|split].
  - apply (all_before_app _ _ [FillRecorded f]).
    + intros b Hb. apply list_elem_of_singleton in Hb. by subst b.
    + intros a Ha'. apply elem_of_cons in Ha' as [Ha'|Ha']; [by subst a|].
      apply elem_of_app in Ha' as [Ha'|Ha'];
        [apply Hcb1 in Ha'|apply Hcb2 in Ha']; by destruct a.
  - apply (all_before_app _ _ [FillRecorded f; StatusApplied oid old new]).
    + intros b Hb. apply elem_of_cons in Hb as [Hb|Hb]; [by subst b|].
      apply list_elem_of_singleton in Hb. by subst b.
    + intros a Ha'. apply elem_of_app in Ha' as [Ha'|Ha'];
        [apply Hcb1 in Ha'|apply Hcb2 in Ha']; by destruct a.
  - apply (all_before_app _ _
             ([FillRecorded f; StatusApplied oid old new] ++
              ((λ cb, StatusCallback cb oid old new)
                 <$> on_order_status_change m))).
    + intros b Hb. apply elem_of_app in Hb as [Hb|Hb].
      * apply elem_of_cons in Hb as [Hb|Hb]; [by subst b|].
        apply list_elem_of_singleton in Hb. by subst b.
      * apply Hcb1 in Hb. by destruct b.
    + intros a Ha'. apply Hcb2 in Ha'. by destruct a.
Qed.
End Orders.


Section Steps.
Context {F : Type} `{Arith F}.
Implicit Types (m : OrderManager F) (o : Order F).

Lemma bind_ret_tt_state {A} (c : M F A) m :
  (bind c (λ _, ret tt) m).1.2 = (c m).1.2.
Proof. unfold bind, ret. by destruct (c m) as [[[a|e] m1] t1]. Qed.

Lemma cancel_order_dangling m oid :
  oid ∈ active_orders m → orders m !! oid = None →
  cancel_order oid m = (Raise KeyError, m, []).
Proof.
  intros Ha Hn. unfold cancel_order. rewrite bind_get.
  rewrite bool_decide_eq_true_2 by done. cbn [negb].
  unfold active_lookup. by rewrite bind_assoc, bind_get, Hn.
Qed.

Lemma alter_id_orders (os : gmap string (Order F)) oid :
  alter (λ o, o) oid os = os.
Proof. by apply alter_id. Qed.

Lemma cancel_order_orders m oid :
  ∃ f, keeps_filled f ∧
       orders (cancel_order oid m).1.2 = alter f oid (orders m).
Proof.
  destruct (decide (oid ∈ active_orders m)) as [Ha|Hn].
  - destruct (orders m !! oid) as [o|] eqn:Ho.
    + rewrite (cancel_order_active _ _ _ Ha Ho).
      destruct (status o);
        first [ by exists (λ o, o); split; [|rewrite alter_id_orders]
              | exists (set_status CANCELLED); split; [done|]; cbn;
                by rewrite (alter_present _ _ _ _ Ho) ].
    + rewrite (cancel_order_dangling _ _ Ha Ho).
      exists (λ o, o). by rewrite alter_id_orders.
  - rewrite (cancel_order_inactive _ _ Hn).
    exists (λ o, o). by rewrite alter_id_orders.
Qed.

Lemma modify_order_orders m oid qty px :
  ∃ f, keeps_filled f ∧
       orders (modify_order oid qty px m).1.2 = alter f oid (orders m).
Proof.
  unfold modify_order. rewrite bind_get.
  destruct (bool_decide (oid ∈ active_orders m)); cbn [negb];
    [|exists (λ o, o); by rewrite alter_id_orders].
  unfold active_lookup. rewrite bind_assoc, bind_get.
  destruct (orders m !! oid) as [o|] eqn:Ho;
    [|exists (λ o, o); by rewrite alter_id_orders].
  rewrite bind_ret.
  destruct (is_active o); cbn [negb];
    [|exists (λ o, o); by rewrite alter_id_orders].
  destruct qty as [qv|], px as [pv|];
    repeat first [rewrite bind_mutate | rewrite bind_ret]; unfold ret; cbn.
  - exists (λ o, set_price (Some pv) (set_quantity qv o)). split; [done|].
    by rewrite alter_alter_eq.
  - by exists (set_quantity qv).
  - by exists (set_price (Some pv)).
  - exists (λ o, o). by rewrite alter_id_orders.
Qed.

Lemma register_callback_orders m ty cb :
  orders (register_callback ty cb m).1.2 = orders m.
Proof.
  unfold register_callback, modify. cbn.
  by repeat destruct (String.eqb _ _).
Qed.

(** What a fill does to the stored orders: the order filled keeps its
    quantity and gains the clamped quantity; the others are as before. *)
Lemma process_fill_orders now oid q p fe m k o' :
  orders (process_fill now oid q p fe m).1.2 !! k = Some o' →
  ∃ o, orders m !! k = Some o ∧ quantity o' = quantity o ∧
       (o' = o ∨
        k = oid ∧ is_active o = true ∧
        fleb (py_min q (unfilled_quantity o)) fzero = false ∧
        filled_quantity o' =
          fadd (filled_quantity o) (py_min q (unfilled_quantity o))).
Proof.
  destruct (orders m !! oid) as [o|] eqn:Ho;
    [|rewrite process_fill_failure by auto; eauto].
  destruct (is_active o) eqn:Ha;
    [|rewrite process_fill_failure by eauto; eauto].
  destruct (fleb (py_min q (unfilled_quantity o)) fzero) eqn:Hd;
    [rewrite process_fill_failure by eauto; eauto|].
  destruct (feqb (fadd (filled_quantity o) (py_min q (unfilled_quantity o)))
              fzero) eqn:Hz.
  - rewrite (process_fill_raise _ _ _ _ _ _ _ Ho Ha Hd Hz). cbn.
    destruct (decide (oid = k)) as [<-|Hne].
    + rewrite lookup_alter_eq, Ho. cbn. intros [= <-]. eauto 10.
    + rewrite lookup_alter_ne by done. eauto.
  - rewrite (process_fill_success _ _ _ _ _ _ _ Ho Ha Hd Hz). cbn.
    destruct (decide (oid = k)) as [<-|Hne].
    + rewrite lookup_insert_eq. intros [= <-]. eauto 10.
    + rewrite lookup_insert_ne by done. eauto.
Qed.

(** What a call can do to the filled quantity of a stored order: leave
    it, start it at zero (a new order), or add to it the positive
    clamped quantity of a fill. *)
Lemma after_filled_quantity (c : Call) m k o' :
  orders (after c m) !! k = Some o' →
  filled_quantity o' = fzero ∨
  ∃ o, orders m !! k = Some o ∧
       (filled_quantity o' = filled_quantity o ∨
        ∃ q, fleb (py_min q (unfilled_quantity o)) fzero = false ∧
             filled_quantity o' =
               fadd (filled_quantity o) (py_min q (unfilled_quantity o))).
Proof.
  assert (Halter : ∀ f oid, keeps_filled f →
            alter f oid (orders m) !! k = Some o' →
            ∃ o, orders m !! k = Some o ∧
                 filled_quantity o' = filled_quantity o).
  { intros f oid Hf. destruct (decide (oid = k)) as [<-|Hne].
    - rewrite lookup_alter_eq. destruct (orders m !! oid) as [o|]; [|done].
      cbn. intros [= <-]. eauto.
    - rewrite lookup_alter_ne by done. eauto. }
  unfold after. destruct c as [now sym sd ty qty px spx tif|oid|oid qty px
                              |now oid q p fe|oid s|ty cb]; unfold call.
  - rewrite bind_ret_tt_state, create_order_eq. cbn.
    destruct (decide (next_id m = k)) as [<-|Hne].
    + rewrite lookup_insert_eq. intros [= <-]. by left.
    + rewrite lookup_insert_ne by done. eauto 10.
  - rewrite bind_ret_tt_state.
    destruct (cancel_order_orders m oid) as (f & Hf & ->).
    intros (o & ? & ?)%Halter; eauto 10.
  - rewrite bind_ret_tt_state.
    destruct (modify_order_orders m oid qty px) as (f & Hf & ->).
    intros (o & ? & ?)%Halter; eauto 10.
  - rewrite bind_ret_tt_state.
    intros (o & Ho & _ & [->|(_ & _ & Hd & Hf)])%process_fill_orders;
      eauto 10.
  - rewrite update_status_state. cbn.
    intros Hl. apply Halter in Hl as (o & ? & ?); [eauto 10|done].
  - rewrite register_callback_orders. eauto 10.
Qed.

(** Calls never drop an order from the store ... *)
Lemma after_keeps_orders (c : Call) m k :
  is_Some (orders m !! k) → is_Some (orders (after c m) !! k).
Proof.
  assert (Halter : ∀ (f : Order F → Order F) oid,
            is_Some (orders m !! k) →
            is_Some (alter f oid (orders m) !! k)).
  { intros f oid Hk. by apply lookup_alter_is_Some. }
  intros Hk. unfold after.
  destruct c as [now sym sd ty qty px spx tif|oid|oid qty px
                |now oid q p fe|oid s|ty cb]; unfold call.
  - rewrite bind_ret_tt_state, create_order_eq. cbn.
    apply lookup_insert_is_Some'. by right.
  - rewrite bind_ret_tt_state.
    destruct (cancel_order_orders m oid) as (f & _ & ->). by apply Halter.
  - rewrite bind_ret_tt_state.
    destruct (modify_order_orders m oid qty px) as (f & _ & ->).
    by apply Halter.
  - rewrite bind_ret_tt_state.
    destruct (orders m !! oid) as [o|] eqn:Ho;
      [|by rewrite process_fill_failure by auto].
    destruct (is_active o) eqn:Ha;
      [|by rewrite process_fill_failure by eauto].
    destruct (fleb (py_min q (unfilled_quantity o)) fzero) eqn:Hd;
      [by rewrite process_fill_failure by eauto|].
    destruct (feqb (fadd (filled_quantity o) (py_min q (unfilled_quantity o)))
                fzero) eqn:Hz.
    + rewrite (process_fill_raise _ _ _ _ _ _ _ Ho Ha Hd Hz). by apply Halter.
    + rewrite (process_fill_success _ _ _ _ _ _ _ Ho Ha Hd Hz). cbn.
      apply lookup_insert_is_Some'. by right.
  - rewrite update_status_state. by apply Halter.
  - by rewrite register_callback_orders.
Qed.

(** ... and an id enters the active set only together with its order. *)
Lemma after_active (c : Call) m k :
  k ∈ active_orders (after c m) →
  k ∈ active_orders m ∨ is_Some (orders (after c m) !! k).
Proof.
  unfold after.
  destruct c as [now sym sd ty qty px spx tif|oid|oid qty px
                |now oid q p fe|oid s|ty cb]; unfold call.
  - rewrite bind_ret_tt_state, create_order_eq. cbn.
    intros [->%elem_of_singleton|Hk]%elem_of_union; [right|by left].
    by rewrite lookup_insert_eq.
  - rewrite bind_ret_tt_state.
    destruct (decide (oid ∈ active_orders m)) as [Ha|Hn];
      [|rewrite (cancel_order_inactive _ _ Hn); by left].
    destruct (orders m !! oid) as [o|] eqn:Ho;
      [|rewrite (cancel_order_dangling _ _ Ha Ho); by left].
    rewrite (cancel_order_active _ _ _ Ha Ho).
    destruct (status o); cbn; try (by left);
      intros [Hk _]%elem_of_difference; by left.
  - rewrite bind_ret_tt_state. unfold modify_order. rewrite bind_get.
    destruct (bool_decide (oid ∈ active_orders m)); cbn [negb]; [|by left].
    unfold active_lookup. rewrite bind_assoc, bind_get.
    destruct (orders m !! oid) as [o|]; [|by left].
    rewrite bind_ret. destruct (is_active o); cbn [negb]; [|by left].
    destruct qty, px;
      repeat first [rewrite bind_mutate | rewrite bind_ret]; by left.
  - rewrite bind_ret_tt_state.
    destruct (orders m !! oid) as [o|] eqn:Ho;
      [|rewrite process_fill_failure by auto; by left].
    destruct (is_active o) eqn:Ha;
      [|rewrite process_fill_failure by eauto; by left].
    destruct (fleb (py_min q (unfilled_quantity o)) fzero) eqn:Hd;
      [rewrite process_fill_failure by eauto; by left|].
    destruct (feqb (fadd (filled_quantity o) (py_min q (unfilled_quantity o)))
                fzero) eqn:Hz.
    + rewrite (process_fill_raise _ _ _ _ _ _ _ Ho Ha Hd Hz). by left.
    + rewrite (process_fill_success _ _ _ _ _ _ _ Ho Ha Hd Hz). cbn.
      destruct (fgeb _ _); [intros [Hk _]%elem_of_difference|]; by left.
  - rewrite update_status_state. by left.
  - unfold register_callback, modify. cbn.
    repeat destruct (String.eqb _ _); by left.
Qed.

(** Every id in the active set of a manager has its order in the store:
    the lookup [self.active_orders[order_id]] cannot fail behind the
    membership test. *)
Lemma reachable_active_stored m k :
  reachable m → k ∈ active_orders m → is_Some (orders m !! k).
Proof.
  induction 1 as [|c m Hm IH]; [by intros ?%not_elem_of_empty|].
  intros [Hk|Hk]%after_active; [|done].
  by apply after_keeps_orders, IH.
Qed.

End Steps.


(** *** Exact arithmetic *)

(** Expose the rational operations behind the [Arith] methods. *)
Ltac exact_arith :=
  unfold fzero, fgeb, fgtb in *;
  cbn [of_Z fadd fsub fmul fdiv fopp fabs fltb fleb feqb trunc Q_arith] in *;
  change (inject_Z 0) with 0%Q in *.

Section Exact.
Implicit Types (m : OrderManager Q) (o : Order Q).
Local Open Scope Q_scope.

Lemma Qltb_true (x y : Q) : Qltb x y = true ↔ x < y.
Proof.
  unfold Qltb. rewrite negb_true_iff. split.
  - intros Hf. apply Qnot_le_lt. intros Hle%Qle_bool_iff. congruence.
  - intros Hlt. destruct (Qle_bool y x) eqn:E; [|done].
    apply Qle_bool_iff in E. lra.
Qed.

Lemma Qltb_false (x y : Q) : Qltb x y = false ↔ y <= x.
Proof.
  rewrite <-not_true_iff_false, Qltb_true. split; [apply Qnot_lt_le|lra].
Qed.

Lemma Qle_bool_false (x y : Q) : Qle_bool x y = false ↔ y < x.
Proof.
  rewrite <-not_true_iff_false, Qle_bool_iff.
  split; [apply Qnot_le_lt|lra].
Qed.

(** [min] over the rationals is the minimum. *)
Lemma py_min_Q (a b : Q) :
  py_min a b <= a ∧ py_min a b <= b ∧ (py_min a b = a ∨ py_min a b = b).
Proof.
  unfold py_min. cbn. destruct (Qltb b a) eqn:E.
  - apply Qltb_true in E. repeat split; [lra|lra|by right].
  - apply Qltb_false in E. repeat split; [lra|lra|by left].
Qed.

(** The filled quantity of every order a manager can hold is
    non-negative. *)
Lemma reachable_filled_nonneg m : reachable m → filled_nonneg m.
Proof.
  induction 1 as [|c m Hm IH]; intros k o'.
  - intros Ho. cbn in Ho. by rewrite lookup_empty in Ho.
  - intros [->|(o & Ho & [->|(q & Hd & ->)])]%after_filled_quantity.
    + exact_arith. lra.
    + by apply (IH k).
    + apply IH in Ho. exact_arith. apply Qle_bool_false in Hd. lra.
Qed.

(** Fills in exact arithmetic.  For an order held by a manager, active
    and not yet completely filled, of which no more than its quantity
    is filled, process_fill with a positive quantity fills by the
    requested quantity clamped to the remaining one, moves the average
    fill price to (avg*filled + p*delta)/(filled + delta), appends
    exactly one Fill record, and sets the status to FILLED exactly when
    the filled quantity equals the quantity, to PARTIALLY_FILLED
    otherwise, leaving 0 <= filled_quantity <= quantity.  No call of
    process_fill, successful or not, breaks that bound on an order
    that satisfied it before the call.  Quantity 10 filled by
    (6, 100.0) then (4, 110.0) ends FILLED at average price 104. *)
Theorem process_fill_fills_order :
  (∀ m now oid q p fe o,
     reachable m → orders m !! oid = Some o → is_active o = true →
     0 < q → filled_quantity o < quantity o →
     let delta := py_min q (unfilled_quantity o) in
     ∃ fill m' tr o',
       process_fill now oid q p fe m = (Ok (Some fill), m', tr) ∧
       (0 < delta ∧ delta <= q ∧
        delta <= quantity o - filled_quantity o ∧
        (delta = q ∨ delta = quantity o - filled_quantity o)) ∧
       (fills m' = fills m ++ [fill] ∧ fill_order_id fill = oid ∧
        fill_quantity fill = delta ∧ fill_price fill = p ∧
        fee fill = fe) ∧
       orders m' !! oid = Some o' ∧
       quantity o' = quantity o ∧
       filled_quantity o' = filled_quantity o + delta ∧
       average_fill_price o' =
         (average_fill_price o * filled_quantity o + p * delta) /
         (filled_quantity o + delta) ∧
       (status o' = FILLED ↔ filled_quantity o' == quantity o') ∧
       (status o' = PARTIALLY_FILLED ↔
          ¬ filled_quantity o' == quantity o') ∧
       0 <= filled_quantity o' <= quantity o') ∧
  (∀ m now oid q p fe k o',
     reachable m →
     orders (process_fill now oid q p fe m).1.2 !! k = Some o' →
     ∃ o, orders m !! k = Some o ∧ quantity o' = quantity o ∧
          0 <= filled_quantity o' ∧
          (filled_quantity o <= quantity o →
           filled_quantity o' <= quantity o')) ∧
  (∃ o, orders (Scenarios.second_fill (F := Q)) !! "ORDER_000001" = Some o ∧
        average_fill_price o == 104 ∧ status o = FILLED ∧
        filled_quantity o == quantity o).
Proof.
  split; [|split].
  - intros m now oid q p fe o Hm Ho Ha Hq Hrem delta.
    pose proof (reachable_filled_nonneg _ Hm _ _ Ho) as Hnn.
    destruct (py_min_Q q (unfilled_quantity o)) as (Hle1 & Hle2 & Hmin).
    fold delta in Hle1, Hle2, Hmin. unfold unfilled_quantity in Hle2, Hmin.
    exact_arith.
    assert (Hpos : 0 < delta) by (destruct Hmin as [->| ->]; lra).
    assert (Hd : fleb delta fzero = false).
    { exact_arith. apply Qle_bool_false. lra. }
    assert (Hz : feqb (fadd (filled_quantity o) delta) fzero = false).
    { exact_arith. apply not_true_iff_false. intros E%Qeq_bool_iff. lra. }
    eexists _, _, _, (after_fill o delta p). split.
    { apply (process_fill_success now oid q p fe m o Ho Ha Hd Hz). }
    cbn. rewrite lookup_insert_eq. fold delta. exact_arith.
    repeat match goal with |- _ ∧ _ => split end; try done.
    all: try lra.
    + destruct (Qle_bool (quantity o) _) eqn:E.
      * apply Qle_bool_iff in E. split; [intros _; lra|reflexivity].
      * apply Qle_bool_false in E. split; [discriminate|intros E'; lra].
    + destruct (Qle_bool (quantity o) _) eqn:E.
      * apply Qle_bool_iff in E.
        split; [discriminate|intros Hne; exfalso; apply Hne; lra].
      * apply Qle_bool_false in E. split; [intros _ E'; lra|reflexivity].
  - intros m now oid q p fe k o' Hm
      (o & Ho & Hqty & [->|(_ & _ & Hd & Hf)])%process_fill_orders.
    + exists o. split; [done|]. split; [done|].
      split; [|done]. by apply (reachable_filled_nonneg _ Hm _ _ Ho).
    + exists o. pose proof (reachable_filled_nonneg _ Hm _ _ Ho) as Hnn.
      destruct (py_min_Q q (unfilled_quantity o)) as (Hle1 & Hle2 & _).
      rewrite Hf, Hqty.
      set (delta := py_min q (unfilled_quantity o)) in *.
      unfold unfilled_quantity in Hle2.
      exact_arith. apply Qle_bool_false in Hd.
      split; [done|]. split; [done|]. split; [lra|]. intros _. lra.
  - vm_compute. eexists. split; [reflexivity|]. by vm_compute.
Qed.

(** An instance: the first fill of the order of 10 units. *)
Lemma process_fill_fills_order_witness :
  let m := Scenarios.one_order (F := Q) in
  let o := Scenarios.the_order (F := Q) in
  reachable m ∧ orders m !! "ORDER_000001" = Some o ∧
  is_active o = true ∧ 0 < 6 ∧ filled_quantity o < quantity o ∧
  ∃ fill m' tr o',
    process_fill "t1" "ORDER_000001" 6 100 0 m = (Ok (Some fill), m', tr) ∧
    fills m' = fills m ++ [fill] ∧
    orders m' !! "ORDER_000001" = Some o' ∧
    filled_quantity o' = filled_quantity o + py_min 6 (unfilled_quantity o) ∧
    0 <= filled_quantity o' <= quantity o'.
Proof.
  intros m o.
  assert (Hm : reachable m) by apply reachable_call, reachable_init.
  assert (Ho : orders m !! "ORDER_000001" = Some o) by (vm_compute; reflexivity).
  assert (Ha : is_active o = true) by reflexivity.
  assert (Hq : 0 < 6) by reflexivity.
  assert (Hrem : filled_quantity o < quantity o) by reflexivity.
  do 5 (split; [assumption|]).
  destruct (proj1 process_fill_fills_order m "t1" "ORDER_000001" 6 100 0 o
              Hm Ho Ha Hq Hrem)
    as (fill & m' & tr & o' & Hrun & _ & (Hfills & _) & Ho' & _ & Hf & _ & _
        & _ & Hbound).
  exists fill, m', tr, o'. repeat split; try assumption; apply Hbound.
Defined.

(** The same two fills evaluated in binary64. *)
Example process_fill_scenario_binary64 :
  ∃ o : Order float,
       orders (Scenarios.second_fill (F := float)) !! "ORDER_000001" = Some o ∧
       average_fill_price o = 104%float ∧ status o = FILLED ∧
       filled_quantity o = 10%float.
Proof. vm_compute. eexists. split; [reflexivity|]. repeat split. Qed.

(** C9, witness: a fill for the order that [second_fill] has already
    completely filled. *)
Lemma process_fill_failure_leaves_state_witness :
  let m := Scenarios.second_fill (F := Q) in
  (orders m !! "ORDER_000001" = None ∨
   ∃ o, orders m !! "ORDER_000001" = Some o ∧
        (is_active o = false ∨
         fleb (py_min 1 (unfilled_quantity o)) fzero = true)) ∧
  process_fill "t3" "ORDER_000001" 1 100 0 m = (Ok None, m, []).
Proof.
  intros m.
  assert (Hyp : orders m !! "ORDER_000001" = None ∨
            ∃ o, orders m !! "ORDER_000001" = Some o ∧
                 (is_active o = false ∨
                  fleb (py_min 1 (unfilled_quantity o)) fzero = true)).
  { right. vm_compute. eexists. split; [reflexivity|]. by left. }
  split; [exact Hyp|].
  exact (process_fill_failure_leaves_state "t3" "ORDER_000001" 1 100 0 m Hyp).
Defined.



(** C3, counterexample: a market order for -5 units, a limit order
    without a limit price, and a stop order without a stop price are
    each created, set to NEW and registered as active; nothing is
    raised. *)
Lemma create_order_validation_counterexample :
  let accepted (r : result (Order Q) * OrderManager Q * list (Event Q)) :=
    raises r.1.1 = false ∧
    status <$> orders r.1.2 !! "ORDER_000001" = Some NEW ∧
    bool_decide ("ORDER_000001" ∈ active_orders r.1.2) = true in
  accepted (create_order "t" "AAPL" BUY MARKET (-5) None None "GTC" init) ∧
  accepted (create_order "t" "AAPL" BUY LIMIT 10 None None "GTC" init) ∧
  accepted (create_order "t" "AAPL" BUY STOP_LIMIT 10 (Some 99) None "GTC"
              init) ∧
  accepted (create_order "t" "AAPL" SELL STOP 10 None None "GTC" init).
Proof. vm_compute. repeat split. Qed.

(** C8, counterexample: with a status observer 1 and a fill observer 2,
    the first fill of the order appends the Fill record before the
    status update and delivers the status event before the fill
    event. *)
Lemma process_fill_event_order_counterexample :
  let run := process_fill "t1" "ORDER_000001" 6 100 0
               (Scenarios.observed (F := Q)) in
  ∃ f, run.1.1 = Ok (Some f) ∧
       run.2 = [FillRecorded f;
                StatusApplied "ORDER_000001" NEW PARTIALLY_FILLED;
                StatusCallback 1 "ORDER_000001" NEW PARTIALLY_FILLED;
                FillCallback 2 f] ∧
       ¬ all_before is_status_applied is_fill_recorded run.2 ∧
       ¬ all_before is_fill_callback is_status_callback run.2.
Proof.
  vm_compute. eexists. split; [reflexivity|]. split; [reflexivity|].
  split; intros Hb.
  - specialize (Hb 1%nat 0%nat _ _ eq_refl eq_refl eq_refl eq_refl). lia.
  - specialize (Hb 3%nat 2%nat _ _ eq_refl eq_refl eq_refl eq_refl). lia.
Qed.

(** C8, witness: the run of the counterexample. *)
Lemma process_fill_event_order_witness :
  let m := Scenarios.observed (F := Q) in
  let run := process_fill "t1" "ORDER_000001" 6 100 0 m in
  let f := new_fill "ORDER_000001" "AAPL" BUY 6 100 "t1" 0 in
  run = (Ok (Some f), run.1.2, run.2) ∧
  all_before is_fill_recorded is_status_applied run.2 ∧
  all_before is_status_callback is_fill_callback run.2.
Proof.
  intros m run f.
  assert (Hrun : run = (Ok (Some f), run.1.2, run.2)) by (vm_compute; reflexivity).
  split; [exact Hrun|].
  destruct (process_fill_event_order "t1" "ORDER_000001" 6 100 0 m f
              run.1.2 run.2 Hrun) as (old & new & _ & H1 & _ & H3).
  by split.
Defined.
End Exact.

(** C1, at the failing inputs.  In every arithmetic a fill that
    process_fill accepts fills by the requested quantity clamped to the
    remaining one, moves the average fill price to
    (avg*filled + p*delta)/(filled + delta), appends one Fill record
    and sets the status to FILLED when the filled quantity has reached
    or passed the quantity, to PARTIALLY_FILLED otherwise.  But the
    bound filled_quantity <= quantity does not hold after every call.
    In exact arithmetic: an order for 10 units filled with 6 and then
    lowered to 5 units by modify_order is stored, active, with 6 of 5
    units filled; process_fill refuses every further fill and leaves it
    so.  In binary64: an order for 0.9 units filled with 0.3 and then
    1.0 ends FILLED with 0.9000000000000001 units filled, more than its
    quantity; filled with 0.2 and then 0.7 it stays PARTIALLY_FILLED
    and active with 0.8999999999999999 units filled.  Quantity 10
    filled by (6, 100.0) then (4, 110.0) ends FILLED at average price
    104.0 in binary64 too. *)
Theorem process_fill_exceeds_quantity :
  (∀ (F : Type) (HF : Arith F) (m : OrderManager F) now oid q p fe o,
     orders m !! oid = Some o → is_active o = true →
     let delta := py_min q (unfilled_quantity o) in
     let filled := fadd (filled_quantity o) delta in
     fleb delta fzero = false → feqb filled fzero = false →
     ∃ fill m' tr o',
       process_fill now oid q p fe m = (Ok (Some fill), m', tr) ∧
       fills m' = fills m ++ [fill] ∧ fill_order_id fill = oid ∧
       fill_quantity fill = delta ∧ fill_price fill = p ∧
       orders m' !! oid = Some o' ∧ quantity o' = quantity o ∧
       filled_quantity o' = filled ∧
       average_fill_price o' =
         fdiv (fadd (fmul (average_fill_price o) (filled_quantity o))
                 (fmul p delta)) filled ∧
       status o' =
         if fgeb filled (quantity o) then FILLED else PARTIALLY_FILLED) ∧
  (let m := Scenarios.shrunk (F := Q) in
   OrderQueries.client_reachable m ∧
   ∃ o, orders m !! "ORDER_000001" = Some o ∧ is_active o = true ∧
        quantity o = 5%Q ∧ filled_quantity o = 6%Q ∧
        (quantity o < filled_quantity o)%Q ∧
        ∀ now q p fe,
          process_fill now "ORDER_000001" q p fe m = (Ok None, m, [])) ∧
  (let m := Scenarios.overfilled (F := float) in
   OrderQueries.client_reachable m ∧
   fill_quantity <$> fills m
     = [0x1.3333333333333p-2; 0x1.3333333333334p-1]%float ∧
   ∃ o, orders m !! "ORDER_000001" = Some o ∧
        quantity o = 0x1.ccccccccccccdp-1%float ∧
        filled_quantity o = 0x1.ccccccccccccep-1%float ∧
        PrimFloat.ltb (quantity o) (filled_quantity o) = true ∧
        status o = FILLED) ∧
  (let m := Scenarios.underfilled (F := float) in
   OrderQueries.client_reachable m ∧
   fill_quantity <$> fills m
     = [0x1.999999999999ap-3; 0x1.6666666666666p-1]%float ∧
   ∃ o, orders m !! "ORDER_000001" = Some o ∧
        quantity o = 0x1.ccccccccccccdp-1%float ∧
        filled_quantity o = 0x1.cccccccccccccp-1%float ∧
        PrimFloat.ltb (filled_quantity o) (quantity o) = true ∧
        status o = PARTIALLY_FILLED ∧ is_active o = true) ∧
  (∃ o, orders (Scenarios.second_fill (F := float)) !! "ORDER_000001"
          = Some o ∧
        average_fill_price o = 104%float ∧ status o = FILLED ∧
        filled_quantity o = 10%float ∧ quantity o = 10%float).
Proof.
  split; [|split; [|split; [|split]]].
  - intros F HF m now oid q p fe o Ho Ha delta filled Hd Hz.
    eexists _, _, _, _. split; [by apply process_fill_success|].
    cbn. rewrite lookup_insert_eq. by repeat split.
  - intros m. split.
    { do 3 (apply OrderQueries.client_step; [done|]).
      apply OrderQueries.client_init. }
    eexists. split; [by vm_compute|]. do 4 (split; [done|]).
    intros now q p fe. apply process_fill_failure. right.
    eexists. split; [by vm_compute|]. right.
    unfold py_min, unfilled_quantity. cbn [quantity filled_quantity].
    destruct (fltb _ q) eqn:E; [done|].
    apply negb_false_iff, Qle_bool_iff in E. apply Qle_bool_iff.
    change (q <= -1)%Q in E. change (q <= 0)%Q. lra.
  - intros m. split.
    { do 3 (apply OrderQueries.client_step; [done|]).
      apply OrderQueries.client_init. }
    split; [by vm_compute|].
    eexists. split; [by vm_compute|]. by repeat split.
  - intros m. split.
    { do 3 (apply OrderQueries.client_step; [done|]).
      apply OrderQueries.client_init. }
    split; [by vm_compute|].
    eexists. split; [by vm_compute|]. by repeat split.
  - vm_compute. eexists. split; [reflexivity|]. by repeat split.
Qed.

End OrderManagementSpec.

(** ** Execution strategies *)

Module ExecutionSpec.
Import OrderManagement Execution OrderManagementSpec.

Section Generic.
Context {F : Type} `{Arith F}.
Implicit Types (order : Order F) (market_data : list (Bar F))
  (child_orders slices : list (Slice F)).

Lemma iloc_back_ok market_data k :
  (k < length market_data)%nat → ∃ row, iloc_back market_data k = Ok row.
Proof.
  intros Hk. unfold iloc_back.
  destruct (rev market_data !! k) as [row|] eqn:E; [by exists row|].
  apply lookup_ge_None in E. rewrite length_rev in E. lia.
Qed.

(** On a non-empty window every pass of the TWAP loop appends one slice
    of the slice quantity. *)
Lemma twap_loop order market_data (slice_quantity : F) idxs child_orders :
  market_data ≠ [] →
  ∃ slices,
    for_each idxs (twap_body order market_data slice_quantity) child_orders
      = Ok (child_orders ++ slices) ∧
    length slices = length idxs ∧
    Forall (λ s, s.1 = slice_quantity) slices.
Proof.
  intros Hne.
  assert (Hlen : (0 < length market_data)%nat).
  { destruct market_data; [done|cbn; lia]. }
  revert child_orders.
  induction idxs as [|i idxs IH]; intros child_orders.
  - exists []. by rewrite app_nil_r.
  - cbn [for_each]. unfold twap_body at 1. case_bool_decide as Hi.
    + destruct (iloc_back_ok market_data i Hi) as [row ->]. cbn.
      destruct (IH (child_orders ++
                      [(slice_quantity,
                        match side order with
                        | BUY => fmul (close row) (lit 10005 10000)
                        | SELL => fmul (close row) (lit 9995 10000)
                        end)])) as (slices & -> & Hl & Hall).
      eexists (_ :: slices). rewrite <-(assoc_L (++)). split; [done|].
      split; [cbn; lia|]. by constructor.
    + rewrite bool_decide_eq_true_2 by done.
      destruct (iloc_back_ok market_data 0 Hlen) as [row ->]. cbn.
      destruct (IH (child_orders ++
                      [(slice_quantity,
                        match side order with
                        | BUY => fmul (close row) (lit 10005 10000)
                        | SELL => fmul (close row) (lit 9995 10000)
                        end)])) as (slices & -> & Hl & Hall).
      eexists (_ :: slices). rewrite <-(assoc_L (++)). split; [done|].
      split; [cbn; lia|]. by constructor.
Qed.

(** More fuel does not change the result of a loop that ended. *)
Lemma participate_loop_mono order market_data (d : F) fuel fuel' :
  (fuel ≤ fuel')%nat →
  ∀ remaining child_orders r,
    participate_loop fuel order market_data d remaining child_orders = Some r →
    participate_loop fuel' order market_data d remaining child_orders = Some r.
Proof.
  intros Hle. revert fuel' Hle.
  induction fuel as [|fuel IH]; intros fuel' Hle remaining child_orders r;
    [done|].
  destruct fuel' as [|fuel']; [lia|]. cbn [participate_loop].
  destruct (fgtb remaining fzero); [|done].
  destruct (iloc_back market_data 0); [|done].
  apply IH. lia.
Qed.

(** A loop whose remaining quantity is positive and is not changed by
    subtracting the chunk never ends. *)
Lemma participate_loop_stuck order market_data row (d remaining : F) :
  iloc_back market_data 0 = Ok row →
  fgtb remaining fzero = true →
  fsub remaining (py_min d remaining) = remaining →
  ∀ fuel child_orders,
    participate_loop fuel order market_data d remaining child_orders = None.
Proof.
  intros Hrow Hpos Hsame. induction fuel as [|fuel IH]; intros child_orders;
    [done|].
  cbn [participate_loop]. rewrite Hpos, Hrow, Hsame. apply IH.
Qed.
End Generic.

Section Exact.
Implicit Types (order : Order Q) (market_data : list (Bar Q))
  (child_orders slices : list (Slice Q)).
Local Open Scope Q_scope.

(** *** Sums of slices *)

Lemma total_sliced_snoc {P} (child_orders : list (Q * P)) (s : Q * P) :
  total_sliced (child_orders ++ [s]) = total_sliced child_orders + s.1.
Proof. unfold total_sliced. by rewrite foldl_snoc. Qed.

Lemma total_sliced_app {P} (child_orders slices : list (Q * P)) :
  total_sliced (child_orders ++ slices) ==
    total_sliced child_orders + total_sliced slices.
Proof.
  induction slices as [|s slices IH] using rev_ind.
  - rewrite app_nil_r. unfold total_sliced at 3. cbn. exact_arith. lra.
  - rewrite (assoc_L (++)), !total_sliced_snoc, IH. lra.
Qed.

Lemma total_sliced_constant {P} (slices : list (Q * P)) (x : Q) :
  Forall (λ s, s.1 = x) slices →
  total_sliced slices == inject_Z (Z.of_nat (length slices)) * x.
Proof.
  induction slices as [|s slices IH] using rev_ind; intros Hall.
  - cbn. exact_arith. change (inject_Z _) with 0. lra.
  - apply Forall_app in Hall as [Hall Hs]. rewrite Forall_singleton in Hs.
    specialize (IH Hall). rewrite total_sliced_snoc, IH, Hs.
    rewrite length_app, Nat2Z.inj_add, inject_Z_plus.
    change (inject_Z (Z.of_nat (length [s]))) with 1. ring.
Qed.

(** Equal slices, one for each of a positive number [n] of passes, add
    up to the quantity they divide. *)
Lemma total_sliced_equal {P A} (f : A → P) (idxs : list A) (q : Q) (n : Z) :
  Z.of_nat (length idxs) = n → (0 < n)%Z →
  total_sliced ((λ i, (q / inject_Z n, f i)) <$> idxs) == q.
Proof.
  intros Hlen Hn.
  rewrite (total_sliced_constant _ (q / inject_Z n)).
  - rewrite length_fmap, Hlen. field. intros Hz.
    assert (0 < inject_Z n) as Hlt.
    { change 0 with (inject_Z 0). by rewrite <-Zlt_Qlt. }
    lra.
  - apply Forall_fmap, Forall_forall. by intros.
Qed.

(** *** TWAP *)

(** X16: in exact arithmetic the equal slices of TWAP add up to the parent
    quantity, whenever the window is not empty and the slice count is
    positive. *)
Lemma twap_total_exact (s : TWAPStrategy) order market_data :
  slice_interval_minutes s ≠ 0%Z →
  (0 < time_window_minutes s / slice_interval_minutes s)%Z →
  market_data ≠ [] →
  ∃ slices,
    twap_execute s order market_data = Ok slices ∧
    length slices =
      Z.to_nat (time_window_minutes s / slice_interval_minutes s) ∧
    total_sliced slices == quantity order.
Proof.
  intros Hsi Hn Hne. unfold twap_execute, floordiv.
  rewrite (proj2 (Z.eqb_neq _ _) Hsi). cbn [result_bind].
  set (n := (time_window_minutes s / slice_interval_minutes s)%Z) in *.
  rewrite (proj2 (Z.eqb_neq n 0)) by lia. cbn [result_bind].
  destruct (twap_loop order market_data (fdiv (quantity order) (of_Z n))
              (range n) [] Hne) as (slices & -> & Hl & Hall).
  exists slices. cbn [app]. split; [done|].
  unfold range in Hl. rewrite length_seq in Hl. split; [done|].
  rewrite (total_sliced_constant _ _ Hall), Hl, Z2Nat.id by lia.
  exact_arith. field. intros Hz.
  assert (0 < inject_Z n) as Hlt.
  { change 0 with (inject_Z 0). rewrite <-Zlt_Qlt. lia. }
  lra.
Qed.

(** *** VWAP and MinSlippage *)

(** X17: in exact arithmetic the slices of VWAP add up to the parent
    quantity, on every window. *)
Lemma vwap_total_exact (s : VWAPStrategy) order market_data :
  total_sliced (vwap_execute s order market_data) == quantity order.
Proof.
  unfold vwap_execute. case_bool_decide as Hlen.
  - unfold total_sliced. cbn. exact_arith. lra.
  - destruct (feqb _ fzero).
    + unfold total_sliced. cbn. exact_arith. lra.
    + exact_arith. apply total_sliced_equal.
      * by rewrite length_seq.
      * destruct market_data; [done|]. cbn [length]. lia.
Qed.

(** X18: in exact arithmetic MinSlippage returns, on every non-empty window
    and whatever the volatility, slices that add up to the parent
    quantity. *)
Lemma min_slippage_total_exact (volatility : list Q → option Q)
    (s : MinSlippageStrategy) order market_data :
  market_data ≠ [] →
  ∃ slices,
    min_slippage_execute volatility s order market_data = Ok slices ∧
    total_sliced slices == quantity order.
Proof.
  intros Hne.
  assert (Hlen : (0 < length market_data)%nat).
  { destruct market_data; [done|cbn; lia]. }
  destruct (iloc_back_ok market_data 0 Hlen) as [row Hrow].
  unfold min_slippage_execute. rewrite Hrow. cbn [result_bind].
  case_bool_decide as Hshort.
  - eexists. split; [reflexivity|]. unfold total_sliced. cbn. exact_arith. lra.
  - unfold py_int. exact_arith. cbn [result_bind].
    set (v := volatility _).
    destruct (vol_lt v _); [|destruct (vol_lt v _)]; cbn [result_bind];
      (eexists; split; [reflexivity|]; apply total_sliced_equal;
       [unfold range; rewrite length_seq; lia|lia]).
Qed.

(** *** Participate *)

Lemma inject_nat_succ (n : nat) :
  inject_Z (Z.of_nat (S n)) == inject_Z (Z.of_nat n) + 1.
Proof. by rewrite Nat2Z.inj_succ, <-Z.add_1_r, inject_Z_plus. Qed.

(** With a positive slice size [d], a remaining quantity in
    [(n*d, (n+1)*d]] is worked off in [n+1] passes, each taking
    [min(d, remaining) > 0], after [n+2] tests of the loop condition. *)
Lemma participate_loop_runs order market_data row (d : Q) :
  iloc_back market_data 0 = Ok row → 0 < d →
  ∀ (n : nat) (remaining : Q) child_orders (fuel : nat),
    inject_Z (Z.of_nat n) * d < remaining →
    remaining <= inject_Z (Z.of_nat (S n)) * d →
    (S (S n) ≤ fuel)%nat →
    ∃ slices,
      participate_loop fuel order market_data d remaining child_orders
        = Some (Ok (child_orders ++ slices)) ∧
      length slices = S n ∧
      Forall (λ s, 0 < s.1 ∧ s.1 <= d) slices ∧
      total_sliced (child_orders ++ slices) ==
        total_sliced child_orders + remaining.
Proof.
  intros Hrow Hd. induction n as [|n IH];
    intros remaining child_orders fuel Hlo Hhi Hfuel;
    rewrite inject_nat_succ in Hhi;
    (destruct fuel as [|fuel]; [lia|]); cbn [participate_loop]; rewrite Hrow;
    exact_arith.
  - change (inject_Z (Z.of_nat 0)) with 0 in *.
    rewrite (proj2 (Qltb_true 0 remaining)) by lra.
    set (chunk := py_min d remaining).
    destruct (py_min_Q d remaining) as (Hc1 & Hc2 & Hc3). fold chunk in Hc1, Hc2, Hc3.
    assert (Hchunk : chunk == remaining).
    { destruct Hc3 as [Hc3|Hc3]; [|by rewrite Hc3].
      unfold chunk, py_min in *. cbn in *.
      destruct (Qltb remaining d) eqn:E; [reflexivity|].
      apply Qltb_false in E. lra. }
    destruct fuel as [|fuel]; [lia|]. cbn [participate_loop]. exact_arith.
    rewrite (proj2 (Qltb_false 0 (remaining - chunk))) by lra.
    eexists [_]. split; [reflexivity|]. split; [reflexivity|].
    split; [constructor; [cbn; lra|constructor]|].
    rewrite total_sliced_snoc. cbn. lra.
  - rewrite inject_nat_succ in Hlo, Hhi.
    assert (Hn0 : 0 <= inject_Z (Z.of_nat n)).
    { change 0 with (inject_Z 0). rewrite <-Zle_Qle. lia. }
    rewrite (proj2 (Qltb_true 0 remaining)) by nra.
    assert (Hchunk : py_min d remaining = d).
    { unfold py_min. cbn. rewrite (proj2 (Qltb_false remaining d)); [done|nra]. }
    rewrite Hchunk.
    set (s := (d, _)).
    destruct (IH (remaining - d) (child_orders ++ [s]) fuel)
      as (slices & -> & Hl & Hall & Hsum); [nra|rewrite inject_nat_succ; nra|lia|].
    exists ([s] ++ slices). rewrite (assoc_L (++)). split; [done|].
    split; [cbn; lia|]. split; [constructor; [cbn; lra|done]|].
    rewrite Hsum, total_sliced_snoc. cbn. lra.
Qed.

(** With a slice size [d <= 0] the remaining quantity never decreases:
    no amount of fuel ends the loop. *)
Lemma participate_loop_diverges order market_data row (d : Q) :
  iloc_back market_data 0 = Ok row → d <= 0 →
  ∀ (fuel : nat) (remaining : Q) child_orders,
    0 < remaining →
    participate_loop fuel order market_data d remaining child_orders = None.
Proof.
  intros Hrow Hd. induction fuel as [|fuel IH];
    intros remaining child_orders Hrem; [done|].
  cbn [participate_loop]. rewrite Hrow. exact_arith.
  rewrite (proj2 (Qltb_true 0 remaining)) by done.
  assert (Hchunk : py_min d remaining = d).
  { unfold py_min. cbn. rewrite (proj2 (Qltb_false remaining d)); [done|lra]. }
  rewrite Hchunk. apply IH. lra.
Qed.

(** Every positive quantity lies in one interval [(n*d, (n+1)*d]]. *)
Lemma slice_count_exists (r d : Q) :
  0 < r → 0 < d →
  ∃ n : nat, inject_Z (Z.of_nat n) * d < r ∧
             r <= inject_Z (Z.of_nat (S n)) * d.
Proof.
  intros Hr Hd.
  pose proof (Qle_ceiling (r / d)) as Hup.
  pose proof (Qceiling_lt (r / d)) as Hlo.
  set (k := Qceiling (r / d)) in *.
  assert (Hrd : r / d * d == r) by (field; lra).
  assert (Hpos : 0 < r / d).
  { apply Qlt_shift_div_l; [done|lra]. }
  assert (Hk : (1 <= k)%Z).
  { assert (inject_Z 0 < inject_Z k) as Hz.
    { change (inject_Z 0) with 0. lra. }
    rewrite <-Zlt_Qlt in Hz. lia. }
  exists (Z.to_nat (k - 1)).
  rewrite inject_nat_succ, Z2Nat.id by lia.
  replace (inject_Z (k - 1)) with (inject_Z (k + -1)) in * by (f_equal; lia).
  rewrite inject_Z_plus in *. change (inject_Z (-1)) with (-1) in *.
  assert (H1 : (inject_Z k + -1) * d < r / d * d).
  { apply Qmult_lt_r; [done|lra]. }
  assert (H2 : r / d * d <= inject_Z k * d).
  { apply Qmult_le_r; [done|lra]. }
  rewrite Hrd in H1, H2. split; lra.
Qed.

(** Participate in exact arithmetic.  For a parent order of positive
    quantity and a non-empty window whose trailing-20-bar average
    volume is positive, a positive
    participation rate makes ParticipateStrategy.execute terminate: some
    number of loop tests suffices, every slice is positive and at most
    avg_volume * rate, and the slices sum to the parent quantity.  With a
    rate that is not positive the loop never ends. *)
Theorem participate_terminates (s : ParticipateStrategy Q) order market_data :
  0 < quantity order → market_data ≠ [] →
  0 < mean_volume (tail 20 market_data) →
  let desired := mean_volume (tail 20 market_data) * participation_rate s in
  (0 < participation_rate s →
   ∃ (n : nat) slices,
     (∀ fuel, (n ≤ fuel)%nat →
        participate_execute fuel s order market_data = Some (Ok slices)) ∧
     S (length slices) = n ∧
     Forall (λ sl, 0 < sl.1 ∧ sl.1 <= desired) slices ∧
     total_sliced slices == quantity order) ∧
  (participation_rate s <= 0 →
   ∀ fuel, participate_execute fuel s order market_data = None).
Proof.
  intros Hq Hne Havg desired.
  assert (Hlen : (0 < length market_data)%nat).
  { destruct market_data; [done|cbn; lia]. }
  destruct (iloc_back_ok market_data 0 Hlen) as [row Hrow].
  assert (Hexec : ∀ fuel, participate_execute fuel s order market_data =
            participate_loop fuel order market_data desired (quantity order) []).
  { intros fuel. unfold participate_execute.
    rewrite bool_decide_eq_false_2 by lia. exact_arith.
    destruct (Qeq_bool _ 0) eqn:E; [|done].
    apply Qeq_bool_iff in E. lra. }
  split.
  - intros Hrate.
    assert (Hd : 0 < desired) by (unfold desired; nra).
    destruct (slice_count_exists (quantity order) desired Hq Hd)
      as (n & Hlo & Hhi).
    destruct (participate_loop_runs order market_data row desired Hrow Hd
                n (quantity order) [] (S (S n)) Hlo Hhi (le_n _))
      as (slices & Hrun & Hl & Hall & Hsum).
    exists (S (S n)), slices. split; [|split; [lia|split; [done|]]].
    + intros fuel Hfuel. rewrite Hexec.
      by apply (participate_loop_mono _ _ _ (S (S n))).
    + cbn [app] in Hsum. rewrite Hsum. unfold total_sliced. cbn. exact_arith. lra.
  - intros Hrate fuel. rewrite Hexec.
    apply (participate_loop_diverges _ _ row); [done| |done].
    unfold desired. nra.
Qed.

(** An instance: 12 units at the default rate against bars of volume 50
    (slices of 5, 5 and 2). *)
Lemma participate_terminates_witness :
  let s := Scenarios.participate_default (F := Q) in
  let order := Scenarios.parent (12 : Q) in
  let market_data := Scenarios.window (F := Q) 1 in
  0 < quantity order ∧ market_data ≠ [] ∧
  0 < mean_volume (tail 20 market_data) ∧ 0 < participation_rate s ∧
  ∃ (n : nat) slices,
    (∀ fuel, (n ≤ fuel)%nat →
       participate_execute fuel s order market_data = Some (Ok slices)) ∧
    total_sliced slices == quantity order.
Proof.
  intros s order market_data.
  assert (Hq : 0 < quantity order) by reflexivity.
  assert (Hne : market_data ≠ []) by discriminate.
  assert (Havg : 0 < mean_volume (tail 20 market_data)) by reflexivity.
  assert (Hrate : 0 < participation_rate s) by reflexivity.
  do 4 (split; [assumption|]).
  destruct (proj1 (participate_terminates s order market_data Hq Hne Havg)
              Hrate) as (n & slices & Hrun & _ & _ & Hsum).
  by exists n, slices.
Defined.

(** *** Iceberg *)

(** [int(x)] rounds a non-negative rational down. *)
Lemma Qtrunc_nonneg (x : Q) : 0 <= x → Qtrunc x = Qfloor x.
Proof.
  destruct x as [n d]. unfold Qle, Qtrunc, Qfloor. cbn. intros Hn.
  apply Z.quot_div_nonneg; lia.
Qed.

(** While at least [D] units remain for each pass, every pass of the
    hidden-chunk loop appends a chunk of exactly [D]. *)
Lemma iceberg_loop_full (s : IcebergStrategy Q) order (current_price : Q) :
  0 < display_size s →
  ∀ idxs child_orders (remaining : Q),
    inject_Z (Z.of_nat (length idxs)) * display_size s <= remaining →
    ∃ slices remaining',
      for_each idxs (iceberg_body s order current_price)
        (child_orders, remaining) = Ok (child_orders ++ slices, remaining') ∧
      length slices = length idxs ∧
      Forall (λ sl, sl.1 = display_size s) slices ∧
      remaining' ==
        remaining - inject_Z (Z.of_nat (length idxs)) * display_size s.
Proof.
  intros HD. induction idxs as [|i idxs IH]; intros child_orders remaining Hrem.
  - exists [], remaining. rewrite app_nil_r. repeat split; [done|].
    change (inject_Z (Z.of_nat (length (@nil nat)))) with 0. lra.
  - cbn [length] in Hrem. rewrite inject_nat_succ in Hrem.
    assert (Hn0 : 0 <= inject_Z (Z.of_nat (length idxs))).
    { change 0 with (inject_Z 0). rewrite <-Zle_Qle. lia. }
    cbn [for_each]. unfold iceberg_body at 1. exact_arith.
    rewrite (proj2 (Qltb_true 0 remaining)) by nra.
    assert (Hchunk : py_min (display_size s) remaining = display_size s).
    { unfold py_min. cbn.
      rewrite (proj2 (Qltb_false remaining (display_size s))); [done|nra]. }
    rewrite Hchunk. cbn [result_bind].
    set (sl := (display_size s, _)).
    destruct (IH (child_orders ++ [sl]) (remaining - display_size s))
      as (slices & remaining' & -> & Hl & Hall & Hrem'); [nra|].
    exists ([sl] ++ slices), remaining'. rewrite (assoc_L (++)).
    split; [done|]. split; [cbn; lia|]. split; [by constructor|].
    cbn [length]. rewrite inject_nat_succ, Hrem'. lra.
Qed.

(** X19: what Iceberg slices, in exact arithmetic: all of a parent quantity
    below twice the display size, and otherwise the display size times
    the whole number of display sizes the quantity holds; the rest is
    left out. *)
Lemma iceberg_total (s : IcebergStrategy Q) order market_data :
  0 < display_size s → 0 < quantity order → market_data ≠ [] →
  ∃ slices,
    iceberg_execute s order market_data = Ok slices ∧
    total_sliced slices ==
      if Qltb (quantity order) (2 * display_size s) then quantity order
      else display_size s +
           inject_Z (Qfloor ((quantity order - display_size s)
                             / display_size s)) * display_size s.
Proof.
  intros HD HT Hne. set (D := display_size s) in *.
  set (T := quantity order) in *.
  assert (Hlen : (0 < length market_data)%nat).
  { destruct market_data; [done|cbn; lia]. }
  destruct (iloc_back_ok market_data 0 Hlen) as [row Hrow].
  unfold iceberg_execute. rewrite Hrow. cbn [result_bind].
  fold D T. unfold py_div. exact_arith.
  assert (Hnz : Qeq_bool D 0 = false).
  { apply not_true_iff_false. intros E%Qeq_bool_iff. lra. }
  rewrite Hnz.
  cbn [result_bind]. unfold py_int. exact_arith. cbn [result_bind].
  set (displayed := py_min D T).
  destruct (py_min_Q D T) as (Hd1 & Hd2 & Hd3). fold displayed in Hd1, Hd2, Hd3.
  set (R := T - displayed).
  assert (HR0 : 0 <= R) by (unfold R; lra).
  assert (Hratio : 0 <= R / D) by (apply Qle_shift_div_l; lra).
  rewrite (Qtrunc_nonneg _ Hratio).
  pose proof (Qfloor_le (R / D)) as Hlo.
  pose proof (Qlt_floor (R / D)) as Hhi.
  set (k := Qfloor (R / D)) in *.
  assert (HRD : R / D * D == R) by (field; lra).
  assert (Hk0 : (0 <= k)%Z).
  { change 0%Z with (Qfloor 0). by apply Qfloor_resp_le. }
  assert (H1 : inject_Z k * D <= R).
  { rewrite <-HRD. apply Qmult_le_r; [done|lra]. }
  assert (H2 : R < (inject_Z k + 1) * D).
  { rewrite <-HRD at 1. apply Qmult_lt_r; [done|].
    rewrite inject_Z_plus in Hhi. exact Hhi. }
  set (first := (displayed, _)).
  destruct (Qltb T (2 * D)) eqn:Hsmall.
  - (* less than two display sizes: one pass, taking all that remains *)
    apply Qltb_true in Hsmall.
    assert (HRlt : R < D) by (unfold R; destruct Hd3 as [-> | ->]; lra).
    assert (Hk : k = 0%Z).
    { assert (inject_Z k < inject_Z 1) as Hk1 by (change (inject_Z 1) with 1; nra).
      rewrite <-Zlt_Qlt in Hk1. lia. }
    rewrite Hk. change (range (Z.max 1 0)) with [0%nat]. cbn [for_each].
    unfold iceberg_body. exact_arith. fold D.
    destruct (Qltb 0 R) eqn:HRpos; cbn [result_bind fst].
    + assert (Hchunk : py_min D R = R).
      { unfold py_min. cbn. by rewrite (proj2 (Qltb_true R D)). }
      rewrite Hchunk. eexists. split; [reflexivity|].
      unfold total_sliced. cbn. exact_arith. unfold R. lra.
    + apply Qltb_false in HRpos. eexists. split; [reflexivity|].
      unfold total_sliced. cbn. exact_arith. unfold R in *. lra.
  - (* at least two display sizes: [k] passes of one display size each *)
    apply Qltb_false in Hsmall.
    assert (Hdisp : displayed = D).
    { unfold displayed, py_min. cbn.
      rewrite (proj2 (Qltb_false T D)); [done|lra]. }
    assert (HRD' : D <= R) by (unfold R; rewrite Hdisp; lra).
    assert (Hk : (1 <= k)%Z).
    { assert (inject_Z 0 < inject_Z k) as Hk1.
      { change (inject_Z 0) with 0. nra. }
      rewrite <-Zlt_Qlt in Hk1. lia. }
    rewrite Z.max_r by lia.
    destruct (iceberg_loop_full s order (close row) HD (range k) [first] R)
      as (slices & remaining' & Hrun & Hl & Hall & _).
    { unfold range. rewrite length_seq, Z2Nat.id by lia. exact H1. }
    exists ([first] ++ slices).
    rewrite Hrun.
    split; [reflexivity|].
    assert (Hk' : Qfloor ((T - D) / D) = k) by (unfold k, R; by rewrite Hdisp).
    rewrite Hk', (total_sliced_app [first] slices).
    rewrite (total_sliced_constant slices D Hall), Hl.
    unfold range. rewrite length_seq, Z2Nat.id by lia.
    change (total_sliced [first]) with (fadd fzero displayed).
    exact_arith. rewrite Hdisp. lra.
Qed.

(** *** Iceberg and TWAP on the failing inputs *)

(** C2, at the failing inputs.  Iceberg with display size 100 on a parent
    order of 250 units returns the displayed slice of 100 and one hidden
    slice of 100: 200 units, not 250, in exact arithmetic and in binary64
    alike (the hidden-chunk count is the quotient 150/100 rounded down,
    so the last 50 units are never sliced).  TWAP with its default 12
    slices on a parent order of 100 units over 12 bars returns 12 slices
    whose binary64 sum is the float just below 100. *)
Theorem slices_do_not_add_up :
  (∃ slices,
     iceberg_execute Scenarios.iceberg_default (Scenarios.parent (250 : Q))
       (Scenarios.window 1) = Ok slices ∧
     slices.*1 = [100; 100] ∧
     total_sliced slices == 200 ∧
     ¬ total_sliced slices == quantity (Scenarios.parent (250 : Q))) ∧
  (∃ slices : list (Slice float),
     iceberg_execute Scenarios.iceberg_default (Scenarios.parent 250%float)
       (Scenarios.window 1) = Ok slices ∧
     slices.*1 = [100%float; 100%float] ∧
     total_sliced slices = 200%float) ∧
  (∃ slices : list (Slice float),
     twap_execute TWAP_default (Scenarios.parent 100%float)
       (Scenarios.window 12) = Ok slices ∧
     length slices = 12%nat ∧
     total_sliced slices = PrimFloat.next_down 100%float ∧
     PrimFloat.eqb (total_sliced slices) 100%float = false).
Proof.
  split; [|split].
  - vm_compute. eexists. split; [reflexivity|]. split; [reflexivity|].
    split; [reflexivity|]. discriminate.
  - vm_compute. eexists. split; [reflexivity|]. by split.
  - vm_compute. eexists. split; [reflexivity|]. by repeat split.
Qed.
End Exact.

(** C10, at the failing inputs.  In binary64 a positive quantity, a
    non-empty window with a positive average volume and a positive
    rate do not make ParticipateStrategy.execute terminate: for a
    parent order of 1e16 units, one bar of volume 10 and the default
    rate 0.10 the chunk is 1.0, subtracting it leaves the remaining
    quantity at 1e16, and no number of loop tests suffices.  Nor do
    the slices of a call that returns sum to the parent quantity: 3
    units against one bar of volume 1 are cut into 30 slices whose sum
    is 2.9999999999999996 when they are added in order as floats, and
    less than 3 when they are added exactly.  In exact arithmetic the
    same call returns 30 slices that sum to 3. *)
Theorem participate_never_returns :
  (let s := Scenarios.participate_default (F := float) in
   let order := Scenarios.parent (of_Z (10 ^ 16)) in
   let market_data := Scenarios.one_bar (of_Z 10) in
   float_value (quantity order) = Some (10 ^ 16)%Q ∧
   fgtb (quantity order) fzero = true ∧
   market_data ≠ [] ∧
   fgtb (mean_volume (tail 20 market_data)) fzero = true ∧
   fgtb (participation_rate s) fzero = true ∧
   fmul (mean_volume (tail 20 market_data)) (participation_rate s)
     = 1%float ∧
   fsub (quantity order) 1%float = quantity order ∧
   ∀ fuel, participate_execute fuel s order market_data = None) ∧
  (let s := Scenarios.participate_default (F := float) in
   let order := Scenarios.parent (of_Z 3) in
   let market_data := Scenarios.one_bar (of_Z 1) in
   ∃ slices,
     (∀ fuel, (31 ≤ fuel)%nat →
        participate_execute fuel s order market_data = Some (Ok slices)) ∧
     length slices = 30%nat ∧
     total_sliced slices = 0x1.7ffffffffffffp+1%float ∧
     PrimFloat.ltb (total_sliced slices) (quantity order) = true ∧
     ∃ v, exact_total slices.*1 = Some v ∧ (v < 3)%Q) ∧
  (let s := Scenarios.participate_default (F := Q) in
   let order := Scenarios.parent (of_Z 3) in
   let market_data := Scenarios.one_bar (of_Z 1) in
   ∃ slices,
     (∀ fuel, (31 ≤ fuel)%nat →
        participate_execute fuel s order market_data = Some (Ok slices)) ∧
     length slices = 30%nat ∧
     (total_sliced slices == 3)%Q).
Proof.
  split; [|split].
  - intros s order market_data.
    do 7 (split; [by vm_compute|]).
    intros fuel. unfold participate_execute.
    rewrite bool_decide_eq_false_2 by done.
    replace (feqb (mean_volume (tail 20 market_data)) fzero) with false
      by (by vm_compute).
    eapply participate_loop_stuck.
    + by vm_compute.
    + by vm_compute.
    + by vm_compute.
  - intros s order market_data.
    set (d := fmul (mean_volume (tail 20 market_data)) (participation_rate s)).
    assert (Hexec : ∀ fuel, participate_execute fuel s order market_data =
              participate_loop fuel order market_data d (quantity order) []).
    { intros fuel. unfold participate_execute.
      rewrite bool_decide_eq_false_2 by done.
      by replace (feqb (mean_volume (tail 20 market_data)) fzero) with false
        by (by vm_compute). }
    set (run := participate_loop 31 order market_data d (quantity order) []).
    set (slices := match run with Some (Ok l) => l | _ => [] end).
    assert (Hrun : run = Some (Ok slices)) by (vm_compute; reflexivity).
    exists slices. split.
    { intros fuel Hfuel. rewrite Hexec.
      exact (participate_loop_mono _ _ _ 31 fuel Hfuel _ _ _ Hrun). }
    clear Hexec Hrun.
    split; [vm_compute; reflexivity|]. split; [vm_compute; reflexivity|].
    split; [vm_compute; reflexivity|].
    eexists. split; vm_compute; reflexivity.
  - intros s order market_data.
    set (d := fmul (mean_volume (tail 20 market_data)) (participation_rate s)).
    assert (Hexec : ∀ fuel, participate_execute fuel s order market_data =
              participate_loop fuel order market_data d (quantity order) []).
    { intros fuel. unfold participate_execute.
      rewrite bool_decide_eq_false_2 by done.
      by replace (feqb (mean_volume (tail 20 market_data)) fzero) with false
        by (by vm_compute). }
    set (run := participate_loop 31 order market_data d (quantity order) []).
    set (slices := match run with Some (Ok l) => l | _ => [] end).
    assert (Hrun : run = Some (Ok slices)) by (vm_compute; reflexivity).
    exists slices. split.
    { intros fuel Hfuel. rewrite Hexec.
      exact (participate_loop_mono _ _ _ 31 fuel Hfuel _ _ _ Hrun). }
    clear Hexec Hrun. split; vm_compute; reflexivity.
Qed.

End ExecutionSpec.

(** ** Risk rules *)

Module RiskSpec.
Import Portfolio Risk OrderManagementSpec.

Section Engine.
Context {F : Type} `{Arith F}.
Implicit Types (r : RiskRule F) (ctx : Context F) (todo : list (RiskRule F))
  (acc : list (Violation F)).

Lemma check_loop_spec now ctx todo acc :
  rules_after (check_loop now ctx todo acc) = rule_after now ctx <$> todo ∧
  returned (check_loop now ctx todo acc) =
    acc ++ flat_map (rule_returned now ctx) todo ∧
  caught (check_loop now ctx todo acc) = flat_map (rule_caught now ctx) todo.
Proof.
  revert acc. induction todo as [|r todo IH]; intros acc.
  - cbn. by rewrite app_nil_r.
  - cbn [check_loop fmap list_fmap flat_map].
    unfold rule_after at 1, rule_returned at 1, rule_caught at 1.
    destruct (enabled r).
    + destruct (check now ctx r) as [r' [[|]|e]]; cbn.
      * destruct (IH (acc ++ get_violations r')) as (-> & -> & ->).
        by rewrite (assoc_L (++)).
      * by destruct (IH acc) as (-> & -> & ->).
      * by destruct (IH acc) as (-> & -> & ->).
    + cbn. by destruct (IH acc) as (-> & -> & ->).
Qed.

Lemma check_rules_spec now ctx (e : RiskRulesEngine F) :
  check_rules now ctx e =
    if engine_enabled e then
      (mkEngine (rule_after now ctx <$> rules e) true,
       flat_map (rule_returned now ctx) (rules e),
       flat_map (rule_caught now ctx) (rules e))
    else (e, [], []).
Proof.
  unfold check_rules. destruct (engine_enabled e) eqn:He; [|done]. cbn.
  by destruct (check_loop_spec now ctx (rules e) []) as (-> & -> & ->).
Qed.
End Engine.

Section Exact.
Local Open Scope Q_scope.

(** C7, general part and failing input.  check_rules visits every rule:
    each enabled rule is checked and left in its state after the check,
    its violations are returned when its check returns True, and an
    exception it raises is caught and reported, independently of what
    the other rules do; with a rule that raises placed first, the
    violation of the rule behind it is still returned.  But what is
    returned for a violated rule is its whole violation list: a second
    call on the same oversized position returns the violation recorded
    by the first call again, together with the new one. *)
Theorem check_rules_returns_history :
  (∀ now ctx (e : RiskRulesEngine Q),
     check_rules now ctx e =
       if engine_enabled e then
         (mkEngine (rule_after now ctx <$> rules e) true,
          flat_map (rule_returned now ctx) (rules e),
          flat_map (rule_caught now ctx) (rules e))
       else (e, [], [])) ∧
  (let run := check_rules "t1" Scenarios.oversized
                (Scenarios.broken_engine (F := Q)) in
   run.2 = [("Broken", NotImplementedError)] ∧
   run.1.2 = [mkViolation "MaxPositionSizeRule"
                (PositionSizeExceeds 15000 10000)
                (PositionSizeDetails "AAPL" 15000) "t1"]) ∧
  (let first := check_rules "t1" Scenarios.oversized
                  (Scenarios.size_engine (F := Q)) in
   let second := check_rules "t2" Scenarios.oversized first.1.1 in
   let v1 := mkViolation "MaxPositionSizeRule"
               (PositionSizeExceeds 15000 10000)
               (PositionSizeDetails "AAPL" 15000) "t1" in
   let v2 := mkViolation "MaxPositionSizeRule"
               (PositionSizeExceeds 15000 10000)
               (PositionSizeDetails "AAPL" 15000) "t2" in
   first.1.2 = [v1] ∧
   newly_recorded (rules first.1.1) (rules second.1.1) = [v2] ∧
   second.1.2 = [v1; v2]).
Proof.
  split; [apply check_rules_spec|]. by vm_compute.
Qed.

(** *** MaxDrawdownRule *)

(** MaxDrawdownRule in exact arithmetic.  A check on a context with a
    portfolio value moves the peak to the larger of the old peak and the value, and
    reports a violation, adding exactly one violation record, exactly
    when the peak is positive and (peak - value)/peak * 100 exceeds
    max_drawdown_percent.  On the values 100000, 95000, 89000 at a
    threshold of 10 the first two checks return False and record nothing
    and the third returns True with one violation recorded. *)
Theorem max_drawdown_check_spec :
  (∀ now nm en vs (max_dd peak current value : Q) ps sym tp pos,
     let r := mkRule nm en vs (MaxDrawdownRule max_dd peak current) in
     let ctx := mkContext ps sym tp (Some value) pos in
     let peak' := if Qltb peak value then value else peak in
     let drawdown := (peak' - value) / peak' * 100 in
     let violated := Qltb 0 peak' && Qltb max_dd drawdown in
     check now ctx r =
       (mkRule nm en
          (vs ++ if violated
                 then [mkViolation nm (DrawdownExceeds drawdown max_dd)
                         (DrawdownDetails peak' value drawdown) now]
                 else [])
          (MaxDrawdownRule max_dd peak' value),
        Ok violated) ∧
     peak <= peak' ∧ value <= peak' ∧ (peak' = peak ∨ peak' = value) ∧
     (violated = true ↔ 0 < peak' ∧ max_dd < drawdown)) ∧
  ((Scenarios.drawdown_1 (F := Q)).2 = Ok false ∧
   (Scenarios.drawdown_2 (F := Q)).2 = Ok false ∧
   violations (Scenarios.drawdown_2 (F := Q)).1 = [] ∧
   (Scenarios.drawdown_3 (F := Q)).2 = Ok true ∧
   length (violations (Scenarios.drawdown_3 (F := Q)).1) = 1%nat).
Proof.
  split; [|by vm_compute].
  intros now nm en vs max_dd peak current value ps sym tp pos r ctx peak'
    drawdown violated.
  split; [|split; [|split; [|split]]].
  - unfold check, r. cbn [kind]. unfold check_max_drawdown, ctx.
    cbn [portfolio_value]. exact_arith. fold peak'. subst violated.
    destruct (Qltb 0 peak') eqn:Hp; cbn [andb].
    + assert (Hnz : Qeq_bool peak' 0 = false).
      { apply not_true_iff_false. intros E%Qeq_bool_iff.
        apply Qltb_true in Hp. lra. }
      unfold py_div. exact_arith. rewrite Hnz.
      change (inject_Z 100) with 100. fold drawdown.
      destruct (Qltb max_dd drawdown); [done|].
      unfold with_kind. cbn. by rewrite app_nil_r.
    + unfold with_kind. cbn. by rewrite app_nil_r.
  - subst peak'. destruct (Qltb peak value) eqn:E.
    + apply Qltb_true in E. lra.
    + lra.
  - subst peak'. destruct (Qltb peak value) eqn:E.
    + lra.
    + apply Qltb_false in E. lra.
  - subst peak'. destruct (Qltb peak value); auto.
  - subst violated. rewrite andb_true_iff, !Qltb_true. tauto.
Qed.

(** The same three observations evaluated in binary64. *)
Example max_drawdown_scenario_binary64 :
  (Scenarios.drawdown_1 (F := float)).2 = Ok false ∧
  (Scenarios.drawdown_2 (F := float)).2 = Ok false ∧
  (Scenarios.drawdown_3 (F := float)).2 = Ok true ∧
  length (violations (Scenarios.drawdown_3 (F := float)).1) = 1%nat.
Proof. by vm_compute. Qed.
End Exact.

(** A positive number is not zero, in exact arithmetic and in
    binary64. *)
Lemma positive_nonzero_Q (x : Q) :
  fgtb x fzero = true → feqb x fzero = false.
Proof.
  intros Hp. apply not_true_iff_false. intros E%Qeq_bool_iff.
  apply Qltb_true in Hp. change (x == 0)%Q in E. change (0 < x)%Q in Hp. lra.
Qed.

Lemma positive_nonzero_float (x : float) :
  fgtb x fzero = true → feqb x fzero = false.
Proof.
  unfold fgtb, fzero. cbn [fltb feqb of_Z float_arith float_of_Z].
  rewrite FloatAxioms.ltb_spec, FloatAxioms.eqb_spec.
  destruct (Prim2SF x) as [s|s| |s m e]; try destruct s; cbn; try done.
Qed.

(** C5, at the failing input.  In every arithmetic in which a positive
    number is not zero, as in exact arithmetic and in binary64, a check
    of MaxDrawdownRule on a context with a portfolio value moves the
    peak to the larger of the old peak and the value, and returns True
    and adds one violation record exactly when the peak is positive and
    the drawdown the code has computed, (peak - value)/peak * 100 in
    that arithmetic, exceeds max_drawdown_percent.  In binary64 that
    number is not the drawdown:
    at a threshold of 7, after a peak of 100000, the value 93000 is a
    drawdown of exactly 7, which does not exceed the threshold, but the
    code computes 7.000000000000001, returns True and records a
    violation; in exact arithmetic the same check returns False and
    records nothing.  On the values 100000, 95000, 89000 at a
    threshold of 10 the checks return False, False and True with one
    violation recorded, in binary64 too. *)
Theorem max_drawdown_fires_at_threshold :
  (∀ (F : Type) (HF : Arith F) now nm en vs (max_dd peak current value : F)
     ps sym tp pos,
     let r := mkRule nm en vs (MaxDrawdownRule max_dd peak current) in
     let ctx := mkContext ps sym tp (Some value) pos in
     let peak' := if fgtb value peak then value else peak in
     let drawdown := fmul (fdiv (fsub peak' value) peak') (of_Z 100) in
     let violated := fgtb peak' fzero && fgtb drawdown max_dd in
     (∀ x : F, fgtb x fzero = true → feqb x fzero = false) →
     check now ctx r =
       (mkRule nm en
          (vs ++ if violated
                 then [mkViolation nm (DrawdownExceeds drawdown max_dd)
                         (DrawdownDetails peak' value drawdown) now]
                 else [])
          (MaxDrawdownRule max_dd peak' value),
        Ok violated)) ∧
  ((∀ x : Q, fgtb x fzero = true → feqb x fzero = false) ∧
   (∀ x : float, fgtb x fzero = true → feqb x fzero = false)) ∧
  ((Scenarios.at_threshold_1 (F := float)).2 = Ok false ∧
   violations (Scenarios.at_threshold_1 (F := float)).1 = [] ∧
   (Scenarios.at_threshold_2 (F := float)).2 = Ok true ∧
   violations (Scenarios.at_threshold_2 (F := float)).1
     = [mkViolation "MaxDrawdownRule"
          (DrawdownExceeds 0x1.c000000000001p+2 7)
          (DrawdownDetails 100000 93000 0x1.c000000000001p+2) "t2"]%float ∧
   PrimFloat.ltb 7 0x1.c000000000001p+2 = true) ∧
  ((Scenarios.at_threshold_1 (F := Q)).2 = Ok false ∧
   (Scenarios.at_threshold_2 (F := Q)).2 = Ok false ∧
   violations (Scenarios.at_threshold_2 (F := Q)).1 = [] ∧
   ((100000 - 93000) / 100000 * 100 == 7)%Q) ∧
  ((Scenarios.drawdown_1 (F := float)).2 = Ok false ∧
   (Scenarios.drawdown_2 (F := float)).2 = Ok false ∧
   violations (Scenarios.drawdown_2 (F := float)).1 = [] ∧
   (Scenarios.drawdown_3 (F := float)).2 = Ok true ∧
   length (violations (Scenarios.drawdown_3 (F := float)).1) = 1%nat).
Proof.
  split; [|split; [|by vm_compute]];
    [|split; [apply positive_nonzero_Q|apply positive_nonzero_float]].
  intros F HF now nm en vs max_dd peak current value ps sym tp pos r ctx peak'
    drawdown violated Hdiv.
  unfold check, r. cbn [kind]. unfold check_max_drawdown, ctx.
  cbn [portfolio_value]. fold peak'. subst violated.
  destruct (fgtb peak' fzero) eqn:Hp; cbn [andb].
  - unfold py_div. rewrite (Hdiv _ Hp). fold drawdown.
    destruct (fgtb drawdown max_dd); [done|].
    unfold with_kind. cbn. by rewrite app_nil_r.
  - unfold with_kind. cbn. by rewrite app_nil_r.
Qed.

End RiskSpec.

(** ** Positions *)

Module PortfolioSpec.
Import Portfolio OrderManagementSpec.

Section Generic.
Context {F : Type} `{Arith F}.
Implicit Types (pm : PositionManager F) (p : Position F).

(** The positions [get_all_positions] lists are those stored under some
    symbol. *)
Lemma elem_of_get_all_positions pm p :
  p ∈ get_all_positions pm ↔ ∃ k, positions pm !! k = Some p.
Proof.
  unfold get_all_positions. rewrite list_elem_of_fmap. split.
  - intros ([k p'] & -> & Hin). exists k. by apply elem_of_map_to_list.
  - intros (k & Hk). exists (k, p). split; [done|].
    by apply elem_of_map_to_list.
Qed.
End Generic.

Section Exact.
Implicit Types (pm : PositionManager Q) (p : Position Q).
Local Open Scope Q_scope.

(** C6: close_position on a symbol without a position returns 0 and
    changes nothing.  On an open position it returns
    (exit - entry) * quantity when the position's side is buy and
    (entry - exit) * |quantity| otherwise, adds exactly that amount to
    the current capital, appends one trade-log entry and removes the
    position from the map, so that get_all_positions lists exactly the
    positions of the other symbols.  A long position of 10 units entered
    at 150 and closed at 160 returns 100 and leaves no position; the
    short position of the same size closed at 140 returns 100 as well. *)
Theorem close_position_spec :
  (∀ now sym (exit_price : Q) pm,
     positions pm !! sym = None →
     close_position now sym exit_price pm = (pm, 0)) ∧
  (∀ now sym (exit_price : Q) pm p,
     positions pm !! sym = Some p →
     let pl :=
       if String.eqb (side_of p) "buy"
       then (exit_price - avg_entry_price p) * quantity p
       else (avg_entry_price p - exit_price) * Qabs (quantity p) in
     ∃ pm',
       close_position now sym exit_price pm = (pm', pl) ∧
       current_capital pm' = current_capital pm + pl ∧
       positions pm' = delete sym (positions pm) ∧
       get_position pm' sym = None ∧
       (∀ p', p' ∈ get_all_positions pm' ↔
              ∃ k, k ≠ sym ∧ positions pm !! k = Some p') ∧
       length (trades pm') = S (length (trades pm))) ∧
  (let closed := close_position "t1" "AAPL" 160 Scenarios.long_aapl in
   closed.2 = 100 ∧ get_all_positions closed.1 = [] ∧
   current_capital closed.1 == 100100) ∧
  (let closed := close_position "t1" "AAPL" 140 Scenarios.short_aapl in
   closed.2 = 100 ∧ get_all_positions closed.1 = []).
Proof.
  split; [|split; [|by vm_compute]].
  - intros now sym exit_price pm Hn. unfold close_position. by rewrite Hn.
  - intros now sym exit_price pm p Hp pl.
    unfold close_position. rewrite Hp. exact_arith. fold pl.
    eexists. split; [reflexivity|]. cbn.
    split; [done|]. split; [done|].
    split; [apply lookup_delete_eq|]. split.
    + intros p'. rewrite elem_of_get_all_positions. cbn. split.
      * intros (k & Hk). apply lookup_delete_Some in Hk as [Hne Hk]. eauto.
      * intros (k & Hne & Hk). exists k. by rewrite lookup_delete_ne.
    + rewrite length_app. cbn. lia.
Qed.

(** C6, witness: closing the long position of [long_aapl]. *)
Lemma close_position_spec_witness :
  let pm := Scenarios.long_aapl (F := Q) in
  let p := mkPosition "AAPL" 10 150 150 STOCK 0 None None (Some "buy") in
  positions pm !! "AAPL" = Some p ∧
  ∃ pm', close_position "t1" "AAPL" 160 pm = (pm', (160 - 150) * 10) ∧
         current_capital pm' = current_capital pm + (160 - 150) * 10 ∧
         get_position pm' "AAPL" = None.
Proof.
  intros pm p.
  assert (Hp : positions pm !! "AAPL" = Some p) by (vm_compute; reflexivity).
  split; [exact Hp|].
  destruct (proj1 (proj2 close_position_spec) "t1" "AAPL" 160 pm p Hp)
    as (pm' & Hrun & Hcap & _ & Hgone & _).
  by exists pm'.
Defined.

(** The long position closed at 160.0, evaluated in binary64. *)
Example close_position_scenario_binary64 :
  let closed := close_position "t1" "AAPL" 160%float
                  (Scenarios.long_aapl (F := float)) in
  closed.2 = 100%float ∧ get_all_positions closed.1 = [] ∧
  current_capital closed.1 = 100100%float.
Proof. by vm_compute. Qed.
End Exact.

End PortfolioSpec.

(** ** Order management: ids, lifecycle and the fill log *)

#[local] Set Warnings "-clear-no-such-hyp".

Module OrderLifecycleSpec.
Import Stdlib.Strings.Ascii.
Import OrderManagement OrderQueries OrderManagementSpec.

(** *** Order ids *)

(** The decimal of a positive number does not start with the digit 0. *)
Lemma pretty_N_go_head x s :
  (0 < x)%N → ∃ c r, pretty_N_go x s = String c r ∧ c ≠ "0"%char.
Proof.
  revert s. induction (N.lt_wf_0 x) as [x _ IH]; intros s Hx.
  rewrite pretty_N_go_step by done.
  destruct (decide (x `div` 10 = 0)%N) as [Hd|Hd].
  - rewrite Hd, pretty_N_go_0. eexists _, _. split; [done|].
    assert (x `mod` 10 ≠ 0)%N as Hm.
    { apply N.div_small_iff in Hd; [|done].
      rewrite N.mod_small by done. lia. }
    unfold pretty_N_char. by repeat case_match.
  - apply IH; [apply N.div_lt; lia | by apply N.neq_0_lt_0].
Qed.

Lemma pretty_nat_head (n : nat) :
  0 < n → ∃ c r, pretty n = String c r ∧ c ≠ "0"%char.
Proof.
  intros Hn. unfold pretty, pretty_nat, pretty, pretty_N.
  rewrite decide_False by lia. apply pretty_N_go_head. lia.
Qed.

Lemma zeros_succ k :
  String.concat EmptyString (replicate (S k) "0")
  = String "0" (String.concat EmptyString (replicate k "0")).
Proof. by destruct k. Qed.

(** Padding with zeros can be undone on a string with another first
    character. *)
Lemma zeros_app_inj k1 k2 c1 r1 c2 r2 :
  c1 ≠ "0"%char → c2 ≠ "0"%char →
  String.concat EmptyString (replicate k1 "0") +:+ String c1 r1
  = String.concat EmptyString (replicate k2 "0") +:+ String c2 r2 →
  String c1 r1 = String c2 r2.
Proof.
  intros H1 H2. revert k2.
  induction k1 as [|k1 IH]; intros [|k2]; rewrite ?zeros_succ; cbn.
  - done.
  - intros [= -> _]. done.
  - intros [= <- _]. done.
  - intros [= Heq]. by apply (IH k2).
Qed.

Lemma order_id_inj n1 n2 :
  0 < n1 → 0 < n2 → order_id n1 = order_id n2 → n1 = n2.
Proof.
  intros H1 H2. unfold order_id, zero_pad. cbn. intros [= Heq].
  destruct (pretty_nat_head n1 H1) as (c1 & r1 & E1 & Hc1).
  destruct (pretty_nat_head n2 H2) as (c2 & r2 & E2 & Hc2).
  rewrite E1, E2 in Heq. apply zeros_app_inj in Heq; [|done..].
  apply (inj pretty). by rewrite E1, E2.
Qed.

Section Transitions.
Context {F : Type} {HF : Arith F}.
Implicit Types (m : OrderManager F) (o : Order F).

Lemma manager_eta m :
  mkOrderManager (orders m) (fills m) (active_orders m) (order_counter m)
    (on_order_status_change m) (on_fill m) (on_error m) = m.
Proof. by destruct m. Qed.

Lemma modify_order_eq m oid qty px :
  modify_order oid qty px m =
    if bool_decide (oid ∈ active_orders m) then
      match orders m !! oid with
      | None => (Raise KeyError, m, [])
      | Some o =>
          if is_active o then
            (Ok true,
             mkOrderManager (<[oid := modified qty px o]> (orders m))
               (fills m) (active_orders m) (order_counter m)
               (on_order_status_change m) (on_fill m) (on_error m), [])
          else (Ok false, m, [])
      end
    else (Ok false, m, []).
Proof.
  unfold modify_order. rewrite bind_get.
  destruct (bool_decide (oid ∈ active_orders m)); cbn [negb]; [|done].
  unfold active_lookup. rewrite bind_assoc, bind_get.
  destruct (orders m !! oid) as [o|] eqn:Ho; [|done].
  rewrite bind_ret. destruct (is_active o); cbn [negb]; [|done].
  destruct qty as [qv|], px as [pv|];
    repeat first [rewrite bind_mutate | rewrite bind_ret];
    unfold ret, with_orders, modified; cbn.
  - rewrite alter_alter_eq. by rewrite (alter_present _ _ _ _ Ho).
  - by rewrite (alter_present _ _ _ _ Ho).
  - by rewrite (alter_present _ _ _ _ Ho).
  - by rewrite insert_id, manager_eta.
Qed.

(** Every call takes one of the steps of [transition]. *)
Lemma after_transition (c : Call) m :
  transition m (is_client_call c) (after c m).
Proof.
  unfold after. destruct c as [now sym sd ty qty px spx tif|oid|oid qty px
    |now oid q p fe|oid s|ty cb]; cbn [call is_client_call].
  - rewrite bind_ret_tt_state, create_order_eq. cbn. apply t_create.
  - rewrite bind_ret_tt_state.
    destruct (decide (oid ∈ active_orders m)) as [Ha|Hn];
      [|rewrite cancel_order_inactive by done; apply t_none].
    destruct (orders m !! oid) as [o|] eqn:Ho;
      [|rewrite cancel_order_dangling by done; apply t_none].
    rewrite (cancel_order_active _ _ _ Ha Ho).
    destruct (status o) eqn:Hs;
      first [ apply t_none | by eapply t_cancel; [..|rewrite Hs] ].
  - rewrite bind_ret_tt_state, modify_order_eq.
    destruct (bool_decide (oid ∈ active_orders m)) eqn:Ha; [|apply t_none].
    apply bool_decide_eq_true in Ha.
    destruct (orders m !! oid) as [o|] eqn:Ho; [|apply t_none].
    destruct (is_active o) eqn:Hact; [|apply t_none].
    by apply t_modify.
  - rewrite bind_ret_tt_state.
    destruct (orders m !! oid) as [o|] eqn:Ho;
      [|rewrite process_fill_failure by auto; apply t_none].
    destruct (is_active o) eqn:Ha;
      [|rewrite process_fill_failure by eauto; apply t_none].
    destruct (fleb (py_min q (unfilled_quantity o)) fzero) eqn:Hd;
      [rewrite process_fill_failure by eauto; apply t_none|].
    destruct (feqb (fadd (filled_quantity o) (py_min q (unfilled_quantity o)))
                fzero) eqn:Hz.
    + rewrite (process_fill_raise _ _ _ _ _ _ _ Ho Ha Hd Hz). cbn.
      unfold with_orders. rewrite (alter_present _ _ _ _ Ho).
      by apply t_fill_raise.
    + rewrite (process_fill_success _ _ _ _ _ _ _ Ho Ha Hd Hz). cbn.
      by apply t_fill.
  - rewrite update_status_state. cbn.
    destruct (orders m !! oid) as [o|] eqn:Ho.
    + unfold with_orders. rewrite (alter_present _ _ _ _ Ho).
      by apply t_status.
    + unfold with_orders. rewrite (alter_absent _ _ _ Ho), manager_eta.
      apply t_none.
  - unfold register_callback, modify. cbn.
    repeat destruct (String.eqb _ _); first [apply t_register | apply t_none].
Qed.

Lemma client_reachable_reachable m : client_reachable m → reachable m.
Proof. induction 1; by constructor. Qed.

(** *** The stored ids *)

Lemma insert_stored (os : gmap string (Order F)) oid o o' :
  os !! oid = Some o →
  (∀ k, is_Some (<[oid := o']> os !! k) ↔ is_Some (os !! k)) ∧
  size (<[oid := o']> os) = size os.
Proof.
  intros Ho. split.
  - intros k. rewrite lookup_insert_is_Some'. split; [|tauto].
    intros [->|?]; [by rewrite Ho|done].
  - by apply map_size_insert_Some.
Qed.

Lemma ids_numbered_fresh m : ids_numbered m → orders m !! next_id m = None.
Proof.
  intros Hids. apply eq_None_not_Some. intros (c & Hc & Heq)%Hids.
  apply order_id_inj in Heq; lia.
Qed.

Lemma transition_ids m b m' :
  transition m b m' →
  ids_numbered m ∧ size (orders m) = order_counter m →
  ids_numbered m' ∧ size (orders m') = order_counter m'.
Proof.
  intros Ht [Hids Hsz].
  destruct Ht as [| ? now sym sd ty qty px spx tif
                  | ? oid o _ Ho _ | ? oid o qty px _ Ho _
                  | ? now oid o q p fe Ho _ _ _ | ? oid o q Ho _ _ _
                  | oid o s Ho | ];
    unfold ids_numbered; cbn [orders order_counter]; try done;
    try (split;
         [intros k; rewrite (proj1 (insert_stored _ _ _ _ Ho)); apply Hids
         |by rewrite (proj2 (insert_stored _ _ _ _ Ho))]).
  pose proof (ids_numbered_fresh m Hids) as Hfresh. split.
  - intros k. rewrite lookup_insert_is_Some'. split.
    + intros [<-|(c & Hc & ->)%Hids].
      * exists (S (order_counter m)). split; [lia|done].
      * exists c. split; [lia|done].
    + intros (c & Hc & ->).
      destruct (decide (c = S (order_counter m))) as [->|Hne]; [by left|].
      right. apply Hids. exists c. split; [lia|done].
  - rewrite map_size_insert_None by done. by rewrite Hsz.
Qed.

Lemma reachable_ids m :
  reachable m → ids_numbered m ∧ size (orders m) = order_counter m.
Proof.
  induction 1 as [|c m _ IH].
  - split; [|done]. intros k. cbn. rewrite lookup_empty. split.
    + by intros [? ?].
    + intros (c & Hc & _). lia.
  - exact (transition_ids _ _ _ (after_transition c m) IH).
Qed.

(** *** The lifecycle under client calls *)

Lemma status_modified qty px o : status (modified qty px o) = status o.
Proof. by destruct qty, px. Qed.

Lemma is_active_modified qty px o :
  is_active (modified qty px o) = is_active o.
Proof. unfold is_active. by rewrite status_modified. Qed.

Lemma open_status o :
  client_status (status o) = true → is_active o = true →
  status o = NEW ∨ status o = PARTIALLY_FILLED.
Proof. unfold is_active. destruct (status o); cbn; auto; discriminate. Qed.

Lemma transition_lifecycle m b m' :
  transition m b m' → b = true → orders m !! next_id m = None →
  active_consistent m ∧ statuses_ok m →
  active_consistent m' ∧ statuses_ok m'.
Proof.
  intros Ht Hb Hfresh [Hac Hst].
  destruct Ht as [| ? now sym sd ty qty px spx tif
                  | ? oid o Hin Ho Hterm | ? oid o qty px Hin Ho Hact
                  | ? now oid o q p fe Ho Hact _ _ | ? oid o q Ho Hact _ _
                  | oid o s Ho | ];
    try discriminate; try done;
    unfold active_consistent, statuses_ok; cbn [orders active_orders];
    (split; [intros k | intros k o']);
    (destruct (decide (oid = k)) as [<-|Hne] ||
     destruct (decide (next_id m = k)) as [<-|Hne] || idtac);
    rewrite ?lookup_insert_eq, ?lookup_insert_ne by done;
    try (by apply Hst); try (by apply Hac).
  - (* create, the new order *)
    split; [intros _; by eexists|set_solver].
  - rewrite elem_of_union, elem_of_singleton, (Hac k). naive_solver.
  - by intros [= <-].
  - (* cancel *)
    split; [set_solver|]. by intros (? & [= <-] & ?).
  - rewrite elem_of_difference, elem_of_singleton, (Hac k). naive_solver.
  - by intros [= <-].
  - (* modify *)
    split; [intros _; eexists; split; [done|]|done].
    by rewrite is_active_modified.
  - intros [= <-]. rewrite status_modified. by apply (Hst oid).
  - (* fill *)
    assert (oid ∈ active_orders m) as Hin by (apply Hac; eauto).
    unfold after_fill.
    destruct (fgeb _ _); (split; [|intros (? & [= <-] & Ha)]);
      first [set_solver | done | intros _; by eexists].
  - destruct (fgeb _ _); [|by apply Hac].
    rewrite elem_of_difference, elem_of_singleton, (Hac k). naive_solver.
  - intros [= <-]. unfold after_fill. by destruct (fgeb _ _).
  - (* a fill that raised *)
    split; [intros _; by eexists|]. intros _. apply Hac. eauto.
  - intros [= <-]. cbn. by apply (Hst oid).
Qed.

Lemma client_reachable_lifecycle m :
  client_reachable m → active_consistent m ∧ statuses_ok m.
Proof.
  induction 1 as [|c m Hc Hm IH].
  - split; [intros k|intros k o]; cbn; [|by rewrite lookup_empty].
    split; [set_solver|]. intros (o & Ho & _). by rewrite lookup_empty in Ho.
  - apply (transition_lifecycle m _ _ (after_transition c m) Hc); [|done].
    apply ids_numbered_fresh, reachable_ids.
    by apply client_reachable_reachable.
Qed.

(** What a step does to a stored order. *)
Lemma transition_order m b m' k o :
  transition m b m' → b = true → orders m !! next_id m = None →
  statuses_ok m → orders m !! k = Some o →
  ∃ o', orders m' !! k = Some o' ∧
        lifecycle_edge (status o) (status o') = true ∧
        (is_active o = false → o' = o) ∧
        id o' = id o ∧ symbol o' = symbol o ∧ side o' = side o.
Proof.
  intros Ht Hb Hfresh Hst Hk.
  assert (lifecycle_edge (status o) (status o) = true) as Hrefl.
  { specialize (Hst _ _ Hk). by destruct (status o). }
  destruct Ht as [| ? now sym sd ty qty px spx tif
                  | ? oid o0 Hin Ho Hterm | ? oid o0 qty px Hin Ho Hact
                  | ? now oid o0 q p fe Ho Hact _ _ | ? oid o0 q Ho Hact _ _
                  | oid o0 s Ho | ];
    try discriminate; cbn [orders]; try (by exists o);
    (destruct (decide (oid = k)) as [<-|Hne] ||
     destruct (decide (next_id m = k)) as [<-|Hne]);
    rewrite ?lookup_insert_eq, ?lookup_insert_ne by done;
    try (by exists o); try congruence;
    assert (o0 = o) as -> by congruence;
    (eexists; split; [done|]).
  - (* cancel *)
    pose proof (Hst _ _ Hk) as Hs. unfold is_active. cbn.
    destruct (status o); cbn in *; try discriminate; done.
  - (* modify *)
    rewrite status_modified. split; [done|]. split; [congruence|].
    by destruct qty, px.
  - (* fill *)
    destruct (open_status o (Hst _ _ Hk) Hact) as [Hs|Hs];
      unfold after_fill; cbn; rewrite Hs;
      destruct (fgeb _ _); (split; [done|]); (split; [congruence|done]).
  - (* a fill that raised *)
    cbn. split; [done|]. split; [congruence|done].
Qed.

(** X1: on a manager reached through the API, [create_order] returns
    an order under an id no stored order has: the order is stored and
    active, every earlier order is kept as it was, and the store grows
    by one. *)
Theorem create_order_fresh_id now sym sd ty qty px spx tif m :
  reachable m →
  ∃ o m' tr,
    create_order now sym sd ty qty px spx tif m = (Ok o, m', tr) ∧
    id o = order_id (S (order_counter m)) ∧
    orders m !! id o = None ∧
    orders m' !! id o = Some o ∧ id o ∈ active_orders m' ∧
    (∀ k o0, orders m !! k = Some o0 → orders m' !! k = Some o0) ∧
    size (orders m') = S (size (orders m)).
Proof.
  intros Hm. pose proof (ids_numbered_fresh m (proj1 (reachable_ids m Hm)))
    as Hfresh.
  rewrite create_order_eq. eexists _, _, _. split; [done|].
  cbn [id created orders active_orders].
  split; [done|]. split; [done|].
  split; [by rewrite lookup_insert_eq|]. split; [set_solver|]. split.
  - intros k o0 Hk. rewrite lookup_insert_ne; [done|]. congruence.
  - by rewrite map_size_insert_None.
Qed.

(** X2: on a manager reached through the API, the stored ids are the
    ids ORDER_000001, ORDER_000002, ... of the orders created so far, so
    [get_order] finds the order numbered [n] exactly when
    [1 <= n <= order_counter], and [get_portfolio_summary] reports
    [order_counter] total orders and at most as many active ones. *)
Theorem order_ids_numbered m :
  reachable m →
  (∀ n, 0 < n →
        (is_Some (get_order m (order_id n)) ↔ n ≤ order_counter m)) ∧
  (∀ k, is_Some (get_order m k) → ∃ n, 0 < n ∧ k = order_id n) ∧
  summary_total_orders (get_portfolio_summary m) = order_counter m ∧
  summary_active_orders (get_portfolio_summary m)
    ≤ summary_total_orders (get_portfolio_summary m).
Proof.
  intros Hm. destruct (reachable_ids m Hm) as [Hids Hsz].
  unfold get_order. cbn. split; [|split; [|split; [done|]]].
  - intros n Hn. split.
    + intros (c & Hc & Heq)%Hids. apply order_id_inj in Heq; lia.
    + intros Hle. apply Hids. exists n. split; [lia|done].
  - intros k (c & Hc & ->)%Hids. exists c. split; [lia|done].
  - rewrite <-(size_dom (D := gset string) (orders m)).
    apply subseteq_size. intros k Hk. apply elem_of_dom.
    by apply reachable_active_stored.
Qed.

(** X3: under client calls, the active orders are exactly the stored
    orders whose status is NEW or PARTIALLY_FILLED. *)
Theorem active_orders_are_open m :
  client_reachable m →
  ∀ o, o ∈ get_active_orders m ↔
       ∃ k, orders m !! k = Some o ∧
            (status o = NEW ∨ status o = PARTIALLY_FILLED).
Proof.
  intros Hm o. destruct (client_reachable_lifecycle m Hm) as [Hac Hst].
  unfold get_active_orders. rewrite list_elem_of_omap. split.
  - intros (k & Hk%elem_of_elements & Ho). exists k. split; [done|].
    apply Hac in Hk as (o' & Ho' & Ha).
    assert (o' = o) as -> by congruence.
    apply open_status; [by apply (Hst k)|done].
  - intros (k & Ho & Hs). exists k. split; [|done].
    apply elem_of_elements, Hac. exists o. split; [done|].
    unfold is_active. by destruct Hs as [->| ->].
Qed.

(** X4: under client calls an order keeps its id, symbol and side, its
    status moves only along NEW -> PARTIALLY_FILLED -> FILLED or from
    the first two to CANCELLED, and a filled or cancelled order is
    never changed again. *)
Theorem client_call_lifecycle (c : Call) m k o :
  client_reachable m → is_client_call c = true →
  orders m !! k = Some o →
  ∃ o', orders (after c m) !! k = Some o' ∧
        lifecycle_edge (status o) (status o') = true ∧
        (status o = FILLED ∨ status o = CANCELLED → o' = o) ∧
        id o' = id o ∧ symbol o' = symbol o ∧ side o' = side o.
Proof.
  intros Hm Hc Hk.
  destruct (client_reachable_lifecycle m Hm) as [Hac Hst].
  assert (orders m !! next_id m = None) as Hfresh.
  { apply ids_numbered_fresh, reachable_ids.
    by apply client_reachable_reachable. }
  destruct (transition_order m _ _ k o (after_transition c m) Hc Hfresh
              Hst Hk) as (o' & Ho' & Hedge & Hterm & Hid).
  exists o'. split; [done|]. split; [done|]. split; [|done].
  intros Hs. apply Hterm. unfold is_active. by destruct Hs as [->| ->].
Qed.

End Transitions.

(** *** The fill log, in exact arithmetic *)

Section FillLog.
Implicit Types (m : OrderManager Q) (o : Order Q) (f : Fill Q).
Local Open Scope Q_scope.

Lemma py_sum_snoc (l : list Q) x : py_sum (l ++ [x]) = py_sum l + x.
Proof. unfold py_sum. by rewrite foldl_app. Qed.

Lemma fills_of_snoc (l : list (Fill Q)) f k :
  filter (λ f, fill_order_id f = k) (l ++ [f]) =
    filter (λ f, fill_order_id f = k) l ++
      (if decide (fill_order_id f = k) then [f] else []).
Proof.
  rewrite filter_app. by f_equal.
Qed.

Lemma fills_of_unknown (l : list (Fill Q)) (os : gmap string (Order Q)) k :
  (∀ f, f ∈ l → is_Some (os !! fill_order_id f)) → os !! k = None →
  filter (λ f, fill_order_id f = k) l = [].
Proof.
  intros Hl Hk. induction l as [|f l IH]; [done|].
  rewrite filter_cons, decide_False.
  - apply IH. intros f' Hf'. apply Hl. by right.
  - intros <-. destruct (Hl f) as [? ?]; [by left|congruence].
Qed.

Lemma transition_fills m b m' :
  transition m b m' → orders m !! next_id m = None → filled_nonneg m →
  fills_consistent m → fills_consistent m'.
Proof.
  intros Ht Hfresh Hnn [Hlog Hsum].
  destruct Ht as [| ? now sym sd ty qty px spx tif
                  | ? oid o Hin Ho Hterm | ? oid o qty px Hin Ho Hact
                  | ? now oid o q p fe Ho Hact Hd Hz | ? oid o q Ho Hact Hd Hz
                  | oid o s Ho | ]; [done| | | | | | |done].
  - (* create *)
    split; cbn [orders fills].
    + intros f Hf. destruct (Hlog f Hf) as [Hs Hv]. split; [|done].
      rewrite lookup_insert_is_Some'. by right.
    + intros k o'. unfold filled_by_fills, value_by_fills, get_fills_for_order.
      cbn [fills]. destruct (decide (next_id m = k)) as [<-|Hne].
      * rewrite lookup_insert_eq. intros [= <-].
        rewrite (fills_of_unknown _ (orders m)); [|apply Hlog|done].
        cbn. exact_arith. split; [reflexivity|ring].
      * rewrite lookup_insert_ne by done. apply Hsum.
  - (* cancel *)
    split; cbn [orders fills].
    + intros f Hf. destruct (Hlog f Hf) as [Hs Hv]. split; [|done].
      rewrite lookup_insert_is_Some'. by right.
    + intros k o'. destruct (decide (oid = k)) as [<-|Hne].
      * rewrite lookup_insert_eq. intros [= <-]. exact (Hsum oid o Ho).
      * rewrite lookup_insert_ne by done. apply Hsum.
  - (* modify *)
    split; cbn [orders fills].
    + intros f Hf. destruct (Hlog f Hf) as [Hs Hv]. split; [|done].
      rewrite lookup_insert_is_Some'. by right.
    + intros k o'. destruct (decide (oid = k)) as [<-|Hne].
      * rewrite lookup_insert_eq. intros [= <-].
        destruct qty, px; exact (Hsum oid o Ho).
      * rewrite lookup_insert_ne by done. apply Hsum.
  - (* fill *)
    split; cbn [orders fills].
    + intros f [Hf|Hf%list_elem_of_singleton]%elem_of_app.
      * destruct (Hlog f Hf) as [Hs Hv]. split; [|done].
        rewrite lookup_insert_is_Some'. by right.
      * subst f. cbn. split; [|done]. by rewrite lookup_insert_eq.
    + intros k o'. unfold filled_by_fills, value_by_fills, get_fills_for_order.
      cbn [fills]. rewrite fills_of_snoc. cbn [fill_order_id new_fill].
      destruct (decide (oid = k)) as [<-|Hne].
      * rewrite lookup_insert_eq. intros [= <-].
        destruct (Hsum oid o Ho) as [Hq Hv].
        unfold filled_by_fills, value_by_fills, get_fills_for_order in Hq, Hv.
        rewrite !fmap_app. cbn [fmap list_fmap]. rewrite !py_sum_snoc.
        cbn [fill_quantity total_value new_fill].
        unfold after_fill. cbn. exact_arith.
        apply Qeq_bool_neq in Hz. rewrite Hq, Hv. split; [reflexivity|].
        field. exact Hz.
      * rewrite lookup_insert_ne, app_nil_r by done. apply Hsum.
  - (* a fill cannot raise *)
    exfalso. specialize (Hnn oid o Ho). exact_arith.
    apply Qle_bool_false in Hd. apply Qeq_bool_iff in Hz. lra.
  - (* status *)
    split; cbn [orders fills].
    + intros f Hf. destruct (Hlog f Hf) as [Hs Hv]. split; [|done].
      rewrite lookup_insert_is_Some'. by right.
    + intros k o'. destruct (decide (oid = k)) as [<-|Hne].
      * rewrite lookup_insert_eq. intros [= <-]. exact (Hsum oid o Ho).
      * rewrite lookup_insert_ne by done. apply Hsum.
Qed.

Lemma reachable_fills m : reachable m → fills_consistent m.
Proof.
  induction 1 as [|c m Hm IH].
  - split; [intros f Hf; by apply elem_of_nil in Hf|].
    intros k o Ho. cbn in Ho. by rewrite lookup_empty in Ho.
  - apply (transition_fills m _ _ (after_transition c m)); [| |done].
    + by apply ids_numbered_fresh, reachable_ids.
    + by apply reachable_filled_nonneg.
Qed.

(** X5: on a manager reached through the API, the fills recorded for
    an order add up to its filled quantity, and their values add up to
    its average fill price times its filled quantity. *)
Theorem fills_add_up m k o :
  reachable m → get_order m k = Some o →
  py_sum (fill_quantity <$> get_fills_for_order m k) == filled_quantity o ∧
  py_sum ((λ f, fill_price f * fill_quantity f) <$> get_fills_for_order m k)
    == average_fill_price o * filled_quantity o.
Proof.
  intros Hm Ho. destruct (reachable_fills m Hm) as [Hlog Hsum].
  destruct (Hsum k o Ho) as [Hq Hv]. split; [exact Hq|].
  rewrite <-Hv. unfold value_by_fills.
  assert (total_value <$> get_fills_for_order m k =
          (λ f, fill_price f * fill_quantity f) <$> get_fills_for_order m k)
    as ->; [|reflexivity].
  apply list_fmap_ext. intros i f Hf%list_elem_of_lookup_2.
  unfold get_fills_for_order in Hf. apply list_elem_of_filter in Hf as [_ Hf].
  by apply Hlog.
Qed.

Lemma py_sum_from (a : Q) (l : list Q) : foldl Qplus a l == a + py_sum l.
Proof.
  unfold py_sum. cbn. change (inject_Z 0) with 0.
  revert a. induction l as [|x l IH]; intros a; cbn; [ring|].
  rewrite (IH (a + x)), (IH (0 + x)). ring.
Qed.

Lemma py_sum_cons (x : Q) (l : list Q) : py_sum (x :: l) == x + py_sum l.
Proof.
  unfold py_sum at 1. cbn. change (inject_Z 0) with 0.
  rewrite py_sum_from. ring.
Qed.

(** X6: the realized P&L that [get_portfolio_summary] reports is the
    value of the buy fills minus the value of the sell fills: since
    [_get_avg_cost] is 0.0, a purchase counts as a gain and a sale as a
    loss of its full value. *)
Theorem summary_realized_pnl_is_net_bought m :
  reachable m →
  summary_realized_pnl (get_portfolio_summary m)
  == traded_value BUY m - traded_value SELL m.
Proof.
  intros Hm. destruct (reachable_fills m Hm) as [Hlog _].
  unfold get_portfolio_summary, traded_value. cbn [summary_realized_pnl].
  induction (fills m) as [|f l IH]; [done|].
  rewrite !fmap_cons, !py_sum_cons, IH.
  - destruct (Hlog f) as [_ Hv]; [by left|]. rewrite Hv.
    unfold fill_pnl, _get_avg_cost. exact_arith.
    destruct (fill_side f); cbn; ring.
  - intros f' Hf'. apply Hlog. by right.
Qed.

End FillLog.

(** *** The execution handler *)

Section Handler.
Context {F : Type} {HF : Arith F}.
Implicit Types (m : OrderManager F) (o : Order F).

Lemma reject_eq m oid :
  ∃ tr, bind (_update_order_status oid REJECTED) (λ _, ret false) m =
          (Ok false, with_orders (alter (set_status REJECTED) oid) m, tr).
Proof.
  destruct (orders m !! oid) as [o|] eqn:Ho.
  - eexists. unfold bind. by rewrite (update_status_some _ _ _ _ Ho).
  - exists []. unfold bind. rewrite (update_status_none _ _ _ Ho). cbn.
    unfold with_orders. by rewrite (alter_absent _ _ _ Ho), manager_eta.
Qed.

(** X8: [execute_order] never raises, whatever the adapter answers and
    whatever its fills do to the order; it returns True only for a
    registered adapter that accepted the order, and without a
    registered adapter it leaves the manager alone. *)
Theorem execute_order_returns adapters reply o m :
  ∃ b m' tr,
    execute_order adapters reply o m = (Ok b, m', tr) ∧
    (b = true →
     _get_exchange_for_symbol (symbol o) ∈ adapters ∧
     ∃ reported, reply = Accepted reported ∧
       (process_reported (id o) reported m).1 = (Ok tt, m')) ∧
    (_get_exchange_for_symbol (symbol o) ∉ adapters →
     b = false ∧ m' = m ∧ tr = []).
Proof.
  unfold execute_order.
  destruct (decide (_get_exchange_for_symbol (symbol o) ∈ adapters))
    as [Hin|Hnin].
  - rewrite bool_decide_eq_true_2 by done. cbn [negb].
    destruct reply as [reported|].
    + destruct (process_reported (id o) reported m) as [[[[]|e] m1] t1] eqn:E.
      * eexists _, _, _. split; [done|]. split; [|done].
        intros _. split; [done|]. exists reported. by rewrite E.
      * destruct (reject_eq m1 (id o)) as [tr ->]. unfold preceded_by. cbn.
        eexists _, _, _. split; [done|]. by split.
    + destruct (reject_eq m (id o)) as [tr ->].
      eexists _, _, _. split; [done|]. by split.
  - rewrite bool_decide_eq_false_2 by done. cbn [negb]. unfold ret.
    eexists _, _, _. split; [done|]. by split.
Qed.

(** X9: an order the adapter refuses is set to REJECTED but stays in
    the active dict: it is still listed by [get_active_orders], and no
    later cancel, modification or fill takes it out. *)
Theorem execute_order_rejected_stays_active adapters o m :
  _get_exchange_for_symbol (symbol o) ∈ adapters →
  orders m !! id o = Some o → id o ∈ active_orders m →
  ∃ m' tr,
    execute_order adapters Refused o m = (Ok false, m', tr) ∧
    orders m' !! id o = Some (set_status REJECTED o) ∧
    set_status REJECTED o ∈ get_active_orders m' ∧
    cancel_order (id o) m' = (Ok false, m', []) ∧
    (∀ qty px, modify_order (id o) qty px m' = (Ok false, m', [])) ∧
    (∀ now q p fe, process_fill now (id o) q p fe m' = (Ok None, m', [])).
Proof.
  intros Hex Ho Hin. unfold execute_order.
  rewrite bool_decide_eq_true_2 by done. cbn [negb].
  destruct (reject_eq m (id o)) as [tr ->]. eexists _, _. split; [done|].
  set (m' := with_orders (alter (set_status REJECTED) (id o)) m).
  assert (orders m' !! id o = Some (set_status REJECTED o)) as Ho'.
  { unfold m'. cbn. by rewrite lookup_alter_eq, Ho. }
  assert (id o ∈ active_orders m') as Hin' by done.
  split; [done|]. split; [|split; [|split]].
  - unfold get_active_orders. apply list_elem_of_omap. exists (id o).
    split; [by apply elem_of_elements|done].
  - by rewrite (cancel_order_active _ _ _ Hin' Ho').
  - intros qty px. rewrite modify_order_eq.
    by rewrite bool_decide_eq_true_2, Ho' by done.
  - intros now q p fe. apply process_fill_failure. right.
    eexists. split; [done|]. by left.
Qed.
End Handler.

Section Witnesses.
Local Open Scope Q_scope.

(** X1, witness: the manager holding one order. *)
Lemma create_order_fresh_id_witness :
  let m := Scenarios.one_order (F := Q) in
  reachable m ∧
  ∃ o m' tr,
    create_order "t1" "MSFT" SELL MARKET 5 None None "GTC" m
      = (Ok o, m', tr) ∧
    id o = "ORDER_000002" ∧ orders m !! id o = None ∧
    size (orders m') = S (size (orders m)).
Proof.
  intros m.
  assert (Hm : reachable m) by apply reachable_call, reachable_init.
  split; [exact Hm|].
  destruct (create_order_fresh_id "t1" "MSFT" SELL MARKET 5 None None
              "GTC" m Hm)
    as (o & m' & tr & Hrun & Hid & Hfresh & _ & _ & _ & Hsz).
  by exists o, m', tr.
Defined.

(** X2, witness: the manager holding one order. *)
Lemma order_ids_numbered_witness :
  let m := Scenarios.one_order (F := Q) in
  reachable m ∧
  summary_total_orders (get_portfolio_summary m) = order_counter m.
Proof.
  intros m.
  assert (Hm : reachable m) by apply reachable_call, reachable_init.
  split; [exact Hm|].
  exact (proj1 (proj2 (proj2 (order_ids_numbered m Hm)))).
Defined.

(** X3, witness: the manager holding one order. *)
Lemma active_orders_are_open_witness :
  let m := Scenarios.one_order (F := Q) in
  client_reachable m ∧
  ∀ o, o ∈ get_active_orders m ↔
       ∃ k, orders m !! k = Some o ∧
            (status o = NEW ∨ status o = PARTIALLY_FILLED).
Proof.
  intros m.
  assert (Hm : client_reachable m)
    by (apply client_step; [reflexivity|apply client_init]).
  split; [exact Hm|].
  exact (active_orders_are_open m Hm).
Defined.

(** X4, witness: cancelling the order of the manager holding one. *)
Lemma client_call_lifecycle_witness :
  let m := Scenarios.one_order (F := Q) in
  let o := Scenarios.the_order (F := Q) in
  client_reachable m ∧
  is_client_call (F := Q) (CancelOrder "ORDER_000001") = true ∧
  orders m !! "ORDER_000001" = Some o ∧
  ∃ o', orders (after (CancelOrder "ORDER_000001") m) !! "ORDER_000001"
          = Some o' ∧
        lifecycle_edge (status o) (status o') = true.
Proof.
  intros m o.
  assert (Hm : client_reachable m)
    by (apply client_step; [reflexivity|apply client_init]).
  assert (Hc : is_client_call (F := Q) (CancelOrder "ORDER_000001") = true)
    by reflexivity.
  assert (Ho : orders m !! "ORDER_000001" = Some o).
  { unfold m, Scenarios.one_order, after. cbn [call].
    rewrite bind_ret_tt_state, create_order_eq. cbn.
    by rewrite lookup_insert_eq. }
  do 3 (split; [assumption|]).
  destruct (client_call_lifecycle (CancelOrder "ORDER_000001") m
              "ORDER_000001" o Hm Hc Ho) as (o' & Ho' & Hedge & _).
  by exists o'.
Defined.

(** X5, witness: the order filled by 6 units at 100 and 4 at 110. *)
Lemma fills_add_up_witness :
  let m := Scenarios.second_fill (F := Q) in
  reachable m ∧
  ∃ o, get_order m "ORDER_000001" = Some o ∧
       py_sum (fill_quantity <$> get_fills_for_order m "ORDER_000001")
       == filled_quantity o.
Proof.
  intros m.
  assert (Hm : reachable m) by (do 3 apply reachable_call; apply reachable_init).
  split; [exact Hm|].
  assert (Ho : is_Some (get_order m "ORDER_000001"))
    by (vm_compute; eexists; reflexivity).
  destruct Ho as [o Ho]. exists o. split; [exact Ho|].
  exact (proj1 (fills_add_up m "ORDER_000001" o Hm Ho)).
Defined.

(** X6, witness: the same manager. *)
Lemma summary_realized_pnl_is_net_bought_witness :
  let m := Scenarios.second_fill (F := Q) in
  reachable m ∧
  summary_realized_pnl (get_portfolio_summary m)
  == traded_value BUY m - traded_value SELL m.
Proof.
  intros m.
  assert (Hm : reachable m) by (do 3 apply reachable_call; apply reachable_init).
  split; [exact Hm|].
  exact (summary_realized_pnl_is_net_bought m Hm).
Defined.


(** X9, witness: the order of the manager holding one, refused by the
    stock adapter. *)
Lemma execute_order_rejected_stays_active_witness :
  let m := Scenarios.one_order (F := Q) in
  let o := Scenarios.the_order (F := Q) in
  _get_exchange_for_symbol (symbol o) ∈ ({["alpaca"]} : gset string) ∧
  orders m !! id o = Some o ∧ id o ∈ active_orders m ∧
  ∃ m' tr,
    execute_order {["alpaca"]} Refused o m = (Ok false, m', tr) ∧
    set_status REJECTED o ∈ get_active_orders m'.
Proof.
  intros m o.
  assert (Hex : _get_exchange_for_symbol (symbol o)
                ∈ ({["alpaca"]} : gset string)).
  { apply (bool_decide_unpack _). vm_compute. exact I. }
  assert (Ho : orders m !! id o = Some o) by (vm_compute; reflexivity).
  assert (Ha : id o ∈ active_orders m).
  { apply (bool_decide_unpack _). vm_compute. exact I. }
  do 3 (split; [assumption|]).
  destruct (execute_order_rejected_stays_active {["alpaca"]} o m Hex Ho Ha)
    as (m' & tr & Hrun & _ & Hact & _).
  by exists m', tr.
Defined.
End Witnesses.

End OrderLifecycleSpec.

(** ** The execution engine *)

Module EngineSpec.
Import Stdlib.Strings.Ascii.
Import OrderManagement Execution Engine OrderQueries OrderLifecycleSpec.

(** *** Child ids *)

Lemma zeros_not_padded j k c r :
  c ≠ "0"%char →
  String.concat EmptyString (replicate j "0")
  ≠ String.concat EmptyString (replicate k "0") +:+ String c r.
Proof.
  intros Hc. revert k. induction j as [|j IH]; intros [|k];
    rewrite ?zeros_succ; cbn; try done.
  - intros [= <- _]. done.
  - intros [= Heq]. by apply (IH k).
Qed.

Lemma zeros_snoc k :
  String.concat EmptyString (replicate k "0") +:+ "0"
  = String.concat EmptyString (replicate (S k) "0").
Proof.
  induction k as [|k IH]; [done|].
  rewrite !zeros_succ. rewrite zeros_succ in IH.
  change (String "0" ?s +:+ ?t) with (String "0" (s +:+ t)). by f_equal.
Qed.

(** The decimal padded with zeros determines the number. *)
Lemma zero_pad_pretty_inj w (n1 n2 : nat) :
  zero_pad w (pretty n1) = zero_pad w (pretty n2) → n1 = n2.
Proof.
  assert (∀ n k j : nat, 0 < n →
            String.concat EmptyString (replicate j "0") +:+ "0"
            ≠ String.concat EmptyString (replicate k "0") +:+ pretty n)
    as Hzero.
  { intros n k j Hn. destruct (pretty_nat_head n Hn) as (c & r & -> & Hc).
    rewrite zeros_snoc. by apply zeros_not_padded. }
  unfold zero_pad. destruct n1 as [|n1], n2 as [|n2]; [done| | |].
  - intros Heq. by apply Hzero in Heq; [|lia].
  - intros Heq. symmetry in Heq. by apply Hzero in Heq; [|lia].
  - intros Heq.
    destruct (pretty_nat_head (S n1)) as (c1 & r1 & E1 & Hc1); [lia|].
    destruct (pretty_nat_head (S n2)) as (c2 & r2 & E2 & Hc2); [lia|].
    rewrite E1, E2 in Heq. apply zeros_app_inj in Heq; [|done..].
    apply (inj pretty). by rewrite E1, E2.
Qed.

Lemma string_app_inj (p s1 s2 : string) : p +:+ s1 = p +:+ s2 → s1 = s2.
Proof. induction p as [|c p IH]; cbn; [done|]. intros [= Heq]. by apply IH. Qed.

Section Generic.
Context {F : Type} {HF : Arith F}.
Variable annualized_volatility : list F → option F.
Implicit Types (e : ExecutionEngine F) (s : Strategy F)
  (r : ExecutionRecord F) (ty : ExecutionAlgorithm).

Lemma algorithm_value_inj ty1 ty2 :
  algorithm_value ty1 = algorithm_value ty2 → ty1 = ty2.
Proof. by destruct ty1, ty2. Qed.

Lemma set_attribute_kind s kw s' :
  set_attribute s kw = Some s' →
  algorithm_of (fields s') = algorithm_of (fields s).
Proof.
  unfold set_attribute.
  destruct kw, (fields s) eqn:E; try (by intros [= <-]; rewrite ?E);
    by destruct (unmodelled _ _); [|intros [= <-]; rewrite E].
Qed.

Lemma set_attribute_parameters s kw s' :
  is_parameters kw = false →
  set_attribute s kw = Some s' → parameters s' = parameters s.
Proof.
  unfold set_attribute. intros Hkw.
  destruct kw, (fields s); try done; try (by intros [= <-]);
    by destruct (unmodelled _ _); [|intros [= <-]].
Qed.

Lemma apply_kwargs_none kwargs :
  foldl (λ acc kw, acc ≫= λ s : Strategy F, set_attribute s kw) None kwargs
  = None.
Proof. by induction kwargs. Qed.

Lemma apply_kwargs_cons kw kwargs s :
  apply_kwargs (kw :: kwargs) s = set_attribute s kw ≫= apply_kwargs kwargs.
Proof.
  unfold apply_kwargs. cbn.
  destruct (set_attribute s kw); [done|apply apply_kwargs_none].
Qed.

Lemma apply_kwargs_kind kwargs s s' :
  apply_kwargs kwargs s = Some s' →
  algorithm_of (fields s') = algorithm_of (fields s).
Proof.
  revert s. induction kwargs as [|kw kwargs IH]; intros s.
  - by intros [= <-].
  - rewrite apply_kwargs_cons.
    destruct (set_attribute s kw) as [s1|] eqn:E; [|done]. cbn.
    intros Hs'%IH. by rewrite Hs', (set_attribute_kind _ _ _ E).
Qed.

Lemma apply_kwargs_parameters kwargs s s' :
  Forall (λ kw, is_parameters kw = false) kwargs →
  apply_kwargs kwargs s = Some s' → parameters s' = parameters s.
Proof.
  intros Hall. revert s.
  induction Hall as [|kw kwargs Hkw Hall IH]; intros s.
  - by intros [= <-].
  - rewrite apply_kwargs_cons.
    destruct (set_attribute s kw) as [s1|] eqn:E; [|done]. cbn.
    intros Hs'%IH. by rewrite Hs', (set_attribute_parameters _ _ _ Hkw E).
Qed.

(** *** [cancel_execution] *)

Lemma cancel_first_spec parent (history : list (ExecutionRecord F)) :
  match cancel_first parent history with
  | (true, history') =>
      ∃ pre r post,
        history = pre ++ r :: post ∧
        Forall (λ r, parent_order_id r ≠ parent) pre ∧
        parent_order_id r = parent ∧
        history' = pre ++ mark_cancelled r :: post
  | (false, history') =>
      history' = history ∧ Forall (λ r, parent_order_id r ≠ parent) history
  end.
Proof.
  induction history as [|r history IH]; cbn; [done|].
  destruct (String.eqb (parent_order_id r) parent) eqn:E.
  - apply String.eqb_eq in E. by exists [], r, history.
  - apply String.eqb_neq in E.
    destruct (cancel_first parent history) as [[|] history'].
    + destruct IH as (pre & r' & post & -> & Hpre & Hr' & ->).
      exists (r :: pre), r', post. repeat split; [by constructor|done].
    + destruct IH as [-> Hall]. split; [done|by constructor].
Qed.

Lemma cancel_first_again parent (history : list (ExecutionRecord F)) :
  cancel_first parent (cancel_first parent history).2
  = cancel_first parent history.
Proof.
  induction history as [|r history IH]; cbn; [done|].
  destruct (String.eqb (parent_order_id r) parent) eqn:E; cbn.
  - by rewrite E.
  - destruct (cancel_first parent history) as [found history'] eqn:E'.
    cbn in *. by rewrite E, IH.
Qed.

(** X10: [cancel_execution] marks the oldest record of the parent
    order and no other one, leaves the strategies alone, and returns
    True exactly when there is such a record; a second call finds the
    same record again, so a later execution of the same parent is never
    marked. *)
Theorem cancel_execution_marks_first parent e :
  strategies (cancel_execution parent e).2 = strategies e ∧
  (if (cancel_execution parent e).1 then
     ∃ pre r post,
       execution_history e = pre ++ r :: post ∧
       Forall (λ r, parent_order_id r ≠ parent) pre ∧
       parent_order_id r = parent ∧
       execution_history (cancel_execution parent e).2
         = pre ++ mark_cancelled r :: post
   else
     (cancel_execution parent e).2 = e ∧
     Forall (λ r, parent_order_id r ≠ parent) (execution_history e)) ∧
  cancel_execution parent (cancel_execution parent e).2
    = cancel_execution parent e.
Proof.
  unfold cancel_execution.
  pose proof (cancel_first_spec parent (execution_history e)) as Hspec.
  pose proof (cancel_first_again parent (execution_history e)) as Hagain.
  destruct (cancel_first parent (execution_history e)) as [found history'].
  cbn in *. split; [done|]. split.
  - destruct found; [done|]. destruct Hspec as [-> Hall].
    split; [by destruct e|done].
  - by rewrite Hagain.
Qed.

(** *** The strategies of an engine *)

Lemma new_engine_strategy ty :
  ∃ s, strategies (new_engine (F := F)) !! algorithm_value ty = Some s ∧
       algorithm_of (fields s) = ty ∧
       parameters s = default_parameters (algorithm_value ty).
Proof.
  unfold default_parameters.
  destruct ty; cbn [algorithm_value new_engine strategies];
    repeat (rewrite lookup_insert_ne by done); rewrite lookup_insert_eq;
    by eexists.
Qed.

Lemma engine_inv allowed e :
  engine_reachable annualized_volatility allowed e →
  (∀ ty, ∃ s, strategies e !! algorithm_value ty = Some s ∧
              algorithm_of (fields s) = ty ∧
              (keeps_parameters allowed →
               parameters s = default_parameters (algorithm_value ty))) ∧
  (keeps_parameters allowed →
   Forall (λ r, strategy_params r = default_parameters (strategy r))
     (execution_history e)).
Proof.
  induction 1 as [|fuel clock order ty market_data kwargs e res e' He IH
                   Hkw Hrun
                  |parent e He IH].
  - split; [|constructor]. intros ty.
    destruct (new_engine_strategy ty) as (s & Hs & Hkind & Hpar).
    by exists s.
  - destruct IH as [Hreg Hhist]. unfold execute_order_with_strategy in Hrun.
    destruct (Hreg ty) as (s & Hs & Hkind & Hpar). rewrite Hs in Hrun.
    destruct (apply_kwargs kwargs s) as [s1|] eqn:Hs1; [|done].
    cbn [mbind option_bind] in Hrun.
    assert (keeps_parameters allowed → parameters s1 = parameters s)
      as Hpar1.
    { intros Hkeep. apply (apply_kwargs_parameters kwargs); [|done].
      eapply Forall_impl; [exact Hkw|]. exact Hkeep. }
    assert (∀ ty', ∃ s',
              <[algorithm_value ty := s1]> (strategies e)
                !! algorithm_value ty' = Some s' ∧
              algorithm_of (fields s') = ty' ∧
              (keeps_parameters allowed →
               parameters s' = default_parameters (algorithm_value ty')))
      as Hreg'.
    { intros ty'.
      destruct (decide (algorithm_value ty = algorithm_value ty'))
        as [Heq|Hne].
      - apply algorithm_value_inj in Heq as <-.
        rewrite lookup_insert_eq. eexists. split; [done|]. split.
        + by rewrite (apply_kwargs_kind _ _ _ Hs1).
        + intros Hkeep. by rewrite Hpar1, Hpar.
      - rewrite lookup_insert_ne by done. apply Hreg. }
    destruct (run_strategy _ _ _ _ _) as [[slices|exc]|]; [| |done].
    + injection Hrun as <- <-. cbn. split; [done|]. intros Hkeep.
      apply Forall_app. split; [by apply Hhist|].
      repeat constructor. cbn. by rewrite Hpar1, Hpar.
    + injection Hrun as <- <-. by split.
  - destruct IH as [Hreg Hhist]. unfold cancel_execution.
    pose proof (cancel_first_spec parent (execution_history e)) as Hspec.
    destruct (cancel_first parent (execution_history e)) as [[|] history'];
      cbn [snd strategies execution_history]; (split; [done|]);
      intros Hkeep; specialize (Hhist Hkeep).
    + destruct Hspec as (pre & r & post & Heq & _ & _ & ->).
      rewrite Heq in Hhist. apply Forall_app in Hhist as [Hpre Hpost].
      apply Forall_cons in Hpost as [Hr Hpost].
      apply Forall_app. split; [done|]. by constructor.
    + by destruct Hspec as [-> _].
Qed.

Lemma child_id_inj (order : Order F) now1 now2 i j sl1 sl2 :
  id (child_order order now1 i sl1) = id (child_order order now2 j sl2) →
  i = j.
Proof.
  destruct sl1 as [q1 p1], sl2 as [q2 p2]. cbn [child_order id].
  intros Heq%string_app_inj%string_app_inj. by apply zero_pad_pretty_inj in Heq.
Qed.

(** X11: on an engine reached through its API every algorithm has a
    strategy of its class registered.  As long as no call passed a
    dict as the keyword [parameters], the [parameters] dict of each
    strategy, which every history record reports as [strategy_params],
    still holds the constructor's values: overrides of the numeric
    attributes, of [name] and of [execute] change the strategy but are
    never recorded.  A dict passed as [parameters] replaces the one of
    the strategy and is what the record of that call reports. *)
Theorem engine_strategies_registered allowed e :
  engine_reachable annualized_volatility allowed e →
  (∀ ty, ∃ s, get_strategy e ty = Some s ∧ algorithm_of (fields s) = ty) ∧
  ((∀ kw, allowed kw → is_parameters kw = false) →
   (∀ ty s, get_strategy e ty = Some s →
            parameters s = default_parameters (algorithm_value ty)) ∧
   (∀ r, r ∈ execution_history e →
         strategy_params r = default_parameters (strategy r))) ∧
  (∀ fuel clock order ty market_data d children e',
     execute_order_with_strategy annualized_volatility fuel clock order ty
       market_data [parameters_ d] e = Some (Ok children, e') →
     (∃ s, get_strategy e' ty = Some s ∧ parameters s = d) ∧
     ∃ record, execution_history e' = execution_history e ++ [record] ∧
               strategy_params record = d) ∧
  default_parameters (F := F) "twap"
    = [("time_window", IntParam 60%Z); ("slice_interval", IntParam 5%Z)].
Proof.
  intros He. destruct (engine_inv allowed e He) as [Hreg Hhist].
  split; [|split; [|split]].
  - intros ty. destruct (Hreg ty) as (s & Hs & Hkind & _). by exists s.
  - intros Hkeep. split.
    + intros ty s Hs. destruct (Hreg ty) as (s' & Hs' & _ & Hpar).
      unfold get_strategy in Hs. rewrite Hs in Hs'. injection Hs' as <-.
      by apply Hpar.
    + intros r Hr. by apply (proj1 (Forall_forall _ _) (Hhist Hkeep)).
  - intros fuel clock order ty market_data d children e' Hrun.
    unfold execute_order_with_strategy in Hrun.
    destruct (Hreg ty) as (s & Hs & _). rewrite Hs in Hrun.
    cbn [apply_kwargs foldl set_attribute mbind option_bind] in Hrun.
    destruct (run_strategy _ _ _ _ _) as [[slices|exc]|]; [|done..].
    injection Hrun as _ <-. unfold get_strategy. cbn. split.
    + eexists. by rewrite lookup_insert_eq.
    + by eexists.
  - unfold default_parameters. cbn [new_engine strategies].
    by rewrite lookup_insert_eq.
Qed.

(** X12: a call of [execute_order_with_strategy] on an engine reached
    through its API.  The keyword arguments are written to the
    registered strategy and stay there, also when the strategy raises;
    the other strategies are untouched.  The slices are those of the
    strategy after the overrides: of a callable passed as [execute],
    now or in an earlier call, when there is one, and of the method of
    its class otherwise.  When that raises, the exception is passed on
    and nothing is recorded.  Otherwise there is one child per slice,
    in order, with the slice's quantity, the parent's symbol and side,
    status PENDING_NEW, pairwise distinct ids, a LIMIT order at the
    slice's price when that is positive and a MARKET order without
    price when not; and one record is appended that reports the number
    of children, the parent's quantity and the [parameters] of the
    strategy after the overrides. *)
Theorem execute_order_with_strategy_spec allowed fuel clock order ty
    market_data kwargs e res e' :
  engine_reachable annualized_volatility allowed e →
  execute_order_with_strategy annualized_volatility fuel clock order ty
    market_data kwargs e = Some (res, e') →
  ∃ s s',
    get_strategy e ty = Some s ∧
    apply_kwargs kwargs s = Some s' ∧
    get_strategy e' ty = Some s' ∧
    (∀ ty', ty' ≠ ty → get_strategy e' ty' = get_strategy e ty') ∧
    match res with
    | Raise exc =>
        run_strategy annualized_volatility fuel s' order market_data
          = Some (Raise exc) ∧
        execution_history e' = execution_history e
    | Ok children =>
        ∃ slices record,
          run_strategy annualized_volatility fuel s' order market_data
            = Some (Ok slices) ∧
          length children = length slices ∧
          NoDup (id <$> children) ∧
          (∀ i child, children !! i = Some child →
             ∃ q p, slices !! i = Some (q, p) ∧
                    quantity child = q ∧ symbol child = symbol order ∧
                    side child = side order ∧ status child = PENDING_NEW ∧
                    if positive_price p
                    then order_type child = LIMIT ∧ price child = p
                    else order_type child = MARKET ∧ price child = None) ∧
          execution_history e' = execution_history e ++ [record] ∧
          parent_order_id record = id order ∧
          strategy record = algorithm_value ty ∧
          child_orders_count record = length slices ∧
          total_quantity record = quantity order ∧
          strategy_params record = parameters s' ∧
          cancelled record = false
    end.
Proof.
  intros He Hrun. destruct (engine_inv allowed e He) as [Hreg _].
  destruct (Hreg ty) as (s & Hs & _). exists s.
  unfold execute_order_with_strategy in Hrun. rewrite Hs in Hrun.
  destruct (apply_kwargs kwargs s) as [s'|] eqn:Hs'; [|done].
  cbn [mbind option_bind] in Hrun. exists s'.
  unfold get_strategy. split; [done|]. split; [done|].
  assert (strategies e' = <[algorithm_value ty := s']> (strategies e))
    as Hstrat.
  { destruct (run_strategy _ _ _ _ _) as [[slices|exc]|]; [| |done];
      by injection Hrun as <- <-. }
  rewrite Hstrat. split; [by rewrite lookup_insert_eq|]. split.
  { intros ty' Hne. rewrite lookup_insert_ne; [done|].
    intros Heq%algorithm_value_inj. done. }
  destruct (run_strategy _ _ _ _ _) as [[slices|exc]|]; [| |done];
    injection Hrun as <- <-; [|done].
  eexists slices, _. cbn [execution_history].
  split; [done|]. split; [by rewrite length_imap|]. split.
  - apply NoDup_alt. intros i j x.
    rewrite !list_lookup_fmap, !list_lookup_imap.
    destruct (slices !! i) as [sl1|], (slices !! j) as [sl2|]; cbn; try done.
    intros [= <-] [= Heq]. symmetry. by apply child_id_inj in Heq.
  - split; [|by rewrite length_imap].
    intros i child. rewrite list_lookup_imap.
    destruct (slices !! i) as [[q p]|]; cbn; [|done]. intros [= <-].
    exists q, p. split; [done|]. cbn. by destruct (positive_price p).
Qed.
End Generic.

Section Witnesses.
Local Open Scope Q_scope.

(** X11, witness: an engine on which a TWAP execution with an override
    of a numeric attribute has run. *)
Lemma engine_strategies_registered_witness :
  let vol : list Q → option Q := λ _, None in
  let allowed : Override Q → Prop := λ kw, is_parameters kw = false in
  let e :=
    match execute_order_with_strategy vol 0 (λ _, "t") (Scenarios.parent 100)
            ALGO_TWAP (Scenarios.window 3) [slice_interval_minutes_ 20%Z]
            new_engine
    with Some (_, e') => e' | None => new_engine end in
  engine_reachable vol allowed e ∧
  ∀ r, r ∈ execution_history e →
       strategy_params r = default_parameters (strategy r).
Proof.
  intros vol allowed e.
  assert (He : engine_reachable vol allowed e).
  { unfold e.
    destruct (execute_order_with_strategy _ _ _ _ _ _ _ _)
      as [[res e']|] eqn:E; [|apply engine_new].
    eapply engine_executed; [apply engine_new| |exact E].
    by repeat constructor. }
  split; [exact He|].
  exact (proj2 (proj1 (proj2 (engine_strategies_registered vol allowed e He))
                  (λ kw Hkw, Hkw))).
Defined.

(** X12, witness: a TWAP execution on a fresh engine. *)
Lemma execute_order_with_strategy_spec_witness :
  let vol : list Q → option Q := λ _, None in
  let run :=
    execute_order_with_strategy vol 0 (λ _, "t") (Scenarios.parent 100)
      ALGO_TWAP (Scenarios.window 3) [slice_interval_minutes_ 20%Z]
      new_engine in
  engine_reachable vol (λ _, True) new_engine ∧
  ∃ res e', run = Some (res, e') ∧
    ∃ s s', get_strategy new_engine ALGO_TWAP = Some s ∧
            apply_kwargs [slice_interval_minutes_ 20%Z] s = Some s' ∧
            get_strategy e' ALGO_TWAP = Some s'.
Proof.
  intros vol run.
  assert (He : engine_reachable vol (λ _, True) (new_engine (F := Q)))
    by apply engine_new.
  split; [exact He|].
  assert (Hrun : ∃ res e', run = Some (res, e'))
    by (vm_compute; eexists _, _; reflexivity).
  destruct Hrun as (res & e' & Hrun). exists res, e'. split; [exact Hrun|].
  destruct (execute_order_with_strategy_spec vol (λ _, True) 0 (λ _, "t")
              (Scenarios.parent 100) ALGO_TWAP (Scenarios.window 3)
              [slice_interval_minutes_ 20%Z] new_engine res e' He Hrun)
    as (s & s' & Hs & Hs1 & Hs' & _).
  by exists s, s'.
Defined.
End Witnesses.

End EngineSpec.

(** ** Execution strategies: outcomes at the edges, and the cost
       estimate *)

Module ExecutionEdgeSpec.
Import OrderManagement Execution Engine OrderManagementSpec ExecutionSpec.

Section Generic.
Context {F : Type} {HF : Arith F}.
Implicit Types (order : Order F) (market_data : list (Bar F)).

(** The price factor TWAP applies for the side of the order. *)
Lemma twap_priced_loop order market_data (slice_quantity : F) idxs
    (child_orders : list (F * F)) :
  market_data ≠ [] →
  ∃ slices,
    for_each idxs (twap_body order market_data slice_quantity) child_orders
      = Ok (child_orders ++ slices) ∧
    Forall2
      (λ i sl, ∃ row,
         rev market_data
           !! (if bool_decide (i < length market_data) then i else 0)
           = Some row ∧
         sl = (slice_quantity,
               fmul (close row)
                 (match side order with
                  | BUY => lit 10005 10000
                  | SELL => lit 9995 10000
                  end)))
      idxs slices.
Proof.
  intros Hne.
  assert (Hlen : 0 < length market_data).
  { destruct market_data; [done|cbn; lia]. }
  revert child_orders.
  induction idxs as [|i idxs IH]; intros child_orders.
  - exists []. rewrite app_nil_r. by split.
  - cbn [for_each]. unfold twap_body at 1. unfold iloc_back.
    destruct (bool_decide (i < length market_data)) eqn:Hi.
    + apply bool_decide_eq_true in Hi.
      destruct (rev market_data !! i) as [row|] eqn:Hrow.
      2:{ apply lookup_ge_None in Hrow. rewrite length_rev in Hrow. lia. }
      cbn [result_bind].
      edestruct IH as (slices & -> & Hall).
      eexists (_ :: slices). rewrite <-(assoc_L (++)). split; [done|].
      constructor; [|done]. exists row.
      split; [by rewrite bool_decide_eq_true_2|]. by destruct (side order).
    + rewrite bool_decide_eq_true_2 by done.
      destruct (rev market_data !! 0) as [row|] eqn:Hrow.
      2:{ apply lookup_ge_None in Hrow. rewrite length_rev in Hrow. lia. }
      cbn [result_bind].
      edestruct IH as (slices & -> & Hall).
      eexists (_ :: slices). rewrite <-(assoc_L (++)). split; [done|].
      constructor; [|done]. exists row.
      split; [by rewrite Hi|]. by destruct (side order).
Qed.

Lemma twap_empty_loop order (slice_quantity : F) idxs
    (child_orders : list (F * F)) :
  for_each idxs (twap_body order [] slice_quantity) child_orders
  = Ok child_orders.
Proof. induction idxs as [|i idxs IH]; [done|]. cbn. exact IH. Qed.

(** X13: the outcome of [TWAPStrategy.execute] in every case.  It
    raises ZeroDivisionError when the slice interval is 0 or the window
    holds no whole interval, whatever the market data; it returns no
    slice at all on an empty frame; and otherwise it returns
    [n = window // interval] slices of the quantity divided by [n],
    slice [i] priced from the close [i] bars before the newest one (so
    the first slice uses the newest bar and later slices older ones),
    or from the newest close once the frame is exhausted, times 1.0005
    for a buy and 0.9995 for a sell. *)
Theorem twap_execute_outcome (s : TWAPStrategy) order market_data :
  let n := (time_window_minutes s / slice_interval_minutes s)%Z in
  if (slice_interval_minutes s =? 0)%Z || (n =? 0)%Z then
    twap_execute s order market_data = Raise ZeroDivisionError
  else if bool_decide (market_data = []) then
    twap_execute s order market_data = Ok []
  else
    ∃ slices,
      twap_execute s order market_data = Ok slices ∧
      length slices = Z.to_nat n ∧
      ∀ i, i < Z.to_nat n →
        ∃ row,
          rev market_data
            !! (if bool_decide (i < length market_data) then i else 0)
            = Some row ∧
          slices !! i
            = Some (fdiv (quantity order) (of_Z n),
                    fmul (close row)
                      (match side order with
                       | BUY => lit 10005 10000
                       | SELL => lit 9995 10000
                       end)).
Proof.
  intros n. unfold twap_execute, floordiv. fold n.
  destruct (slice_interval_minutes s =? 0)%Z; [done|]. cbn [orb result_bind].
  destruct (n =? 0)%Z; [done|]. cbn [result_bind].
  case_bool_decide as Hmd.
  - subst market_data. apply twap_empty_loop.
  - destruct (twap_priced_loop order market_data
                (fdiv (quantity order) (of_Z n)) (range n) [] Hmd)
      as (slices & -> & Hall).
    exists slices. cbn [app]. split; [done|].
    pose proof (Forall2_length _ _ _ Hall) as Hlen.
    unfold range in Hlen, Hall. rewrite length_seq in Hlen.
    split; [done|]. intros i Hi.
    destruct (slices !! i) as [sl|] eqn:Hsl.
    2:{ apply lookup_ge_None in Hsl. lia. }
    assert (seq 0 (Z.to_nat n) !! i = Some i) as Hidx
      by by apply lookup_seq_lt.
    destruct (Forall2_lookup_lr _ _ _ _ _ _ Hall Hidx Hsl)
      as (row & Hrow & ->).
    by exists row.
Qed.

(** X14: on an empty frame of market data TWAP returns no slice (or
    raises ZeroDivisionError for a slice count of zero), VWAP and
    Participate return the whole quantity as one slice at price 0.0
    without running their loops, and Iceberg and MinSlippage raise. *)
Theorem empty_market_data_outcomes order :
  (∀ s : TWAPStrategy,
     twap_execute s order [] = Ok [] ∨
     twap_execute s order [] = Raise ZeroDivisionError) ∧
  (∀ s : VWAPStrategy,
     vwap_execute s order [] = [(quantity order, Some fzero)]) ∧
  (∀ fuel (s : ParticipateStrategy F),
     participate_execute fuel s order []
     = Some (Ok [(quantity order, fzero)])) ∧
  (∀ s : IcebergStrategy F,
     iceberg_execute s order [] = Raise IndexError) ∧
  (∀ volatility (s : MinSlippageStrategy),
     raises (min_slippage_execute volatility s order []) = true ∧
     ((0 < volatility_lookback s)%Z →
      min_slippage_execute volatility s order [] = Raise IndexError)).
Proof.
  split; [|split; [|split; [|split]]].
  - intros s. unfold twap_execute, floordiv.
    destruct (slice_interval_minutes s =? 0)%Z; [by right|].
    cbn [result_bind]. destruct (_ =? 0)%Z; [by right|]. cbn [result_bind].
    left. apply twap_empty_loop.
  - done.
  - done.
  - done.
  - intros volatility s. unfold min_slippage_execute. cbn [length].
    case_bool_decide as Hlook; [done|]. split; [|lia].
    destruct (vol_lt _ _); [|destruct (vol_lt _ _)];
      by destruct (py_int _).
Qed.
End Generic.

Section Exact.
Implicit Types (order : Order Q) (market_data : list (Bar Q)).
Local Open Scope Q_scope.

(** X15: in exact arithmetic, the cost percentage that
    [estimate_transaction_cost] reports does not depend on the price or
    the quantity: it is the spread times 100 for a market order and the
    spread times 50 for any other order, and it is undefined (nan) when
    price times quantity is zero.  On an empty frame the estimate is
    zero and names no current price. *)
Theorem transaction_cost_percent order market_data (bid_ask_spread : Q) :
  match last market_data with
  | None =>
      estimate_transaction_cost order market_data bid_ask_spread
      = Ok (mkCostEstimate 0 (Some 0) None)
  | Some row =>
      ∃ est,
        estimate_transaction_cost order market_data bid_ask_spread = Ok est ∧
        current_price est = Some (close row) ∧
        expected_cost est
          == bid_ask_spread * close row * quantity order
             * (match order_type order with MARKET => 1 | _ => 1 # 2 end) ∧
        if Qeq_bool (close row * quantity order) 0
        then cost_percent est = None
        else ∃ pct, cost_percent est = Some pct ∧
                    pct == bid_ask_spread *
                           (match order_type order with
                            | MARKET => 100
                            | _ => 50
                            end)
  end.
Proof.
  unfold estimate_transaction_cost, iloc_back.
  destruct market_data as [|b market_data _] using rev_ind; [done|].
  rewrite last_snoc, length_app, rev_app_distr. cbn [length rev app].
  rewrite bool_decide_eq_false_2 by lia.
  cbn [lookup list_lookup result_bind].
  eexists. split; [done|]. cbn [current_price expected_cost cost_percent].
  split; [done|]. split.
  - exact_arith. destruct (order_type order); cbn; field.
  - unfold np_div. exact_arith.
    destruct (Qeq_bool (close b * quantity order) 0) eqn:Hz; [done|].
    apply Qeq_bool_neq in Hz. cbn [fmap option_fmap option_map].
    eexists. split; [done|].
    assert (¬ quantity order == 0 ∧ ¬ close b == 0) as Hnz.
    { split; intros E; apply Hz; rewrite E; ring. }
    destruct (order_type order); cbn; field; exact Hnz.
Qed.

(** X16, witness: the default 12 slices of a parent order of 100 units
    over 12 bars. *)
Lemma twap_total_exact_witness :
  slice_interval_minutes TWAP_default ≠ 0%Z ∧
  (0 < time_window_minutes TWAP_default
       / slice_interval_minutes TWAP_default)%Z ∧
  Scenarios.window (F := Q) 12 ≠ [] ∧
  ∃ slices,
    twap_execute TWAP_default (Scenarios.parent 100) (Scenarios.window 12)
      = Ok slices ∧
    total_sliced slices == 100.
Proof.
  assert (H1 : slice_interval_minutes TWAP_default ≠ 0%Z) by discriminate.
  assert (H2 : (0 < time_window_minutes TWAP_default
                    / slice_interval_minutes TWAP_default)%Z) by reflexivity.
  assert (H3 : Scenarios.window (F := Q) 12 ≠ []) by discriminate.
  do 3 (split; [assumption|]).
  destruct (twap_total_exact TWAP_default (Scenarios.parent 100)
              (Scenarios.window 12) H1 H2 H3) as (slices & Hrun & _ & Hsum).
  by exists slices.
Defined.

(** X18, witness: a window shorter than the lookback. *)
Lemma min_slippage_total_exact_witness :
  Scenarios.window (F := Q) 3 ≠ [] ∧
  ∃ slices,
    min_slippage_execute (λ _, None) (mkMinSlippage 20) (Scenarios.parent 100)
      (Scenarios.window 3) = Ok slices ∧
    total_sliced slices == 100.
Proof.
  assert (H1 : Scenarios.window (F := Q) 3 ≠ []) by discriminate.
  split; [assumption|].
  exact (min_slippage_total_exact (λ _, None) (mkMinSlippage 20)
           (Scenarios.parent 100) (Scenarios.window 3) H1).
Defined.

(** X19, witness: 250 units at a display size of 100. *)
Lemma iceberg_total_witness :
  0 < display_size (Scenarios.iceberg_default (F := Q)) ∧
  0 < quantity (Scenarios.parent (250 : Q)) ∧
  Scenarios.window (F := Q) 1 ≠ [] ∧
  ∃ slices,
    iceberg_execute Scenarios.iceberg_default (Scenarios.parent 250)
      (Scenarios.window 1) = Ok slices ∧
    total_sliced slices == 200.
Proof.
  assert (H1 : 0 < display_size (Scenarios.iceberg_default (F := Q)))
    by reflexivity.
  assert (H2 : 0 < quantity (Scenarios.parent (250 : Q))) by reflexivity.
  assert (H3 : Scenarios.window (F := Q) 1 ≠ []) by discriminate.
  do 3 (split; [assumption|]).
  destruct (iceberg_total Scenarios.iceberg_default (Scenarios.parent 250)
              (Scenarios.window 1) H1 H2 H3) as (slices & Hrun & Hsum).
  exists slices. split; [exact Hrun|]. rewrite Hsum. reflexivity.
Defined.
End Exact.

End ExecutionEdgeSpec.

(** ** Risk rules: history, accumulation and the engine's switches *)

Module RiskAdminSpec.
Import Portfolio Risk RiskAdmin OrderManagementSpec RiskSpec.

Section Generic.
Context {F : Type} {HF : Arith F}.
Implicit Types (r : RiskRule F) (ctx : Context F) (e : RiskRulesEngine F).

Lemma record_hits_spec now why (hits : list Details) r :
  (record_hits now why hits r).2 = Ok (negb (bool_decide (hits = []))) ∧
  name (record_hits now why hits r).1 = name r ∧
  enabled (record_hits now why hits r).1 = enabled r ∧
  kind (record_hits now why hits r).1 = kind r ∧
  violations (record_hits now why hits r).1 =
    violations r ++ ((λ d, mkViolation (name r) why d now) <$> hits).
Proof.
  unfold record_hits. destruct hits as [|d hits]; cbn [fst snd].
  { by rewrite app_nil_r. }
  split; [done|]. generalize (d :: hits). clear d hits. intros hits.
  revert r. induction hits as [|d hits IH]; intros r; cbn [foldl].
  { by rewrite app_nil_r. }
  destruct (IH (add_violation now why d r)) as (-> & -> & -> & ->).
  cbn. by rewrite <-(assoc_L (++)).
Qed.

Ltac nothing_added :=
  cbn; split; [done|]; split; [done|]; exists []; rewrite ?app_nil_r;
  by repeat split.
Ltac one_added :=
  cbn; split; [done|]; split; [done|]; eexists; split; [done|];
  split; [by repeat constructor|done].

(** Whatever the rule and the context, a check leaves the rule's name
    and enabled flag alone and only appends to its violation list,
    under the rule's name; it returns True exactly when it has appended
    at least one violation and False exactly when it has appended none;
    a check that raises has appended none. *)
Lemma check_appends now ctx r :
  let r' := (check now ctx r).1 in
  name r' = name r ∧ enabled r' = enabled r ∧
  ∃ added,
    violations r' = violations r ++ added ∧
    Forall (λ v, rule v = name r ∧ violation_timestamp v = now) added ∧
    match (check now ctx r).2 with
    | Ok true => added ≠ []
    | Ok false => added = []
    | Raise exc => added = []
    end.
Proof.
  unfold check. destruct r as [nm en vs k]. cbn [kind].
  destruct k as [|max_size|max_loss daily count|max_dd peak current| |];
    cbn zeta.
  - nothing_added.
  - unfold check_max_position_size.
    destruct (fgtb _ _); [one_added|nothing_added].
  - unfold check_max_daily_loss.
    destruct (trade_pnl ctx); destruct (fltb _ _);
      first [nothing_added|one_added].
  - unfold check_max_drawdown.
    destruct (portfolio_value ctx) as [v|];
      [destruct (fgtb v peak)|];
      (destruct (fgtb _ fzero); [|nothing_added]);
      (destruct (py_div _ _) as [ratio|exc]; [|nothing_added]);
      (destruct (fgtb _ _); first [nothing_added|one_added]).
  - destruct (record_hits_spec now StopLossTriggered
                (stop_loss_hits (default [] (ctx_positions ctx)))
                (mkRule nm en vs StopLossRule)) as (-> & -> & -> & _ & ->).
    cbn. split; [done|]. split; [done|]. eexists. split; [done|]. split.
    + apply Forall_fmap, Forall_forall. by intros d _.
    + destruct (stop_loss_hits _); by cbn.
  - destruct (record_hits_spec now TakeProfitTriggered
                (take_profit_hits (default [] (ctx_positions ctx)))
                (mkRule nm en vs TakeProfitRule)) as (-> & -> & -> & _ & ->).
    cbn. split; [done|]. split; [done|]. eexists. split; [done|]. split.
    + apply Forall_fmap, Forall_forall. by intros d _.
    + destruct (take_profit_hits _); by cbn.
Qed.

(** X20: [check_rules] on an enabled engine keeps the rules, their
    order, names and enabled flags, and only appends to the violation
    list of each rule, under the rule's name: nothing for a disabled
    rule or a rule whose check raised, and at least one violation
    exactly for an enabled rule whose check returned True. *)
Theorem check_rules_keeps_history now ctx e :
  engine_enabled e = true →
  engine_enabled (check_rules now ctx e).1.1 = true ∧
  Forall2
    (λ r r',
       name r' = name r ∧ enabled r' = enabled r ∧
       ∃ added,
         violations r' = violations r ++ added ∧
         Forall (λ v, rule v = name r ∧ violation_timestamp v = now) added ∧
         (added ≠ [] ↔ enabled r = true ∧ (check now ctx r).2 = Ok true))
    (rules e) (rules (check_rules now ctx e).1.1).
Proof.
  intros He. rewrite check_rules_spec, He. cbn [fst snd rules engine_enabled].
  split; [done|]. apply Forall2_fmap_r, Forall_Forall2_diag, Forall_forall.
  intros r _. unfold rule_after, compose. cbn beta.
  destruct (enabled r) eqn:Hen.
  - destruct (check_appends now ctx r) as (Hn & Hen' & added & Hv & Hall & Hres).
    split; [done|]. split; [congruence|]. exists added.
    split; [done|]. split; [done|].
    destruct ((check now ctx r).2) as [[|]|exc]; subst; split;
      try done; try by intros [_ ?].
  - split; [done|]. split; [done|]. exists []. rewrite app_nil_r.
    split; [done|]. split; [done|]. split; [done|]. by intros [? _].
Qed.

(** *** [MaxDailyLossRule] over a sequence of checks *)

Lemma check_all_named now ctxs r :
  name (check_all now ctxs r) = name r ∧
  enabled (check_all now ctxs r) = enabled r.
Proof.
  unfold check_all. revert r.
  induction ctxs as [|ctx ctxs IH]; intros r; [done|]. cbn [foldl].
  destruct (IH (check now ctx r).1) as [-> ->].
  by destruct (check_appends now ctx r) as (-> & -> & _).
Qed.

Lemma daily_loss_step now ctx nm en vs (m d : F) n :
  let d' := match trade_pnl ctx with Some p => fadd d p | None => d end in
  let n' := match trade_pnl ctx with Some _ => S n | None => n end in
  ∃ vs',
    (check now ctx (mkRule nm en vs (MaxDailyLossRule m d n))).1
    = mkRule nm en vs' (MaxDailyLossRule m d' n') ∧
    length vs' = length vs + (if fltb d' (fopp m) then 1 else 0).
Proof.
  unfold check. cbn [kind]. unfold check_max_daily_loss.
  destruct (trade_pnl ctx) as [p|]; cbn zeta;
    destruct (fltb _ (fopp m)); cbn;
    eexists; (split; [reflexivity|]); rewrite ?length_app; cbn; lia.
Qed.

Lemma daily_loss_run now ctxs nm en vs (m d : F) n :
  let r := check_all now ctxs (mkRule nm en vs (MaxDailyLossRule m d n)) in
  kind r =
    MaxDailyLossRule m (foldl fadd d (omap trade_pnl ctxs))
      (n + length (omap trade_pnl ctxs)) ∧
  length (violations r) =
    length vs +
    length (filter (λ t, fltb t (fopp m) = true) (daily_totals d ctxs)).
Proof.
  revert vs d n. induction ctxs as [|ctx ctxs IH]; intros vs d n.
  { cbn. split; [by rewrite Nat.add_0_r|lia]. }
  unfold check_all in *. cbn [foldl daily_totals].
  destruct (daily_loss_step now ctx nm en vs m d n) as (vs' & -> & Hlen).
  destruct (IH vs'
              (match trade_pnl ctx with Some p => fadd d p | None => d end)
              (match trade_pnl ctx with Some _ => S n | None => n end))
    as [-> ->].
  rewrite Hlen, filter_cons. cbn [omap list_omap].
  destruct (trade_pnl ctx) as [p|]; cbn [foldl length];
    case_decide as Hlt; rewrite ?Hlt; cbn [length];
    try (apply not_true_is_false in Hlt; rewrite Hlt);
    (split; [f_equal; lia|lia]).
Qed.

(** X21: [MaxDailyLossRule] over any sequence of checks, from a new
    rule.  The daily P&L is the sum of the [trade_pnl] values of the
    contexts that carry one, and the trade count their number; every
    check made while the total is below minus the limit records one
    more violation, also a check whose context carries no trade; the
    next check returns True exactly when the total it reaches is below
    minus the limit; and [reset_day] brings the rule back to the state
    it was constructed in. *)
Theorem daily_loss_accumulates now (max_loss : F) ctxs :
  let r := check_all now ctxs (new_MaxDailyLossRule max_loss) in
  let pnls := omap trade_pnl ctxs in
  kind r = MaxDailyLossRule max_loss (foldl fadd fzero pnls) (length pnls) ∧
  length (violations r) =
    length (filter (λ t, fltb t (fopp max_loss) = true)
              (daily_totals fzero ctxs)) ∧
  (∀ ctx,
     (check now ctx r).2 =
       Ok (fltb (match trade_pnl ctx with
                 | Some p => fadd (foldl fadd fzero pnls) p
                 | None => foldl fadd fzero pnls
                 end) (fopp max_loss))) ∧
  reset_day r = new_MaxDailyLossRule max_loss.
Proof.
  intros r pnls.
  destruct (daily_loss_run now ctxs "MaxDailyLossRule" true [] max_loss
              fzero 0) as [Hk Hl].
  fold (new_MaxDailyLossRule max_loss) in Hk, Hl. fold r pnls in Hk, Hl.
  split; [done|]. split; [done|]. split.
  - intros ctx. unfold check. rewrite Hk. unfold check_max_daily_loss.
    by destruct (trade_pnl ctx); destruct (fltb _ _).
  - destruct (check_all_named now ctxs (new_MaxDailyLossRule max_loss))
      as [Hn He]. fold r in Hn, He.
    unfold reset_day. rewrite Hk. unfold clear_violations, with_kind.
    cbn [name enabled kind]. by rewrite Hn, He.
Qed.

(** *** The rules of an engine *)

Lemma find_rule_app n (rs1 rs2 : list (RiskRule F)) :
  find_rule n (rs1 ++ rs2) =
    match find_rule n rs1 with
    | Some r => Some r
    | None => find_rule n rs2
    end.
Proof.
  induction rs1 as [|r rs1 IH]; [done|]. cbn.
  by destruct (String.eqb (name r) n).
Qed.

(** X22: the rules of an engine by name.  [get_rule] returns the first
    rule of that name, so a rule added under a name already present is
    never returned; after [remove_rule] no rule of that name is left
    and the lookups of the other names are unchanged; and the five
    default rules are each found under their class name. *)
Theorem rule_registry_round_trips e r n :
  get_rule (add_rule r e) n =
    match get_rule e n with
    | Some r' => Some r'
    | None => if String.eqb (name r) n then Some r else None
    end ∧
  (∀ r', get_rule e n = Some r' → name r' = n ∧ r' ∈ rules e) ∧
  get_rule (remove_rule n e) n = None ∧
  (∀ n', n' ≠ n → get_rule (remove_rule n e) n' = get_rule e n') ∧
  (∀ max_size max_loss max_dd : F,
     let d := create_default_rules max_size max_loss max_dd in
     get_rule d "MaxPositionSizeRule" = Some (new_MaxPositionSizeRule max_size) ∧
     get_rule d "MaxDailyLossRule" = Some (new_MaxDailyLossRule max_loss) ∧
     get_rule d "MaxDrawdownRule" = Some (new_MaxDrawdownRule max_dd) ∧
     get_rule d "StopLossRule" = Some new_StopLossRule ∧
     get_rule d "TakeProfitRule" = Some new_TakeProfitRule).
Proof.
  unfold get_rule, add_rule, remove_rule. cbn [rules].
  split; [|split; [|split; [|split]]].
  - rewrite find_rule_app. cbn. by destruct (find_rule n (rules e)).
  - induction (rules e) as [|r0 rs IH]; cbn; [done|].
    destruct (String.eqb (name r0) n) eqn:E.
    + apply String.eqb_eq in E. intros r' [= <-]. split; [done|by left].
    + intros r' Hr'. destruct (IH r' Hr') as [? ?]. split; [done|by right].
  - induction (rules e) as [|r0 rs IH]; [done|].
    rewrite filter_cons. destruct (decide (name r0 ≠ n)) as [Hne|Heq]; [|done].
    cbn [find_rule]. apply String.eqb_neq in Hne. by rewrite Hne.
  - intros n' Hn'. induction (rules e) as [|r0 rs IH]; [done|].
    rewrite filter_cons. destruct (decide (name r0 ≠ n)) as [Hne|Heq].
    + cbn [find_rule]. by rewrite IH.
    + apply dec_stable in Heq. rewrite IH. cbn [find_rule].
      assert (String.eqb (name r0) n' = false) as ->; [|done].
      apply String.eqb_neq. congruence.
  - intros max_size max_loss max_dd. by cbn.
Qed.

(** X23: the switches of an engine.  After [disable_rules] every
    [check_rules] returns no violation and changes nothing, so the
    trades of that time are never counted by the daily-loss rule; and
    [enable_rules] switches on every rule, also one that had been
    switched off on its own before the engine was disabled.
    [clear_all_violations] empties every violation list and leaves the
    state of the rules, such as the accumulated daily loss, as it is. *)
Theorem disabled_engine_checks_nothing e :
  (∀ now ctx,
     check_rules now ctx (disable_rules e) = (disable_rules e, [], [])) ∧
  (∀ now ctxs, check_rules_all now ctxs (disable_rules e) = disable_rules e) ∧
  enable_rules (disable_rules e) = enable_rules e ∧
  engine_enabled (enable_rules e) = true ∧
  Forall (λ r, enabled r = true) (rules (enable_rules e)) ∧
  Forall2 (λ r r', name r' = name r ∧ kind r' = kind r ∧
                   violations r' = violations r)
    (rules e) (rules (enable_rules e)) ∧
  get_all_violations (clear_all_violations e) = [] ∧
  Forall2 (λ r r', name r' = name r ∧ kind r' = kind r ∧
                   enabled r' = enabled r)
    (rules e) (rules (clear_all_violations e)).
Proof.
  split; [done|]. split; [|split; [|split; [done|split; [|split; [|split]]]]].
  - intros now ctxs. unfold check_rules_all.
    induction ctxs as [|ctx ctxs IH]; [done|]. cbn [foldl]. exact IH.
  - unfold enable_rules, disable_rules. cbn. f_equal.
    rewrite <-list_fmap_compose. by apply list_fmap_ext.
  - unfold enable_rules. cbn. apply Forall_fmap, Forall_forall. by intros r _.
  - unfold enable_rules. cbn.
    apply Forall2_fmap_r, Forall_Forall2_diag, Forall_forall. by intros r _.
  - unfold get_all_violations, clear_all_violations. cbn [rules].
    induction (rules e) as [|r rs IH]; [done|]. cbn. exact IH.
  - unfold clear_all_violations. cbn.
    apply Forall2_fmap_r, Forall_Forall2_diag, Forall_forall. by intros r _.
Qed.
End Generic.

Section Exact.
Implicit Types (r : RiskRule Q) (e : RiskRulesEngine Q).
Local Open Scope Q_scope.

(** X24: a position whose stop loss and take profit lie on their
    proper sides (stop below target for a long position, above it for
    a short one) never triggers [StopLossRule] and [TakeProfitRule] in
    the same check. *)
Theorem stop_and_target_exclusive now (p : Position Q) (sl tp : Q) :
  stop_loss p = Some sl → take_profit p = Some tp →
  (if String.eqb (side_of p) "buy" then sl < tp else tp < sl) →
  let ctx := mkContext None None None None (Some [p]) in
  (check now ctx new_StopLossRule).2 = Ok false ∨
  (check now ctx new_TakeProfitRule).2 = Ok false.
Proof.
  intros Hsl Htp Hsane ctx. subst ctx. unfold check. cbn [kind new_StopLossRule
    new_TakeProfitRule ctx_positions default].
  unfold stop_loss_hits, take_profit_hits. unfold id. cbn [flat_map].
  rewrite Hsl, Htp, !app_nil_r.
  destruct (truthy sl && truthy (current_price p)); [|by left].
  destruct (truthy tp && truthy (current_price p)); [|by right].
  exact_arith. destruct (String.eqb (side_of p) "buy").
  - destruct (Qle_bool (current_price p) sl) eqn:H1; [|by left].
    destruct (Qle_bool tp (current_price p)) eqn:H2; [|by right].
    apply Qle_bool_iff in H1, H2. lra.
  - destruct (Qle_bool sl (current_price p)) eqn:H1; [|by left].
    destruct (Qle_bool (current_price p) tp) eqn:H2; [|by right].
    apply Qle_bool_iff in H1, H2. lra.
Qed.

(** X24, witness: long 10 units entered at 150, stop at 140, target at
    170, now at 135. *)
Lemma stop_and_target_exclusive_witness :
  let p := mkPosition "AAPL" 10 150 135 STOCK 0 (Some 140) (Some 170)
             (Some "buy") in
  stop_loss p = Some 140 ∧ take_profit p = Some 170 ∧
  (if String.eqb (side_of p) "buy" then 140 < 170 else 170 < 140) ∧
  ((check "t" (mkContext None None None None (Some [p]))
      new_StopLossRule).2 = Ok false ∨
   (check "t" (mkContext None None None None (Some [p]))
      new_TakeProfitRule).2 = Ok false).
Proof.
  intros p.
  assert (H1 : stop_loss p = Some 140) by reflexivity.
  assert (H2 : take_profit p = Some 170) by reflexivity.
  assert (H3 : if String.eqb (side_of p) "buy" then 140 < 170 else 170 < 140)
    by reflexivity.
  do 3 (split; [assumption|]).
  exact (stop_and_target_exclusive "t" p 140 170 H1 H2 H3).
Defined.

(** *** What the monitor's contexts can trigger *)

Lemma monitor_context_step now max_size max_loss (pv : Q) ps r3 r4 r5 :
  0 <= max_size → 0 <= max_loss →
  rule_after now (monitor_context pv ps) <$>
    [new_MaxPositionSizeRule max_size; new_MaxDailyLossRule max_loss;
     r3; r4; r5]
  = [new_MaxPositionSizeRule max_size; new_MaxDailyLossRule max_loss;
     rule_after now (monitor_context pv ps) r3;
     rule_after now (monitor_context pv ps) r4;
     rule_after now (monitor_context pv ps) r5].
Proof.
  intros Hs Hl. cbn [fmap list_fmap]. f_equal; [|f_equal].
  - unfold rule_after, check. cbn. unfold check_max_position_size. cbn.
    exact_arith. by rewrite (proj2 (Qltb_false max_size 0)).
  - unfold rule_after, check. cbn. unfold check_max_daily_loss. cbn.
    exact_arith. rewrite (proj2 (Qltb_false 0 (- max_loss))); [done|lra].
Qed.

Lemma rule_after_named now ctx r nm :
  name r = nm → Forall (λ v, rule v = nm) (violations r) →
  name (rule_after now ctx r) = nm ∧
  Forall (λ v, rule v = nm) (violations (rule_after now ctx r)).
Proof.
  intros Hn Hall. unfold rule_after. destruct (enabled r); [|done].
  destruct (check_appends now ctx r) as (Hn' & _ & added & -> & Hadd & _).
  split; [congruence|]. apply Forall_app. split; [done|].
  eapply Forall_impl; [exact Hadd|]. intros v [Hv _]. congruence.
Qed.

(** X25: the contexts [RiskMonitor.check_risk] builds carry neither a
    position size nor a trade P&L.  So on an engine with the default
    rules and non-negative limits, however many such checks are run,
    [MaxPositionSizeRule] and [MaxDailyLossRule] stay as constructed
    and record nothing: every violation the engine holds comes from
    the drawdown, stop-loss or take-profit rule. *)
Theorem monitor_blind_to_size_and_loss now (max_size max_loss max_dd : Q)
    ctxs :
  0 <= max_size → 0 <= max_loss →
  Forall (λ ctx, ∃ pv ps, ctx = monitor_context pv ps) ctxs →
  let e := check_rules_all now ctxs
             (create_default_rules max_size max_loss max_dd) in
  get_rule e "MaxPositionSizeRule" = Some (new_MaxPositionSizeRule max_size) ∧
  get_rule e "MaxDailyLossRule" = Some (new_MaxDailyLossRule max_loss) ∧
  ∀ v, v ∈ get_all_violations e →
       rule v = "MaxDrawdownRule" ∨ rule v = "StopLossRule" ∨
       rule v = "TakeProfitRule".
Proof.
  intros Hs Hl Hctxs e.
  assert (∃ r3 r4 r5,
            e = mkEngine [new_MaxPositionSizeRule max_size;
                          new_MaxDailyLossRule max_loss; r3; r4; r5] true ∧
            (name r3 = "MaxDrawdownRule" ∧
             Forall (λ v, rule v = "MaxDrawdownRule") (violations r3)) ∧
            (name r4 = "StopLossRule" ∧
             Forall (λ v, rule v = "StopLossRule") (violations r4)) ∧
            (name r5 = "TakeProfitRule" ∧
             Forall (λ v, rule v = "TakeProfitRule") (violations r5)))
    as (r3 & r4 & r5 & -> & [_ H3] & [_ H4] & [_ H5]).
  { subst e. unfold check_rules_all.
    assert (∃ r3 r4 r5,
              create_default_rules max_size max_loss max_dd
              = mkEngine [new_MaxPositionSizeRule max_size;
                          new_MaxDailyLossRule max_loss; r3; r4; r5] true ∧
              (name r3 = "MaxDrawdownRule" ∧
               Forall (λ v, rule v = "MaxDrawdownRule") (violations r3)) ∧
              (name r4 = "StopLossRule" ∧
               Forall (λ v, rule v = "StopLossRule") (violations r4)) ∧
              (name r5 = "TakeProfitRule" ∧
               Forall (λ v, rule v = "TakeProfitRule") (violations r5)))
      as Hinit.
    { eexists _, _, _. split; [reflexivity|]. by repeat split. }
    revert Hinit. generalize (create_default_rules max_size max_loss max_dd).
    induction Hctxs as [|ctx ctxs (pv & ps & ->) _ IH]; intros e0 Hinit;
      [done|].
    cbn [foldl]. apply IH.
    destruct Hinit as (r3 & r4 & r5 & -> & [N3 H3] & [N4 H4] & [N5 H5]).
    rewrite check_rules_spec. cbn [engine_enabled rules fst].
    rewrite (monitor_context_step now max_size max_loss pv ps r3 r4 r5 Hs Hl).
    eexists _, _, _. split; [reflexivity|].
    split; [|split]; by apply rule_after_named. }
  split; [done|]. split; [done|].
  intros v. unfold get_all_violations. cbn [rules flat_map get_violations
    violations new_MaxPositionSizeRule new_MaxDailyLossRule app].
  rewrite app_nil_r, !elem_of_app.
  rewrite Forall_forall in H3, H4, H5. naive_solver.
Qed.

(** X25, witness: two checks by the monitor on the default rules. *)
Lemma monitor_blind_to_size_and_loss_witness :
  let ctxs := [monitor_context 100000 []; monitor_context 80000 []] in
  let e := check_rules_all "t" ctxs (create_default_rules 10000 5000 10) in
  0 <= 10000 ∧ 0 <= 5000 ∧
  Forall (λ ctx, ∃ pv ps, ctx = monitor_context (F := Q) pv ps) ctxs ∧
  get_rule e "MaxDailyLossRule" = Some (new_MaxDailyLossRule 5000).
Proof.
  intros ctxs e.
  assert (H1 : 0 <= 10000) by discriminate.
  assert (H2 : 0 <= 5000) by discriminate.
  assert (H3 : Forall (λ ctx, ∃ pv ps, ctx = monitor_context (F := Q) pv ps)
                 ctxs).
  { repeat constructor; eexists _, _; reflexivity. }
  do 3 (split; [assumption|]).
  exact (proj1 (proj2 (monitor_blind_to_size_and_loss "t" 10000 5000 10 ctxs
                         H1 H2 H3))).
Defined.

(** X20, witness: the engine holding one position-size rule. *)
Lemma check_rules_keeps_history_witness :
  engine_enabled (Scenarios.size_engine (F := Q)) = true ∧
  engine_enabled
    (check_rules "t1" Scenarios.oversized Scenarios.size_engine).1.1 = true.
Proof.
  assert (H1 : engine_enabled (Scenarios.size_engine (F := Q)) = true)
    by reflexivity.
  split; [assumption|].
  exact (proj1 (check_rules_keeps_history "t1" Scenarios.oversized
                  Scenarios.size_engine H1)).
Defined.
End Exact.

End RiskAdminSpec.

(** ** Position manager: sizing, the capital ledger and valuation *)

Module SizingSpec.
Import Portfolio Risk Execution OrderQueries Sizing.
Import OrderManagementSpec ExecutionSpec OrderLifecycleSpec.

Section Exact.
Implicit Types (pm : PositionManager Q) (p : Position Q) (t : Trade Q).
Local Open Scope Q_scope.

Lemma Qeq_bool_false (x y : Q) : ¬ x == y → Qeq_bool x y = false.
Proof. intros Hne. apply not_true_iff_false. by intros E%Qeq_bool_iff. Qed.

Lemma Qtrunc_neg (x : Q) : x < 0 → (Qtrunc x <= 0)%Z.
Proof.
  destruct x as [n d]. unfold Qlt, Qtrunc. cbn. intros Hn.
  assert (n = (- (- n))%Z) as -> by lia.
  rewrite Z.quot_opp_l by lia.
  pose proof (Z.quot_pos (- n) (Z.pos d)). lia.
Qed.

(** The whole shares a value buys at a positive price. *)
Lemma whole_shares (value price_ : Q) :
  0 < price_ → 0 <= value →
  (0 <= Qtrunc (value / price_))%Z ∧
  inject_Z (Qtrunc (value / price_)) * price_ <= value ∧
  (Qtrunc (value / price_) = 0%Z ↔ value < price_).
Proof.
  intros Hp Hv.
  assert (0 <= value / price_) as Hr by (apply Qle_shift_div_l; lra).
  rewrite (Qtrunc_nonneg _ Hr).
  pose proof (Qfloor_le (value / price_)) as Hlo.
  pose proof (Qlt_floor (value / price_)) as Hhi.
  set (k := Qfloor (value / price_)) in *.
  assert (value / price_ * price_ == value) as Hvp by (field; lra).
  assert (0 <= k)%Z as Hk0.
  { change 0%Z with (Qfloor 0). by apply Qfloor_resp_le. }
  split; [done|]. split.
  - rewrite <-Hvp. apply Qmult_le_r; [done|lra].
  - rewrite inject_Z_plus in Hhi. change (inject_Z 1) with 1 in Hhi. split.
    + intros Hk. rewrite Hk in Hhi. change (inject_Z 0) with 0 in Hhi.
      rewrite <-Hvp. nra.
    + intros Hlt.
      assert (inject_Z k < inject_Z 1) as Hk1.
      { change (inject_Z 1) with 1.
        assert (value / price_ < 1) by (apply Qlt_shift_div_r; lra). lra. }
      rewrite <-Zlt_Qlt in Hk1. lia.
Qed.

(** What [calculate_position_size] returns for a non-zero entry price:
    the shares the stop loss (or, without one, the budget) gives, at
    least one, capped by the whole shares the budget buys. *)
Lemma calculate_position_size_eq pm (entry_price : Q)
    (stop_loss_price risk_amount : option Q) :
  ¬ entry_price == 0 →
  ∃ wanted,
    calculate_position_size entry_price stop_loss_price risk_amount pm
    = Ok (Z.min (Z.max 1 wanted)
            (Qtrunc (current_capital pm * max_position_size pm
                     / entry_price))) ∧
    ∀ stop, stop_loss_price = Some stop → ¬ stop == 0 →
            ¬ stop == entry_price →
      0 < Qabs (entry_price - stop) ∧
      wanted =
        Qtrunc (default (current_capital pm * max_risk_per_trade pm)
                  risk_amount / Qabs (entry_price - stop)).
Proof.
  intros He. apply Qeq_bool_false in He as Hnz.
  unfold calculate_position_size, py_div, py_int. exact_arith.
  rewrite Hnz. cbn [result_bind].
  destruct stop_loss_price as [stop|]; [|by eexists].
  unfold truthy. exact_arith.
  destruct (Qeq_bool stop 0) eqn:Hs0; cbn [negb andb].
  { rewrite ?Hnz. cbn [result_bind]. eexists. split; [done|].
    intros stop' [= <-] Hne. apply Qeq_bool_iff in Hs0. done. }
  destruct (Qeq_bool stop entry_price) eqn:Hse; cbn [negb].
  { rewrite ?Hnz. cbn [result_bind]. eexists. split; [done|].
    intros stop' [= <-] _ Hne. apply Qeq_bool_iff in Hse. done. }
  assert (0 < Qabs (entry_price - stop)) as Hps.
  { apply Qeq_bool_neq in Hse.
    destruct (Qlt_le_dec 0 (entry_price - stop)) as [Hpos|Hneg].
    - rewrite Qabs_pos; lra.
    - rewrite Qabs_neg; [|done].
      destruct (Qeq_dec stop entry_price); [done|]. lra. }
  rewrite (proj2 (Qltb_true 0 _) Hps). cbn [result_bind].
  eexists. split; [done|]. by intros stop' [= <-] _ _.
Qed.

(** X26: [calculate_position_size] in exact arithmetic.  It raises
    ZeroDivisionError for an entry price of zero.  For a positive entry
    price and a non-negative position budget
    [current_capital * max_position_size] it returns a whole number of
    shares whose value at the entry price stays within the budget; the
    minimum of one share does not hold against the budget, the result
    being zero exactly when the budget is below the entry price; and
    with a stop loss, a result of two or more shares risks no more than
    the risk amount. *)
Theorem calculate_position_size_bounds pm (entry_price : Q)
    (stop_loss_price risk_amount : option Q) :
  0 < entry_price → 0 <= current_capital pm * max_position_size pm →
  (∃ shares,
     calculate_position_size entry_price stop_loss_price risk_amount pm
       = Ok shares ∧
     (0 <= shares)%Z ∧
     inject_Z shares * entry_price
       <= current_capital pm * max_position_size pm ∧
     (shares = 0%Z ↔
      current_capital pm * max_position_size pm < entry_price) ∧
     (∀ stop, stop_loss_price = Some stop → ¬ stop == 0 →
              ¬ stop == entry_price → (2 <= shares)%Z →
        inject_Z shares * Qabs (entry_price - stop)
        <= default (current_capital pm * max_risk_per_trade pm)
             risk_amount)) ∧
  ∀ stop risk,
    calculate_position_size 0 stop risk pm = Raise ZeroDivisionError.
Proof.
  intros He Hb. split.
  - set (budget := current_capital pm * max_position_size pm) in *.
    destruct (whole_shares budget entry_price He Hb) as (Hm0 & Hmv & Hmz).
    destruct (calculate_position_size_eq pm entry_price stop_loss_price
                risk_amount) as (wanted & -> & Hstop); [lra|].
    fold budget. set (max_shares := Qtrunc (budget / entry_price)) in *.
    eexists. split; [done|]. split; [lia|]. split; [|split].
    + assert (inject_Z (Z.min (Z.max 1 wanted) max_shares)
              <= inject_Z max_shares) as Hle by (rewrite <-Zle_Qle; lia).
      nra.
    + rewrite <-Hmz. lia.
    + intros stop Hs Hs0 Hse H2.
      destruct (Hstop stop Hs Hs0 Hse) as [Hps ->].
      set (risk := default (current_capital pm * max_risk_per_trade pm)
                     risk_amount) in *.
      set (per_share := Qabs (entry_price - stop)) in *.
      destruct (Qlt_le_dec risk 0) as [Hrn|Hrp].
      * (* a negative risk amount gives at most one share *)
        exfalso.
        assert (Qtrunc (risk / per_share) <= 0)%Z; [|lia].
        apply Qtrunc_neg. apply Qlt_shift_div_r; [done|]. lra.
      * destruct (whole_shares risk per_share Hps Hrp) as (_ & Hrv & _).
        assert (inject_Z (Z.min (Z.max 1 (Qtrunc (risk / per_share)))
                            max_shares)
                <= inject_Z (Qtrunc (risk / per_share))) as Hle
          by (rewrite <-Zle_Qle; lia).
        nra.
  - intros stop risk. unfold calculate_position_size, py_div, py_int.
    exact_arith. destruct stop as [stop|]; [|done].
    destruct (truthy stop && negb (Qeq_bool stop 0)); [|done].
    by destruct (Qltb 0 (Qabs (0 - stop))).
Qed.

(** X26, witness: the default manager, an entry at 150 with a stop at
    140. *)
Lemma calculate_position_size_bounds_witness :
  let pm := new_manager (F := Q) 100000 (2 # 10) (2 # 100) in
  0 < 150 ∧ 0 <= current_capital pm * max_position_size pm ∧
  ∃ shares,
    calculate_position_size 150 (Some 140) None pm = Ok shares ∧
    inject_Z shares * 150 <= current_capital pm * max_position_size pm.
Proof.
  intros pm.
  assert (H1 : 0 < 150) by reflexivity.
  assert (H2 : 0 <= current_capital pm * max_position_size pm)
    by discriminate.
  do 2 (split; [assumption|]).
  destruct (proj1 (calculate_position_size_bounds pm 150 (Some 140) None
                     H1 H2)) as (shares & Hrun & _ & Hle & _).
  by exists shares.
Defined.

(** X27: a size that [calculate_position_size] returns passes
    [check_position_limits] at the entry price on a manager that holds
    no position, whenever at most half of the capital may go into one
    position. *)
Theorem sized_position_passes_limits pm (entry_price : Q)
    (stop_loss_price risk_amount : option Q) shares :
  0 < entry_price → 0 <= current_capital pm →
  0 <= max_position_size pm → max_position_size pm <= 1 # 2 →
  calculate_position_size entry_price stop_loss_price risk_amount pm
    = Ok shares →
  check_position_limits [] (inject_Z shares) entry_price pm = true.
Proof.
  intros He Hc Hm0 Hm1 Hrun.
  assert (0 <= current_capital pm * max_position_size pm) as Hb by nra.
  destruct (whole_shares _ entry_price He Hb) as (_ & Hmv & _).
  destruct (calculate_position_size_eq pm entry_price stop_loss_price
              risk_amount) as (wanted & Hrun' & _); [lra|].
  assert (inject_Z shares * entry_price
          <= current_capital pm * max_position_size pm) as Hle.
  { assert (shares = Z.min (Z.max 1 wanted)
                       (Qtrunc (current_capital pm * max_position_size pm
                                / entry_price))) as -> by congruence.
    assert (inject_Z (Z.min (Z.max 1 wanted)
                        (Qtrunc (current_capital pm * max_position_size pm
                                 / entry_price)))
            <= inject_Z (Qtrunc (current_capital pm * max_position_size pm
                                 / entry_price))) as Hle
      by (rewrite <-Zle_Qle; lia).
    nra. }
  unfold check_position_limits, py_sum, lit. exact_arith. cbn [fmap list_fmap foldl].
  rewrite (proj2 (Qltb_false _ _)) by exact Hle.
  rewrite (proj2 (Qltb_false _ _)); [done|].
  assert (inject_Z 5 / inject_Z 10 == 1 # 2) as -> by reflexivity.
  nra.
Qed.

(** *** The capital ledger *)

(** The profit or loss a trade of the log has realized. *)
Lemma count_wins_bound (closed : list (Trade Q)) :
  Forall (λ t, is_Some (profit_loss t)) closed →
  ∃ wins, count_wins closed = Ok wins ∧ (wins ≤ length closed)%nat.
Proof.
  induction 1 as [|t closed [pl Hpl] _ (wins & IH & Hle)]; [by exists 0%nat|].
  cbn [count_wins]. unfold is_win. rewrite Hpl, IH. cbn [result_bind].
  eexists. split; [done|]. destruct (fgtb pl fzero); cbn [length]; lia.
Qed.

Lemma manager_inv pm :
  manager_reachable pm →
  current_capital pm
  == initial_capital pm + py_sum (default 0 ∘ profit_loss <$> trades pm) ∧
  Forall (λ t, action t = "close" → is_Some (profit_loss t)) (trades pm) ∧
  (∀ k p, positions pm !! k = Some p → symbol p = k ∧ is_Some (side p)).
Proof.
  induction 1 as [capital max_size max_risk|c pm Hpm (Hcap & Hlog & Hpos)].
  - cbn. split; [unfold py_sum; cbn; exact_arith; ring|].
    split; [constructor|]. intros k p Hk. by rewrite lookup_empty in Hk.
  - destruct c as [now sym side_ qty entry sl tp|now sym exit_price|sym px];
      cbn [manager_after].
    + unfold open_position. cbn [fst current_capital initial_capital trades
        positions].
      split; [|split].
      * rewrite fmap_app. cbn [fmap list_fmap]. rewrite py_sum_snoc.
        cbn. rewrite Hcap. ring.
      * apply Forall_app. split; [done|]. by repeat constructor.
      * intros k p. destruct (decide (sym = k)) as [<-|Hne].
        -- rewrite lookup_insert_eq. intros [= <-]. by cbn.
        -- rewrite lookup_insert_ne by done. apply Hpos.
    + unfold close_position.
      destruct (positions pm !! sym) as [p0|] eqn:Hp0; [|done].
      cbn [fst current_capital initial_capital trades positions].
      split; [|split].
      * rewrite fmap_app. cbn [fmap list_fmap]. rewrite py_sum_snoc.
        cbn. exact_arith. rewrite Hcap. ring.
      * apply Forall_app. split; [done|]. by repeat constructor.
      * intros k p [_ Hk]%lookup_delete_Some. by apply Hpos.
    + unfold update_position_price. cbn [current_capital initial_capital
        trades positions].
      split; [done|]. split; [done|].
      intros k p. destruct (decide (sym = k)) as [<-|Hne].
      * rewrite lookup_alter_eq. destruct (positions pm !! sym) as [p0|] eqn:E;
          [|done]. cbn. intros [= <-]. cbn. by apply Hpos.
      * rewrite lookup_alter_ne by done. apply Hpos.
Qed.

(** X28: on a position manager reached through its API the current
    capital is the initial capital plus the profits and losses the
    trade log records, and every position is stored under its own
    symbol.  Opening a position never moves the capital. *)
Theorem capital_is_ledger_sum pm :
  manager_reachable pm →
  current_capital pm
  == initial_capital pm + py_sum (default 0 ∘ profit_loss <$> trades pm) ∧
  (∀ k p, get_position pm k = Some p → symbol p = k) ∧
  ∀ now sym side_ qty entry sl tp,
    current_capital (open_position now sym side_ qty entry sl tp pm).1
    = current_capital pm.
Proof.
  intros Hpm. destruct (manager_inv pm Hpm) as (Hcap & _ & Hpos).
  split; [exact Hcap|]. split; [|done].
  intros k p Hk. by destruct (Hpos k p Hk).
Qed.

(** X29: on a position manager reached through its API
    [_calculate_win_rate] never raises; it returns 0.0 without closed
    trades and otherwise a percentage between 0 and 100. *)
Theorem win_rate_is_percentage pm :
  manager_reachable pm →
  ∃ rate, _calculate_win_rate pm = Ok rate ∧ 0 <= rate ∧ rate <= 100 ∧
          (Forall (λ t, action t ≠ "close") (trades pm) → rate = 0).
Proof.
  intros Hpm. destruct (manager_inv pm Hpm) as (_ & Hlog & _).
  unfold _calculate_win_rate.
  set (closed := filter (λ t, action t = "close") (trades pm)).
  assert (Forall (λ t, is_Some (profit_loss t)) closed) as Hclosed.
  { apply Forall_forall. intros t [Ht Hin]%list_elem_of_filter.
    by apply (proj1 (Forall_forall _ _) Hlog). }
  case_bool_decide as Hlen.
  - exists 0. exact_arith. repeat split; try done.
  - destruct (count_wins_bound closed Hclosed) as (wins & -> & Hle).
    cbn [result_bind]. eexists. split; [done|]. exact_arith.
    change (inject_Z 100) with 100.
    assert (0 < inject_Z (Z.of_nat (length closed))) as Hpos.
    { change 0 with (inject_Z 0). rewrite <-Zlt_Qlt. lia. }
    assert (0 <= inject_Z (Z.of_nat wins)) as Hw0.
    { change 0 with (inject_Z 0). rewrite <-Zle_Qle. lia. }
    assert (inject_Z (Z.of_nat wins) <= inject_Z (Z.of_nat (length closed)))
      as Hw1 by (rewrite <-Zle_Qle; lia).
    assert (0 <= inject_Z (Z.of_nat wins) / inject_Z (Z.of_nat (length closed)))
      as H0 by (apply Qle_shift_div_l; lra).
    assert (inject_Z (Z.of_nat wins) / inject_Z (Z.of_nat (length closed)) <= 1)
      as H1 by (apply Qle_shift_div_r; lra).
    split; [nra|]. split; [nra|].
    intros Hnone. exfalso. apply Hlen.
    unfold closed. clear -Hnone.
    induction Hnone as [|t l Ht _ IH]; [done|].
    by rewrite filter_cons, decide_False.
Qed.

(** *** The portfolio value *)

Lemma py_sum_perm (l l' : list Q) : l ≡ₚ l' → py_sum l == py_sum l'.
Proof.
  induction 1 as [|x l l' _ IH|x y l|l1 l2 l3 _ IH1 _ IH2].
  - reflexivity.
  - rewrite !py_sum_cons, IH. reflexivity.
  - rewrite !py_sum_cons. ring.
  - by rewrite IH1.
Qed.

Lemma exposure_from (f : Position Q → Q) (a : Q) (held : list (Position Q)) :
  foldl (λ total position, total + f position) a held
  == a + py_sum (f <$> held).
Proof.
  revert a. induction held as [|p held IH]; intros a; cbn [foldl].
  - unfold py_sum. cbn. exact_arith. ring.
  - rewrite IH, fmap_cons, py_sum_cons. ring.
Qed.

Lemma py_sum_minus (f g : Position Q → Q) (held : list (Position Q)) :
  py_sum ((λ p, f p - g p) <$> held)
  == py_sum (f <$> held) - py_sum (g <$> held).
Proof.
  induction held as [|p held IH].
  - unfold py_sum. cbn. exact_arith. ring.
  - rewrite !fmap_cons, !py_sum_cons, IH. ring.
Qed.

Lemma portfolio_value_eq pm (held : list (Position Q)) :
  get_portfolio_value held pm ==
    current_capital pm +
    py_sum ((λ p, (if String.eqb (side_of p) "buy"
                   then quantity p * current_price p
                   else Qabs (quantity p) * current_price p)
                  - quantity p * avg_entry_price p) <$> held).
Proof.
  unfold get_portfolio_value. exact_arith.
  rewrite (exposure_from
             (λ p, if String.eqb (side_of p) "buy"
                   then quantity p * current_price p
                   else Qabs (quantity p) * current_price p) 0 held).
  pose proof (py_sum_minus
                (λ p, if String.eqb (side_of p) "buy"
                      then quantity p * current_price p
                      else Qabs (quantity p) * current_price p)
                (λ p, quantity p * avg_entry_price p) held) as Hminus.
  cbn beta in Hminus. lra.
Qed.

(** X30: [get_portfolio_value] in exact arithmetic.  The value does not
    depend on the order in which the dict yields the positions.  For
    long positions it is the current capital plus the unrealized profit
    [quantity * (current_price - avg_entry_price)] of each; a short
    position, whose quantity is negative, instead adds its size times
    the sum of its current and its entry price. *)
Theorem portfolio_value_by_position pm (held held' : list (Position Q)) :
  held ≡ₚ held' →
  Forall (λ p, side_of p = "buy" ∨ quantity p <= 0) held →
  get_portfolio_value held' pm ==
    current_capital pm +
    py_sum ((λ p, if String.eqb (side_of p) "buy" then unrealized p
                  else Qabs (quantity p)
                       * (current_price p + avg_entry_price p)) <$> held).
Proof.
  intros Hperm Hall. rewrite portfolio_value_eq.
  rewrite <-(py_sum_perm _ _ (fmap_Permutation _ _ _ Hperm)).
  apply Qplus_inj_l. clear Hperm held'.
  induction Hall as [|p held Hp _ IH]; [reflexivity|].
  rewrite !fmap_cons, !py_sum_cons, IH. apply Qplus_inj_r.
  unfold unrealized. exact_arith.
  destruct (String.eqb (side_of p) "buy") eqn:Hside; [ring|].
  destruct Hp as [Hbuy|Hneg].
  - apply String.eqb_neq in Hside. done.
  - rewrite Qabs_neg by done. ring.
Qed.

(** X27, witness: the default manager, an entry at 150 with a stop at
    140: 133 shares. *)
Lemma sized_position_passes_limits_witness :
  let pm := new_manager (F := Q) 100000 (2 # 10) (2 # 100) in
  0 < 150 ∧ 0 <= current_capital pm ∧ 0 <= max_position_size pm ∧
  max_position_size pm <= 1 # 2 ∧
  calculate_position_size 150 (Some 140) None pm = Ok 133%Z ∧
  check_position_limits [] (inject_Z 133) 150 pm = true.
Proof.
  intros pm.
  assert (H1 : 0 < 150) by reflexivity.
  assert (H2 : 0 <= current_capital pm) by discriminate.
  assert (H3 : 0 <= max_position_size pm) by discriminate.
  assert (H4 : max_position_size pm <= 1 # 2) by discriminate.
  assert (H5 : calculate_position_size 150 (Some 140) None pm = Ok 133%Z)
    by (vm_compute; reflexivity).
  do 5 (split; [assumption|]).
  exact (sized_position_passes_limits pm 150 (Some 140) None 133
           H1 H2 H3 H4 H5).
Defined.

(** X28, witness: the manager holding a long position. *)
Lemma capital_is_ledger_sum_witness :
  let pm := Scenarios.long_aapl (F := Q) in
  manager_reachable pm ∧
  current_capital pm
  == initial_capital pm + py_sum (default 0 ∘ profit_loss <$> trades pm).
Proof.
  intros pm.
  assert (H1 : manager_reachable pm).
  { apply (manager_call
             (OpenPosition "t0" "AAPL" "buy" 10 150 None None)).
    apply manager_new. }
  split; [assumption|].
  exact (proj1 (capital_is_ledger_sum pm H1)).
Defined.

(** X29, witness: the long position closed at 160. *)
Lemma win_rate_is_percentage_witness :
  let pm := (close_position "t1" "AAPL" 160
               (Scenarios.long_aapl (F := Q))).1 in
  manager_reachable pm ∧
  ∃ rate, _calculate_win_rate pm = Ok rate ∧ 0 <= rate ∧ rate <= 100.
Proof.
  intros pm.
  assert (H1 : manager_reachable pm).
  { apply (manager_call (ClosePosition "t1" "AAPL" 160)).
    apply (manager_call
             (OpenPosition "t0" "AAPL" "buy" 10 150 None None)).
    apply manager_new. }
  split; [assumption|].
  destruct (win_rate_is_percentage pm H1) as (rate & Hrun & H0 & H100 & _).
  by exists rate.
Defined.

(** X30, witness: the manager holding a long position. *)
Lemma portfolio_value_by_position_witness :
  let pm := Scenarios.long_aapl (F := Q) in
  let held := get_all_positions pm in
  held ≡ₚ held ∧
  Forall (λ p, side_of p = "buy" ∨ quantity p <= 0) held ∧
  get_portfolio_value held pm == current_capital pm.
Proof.
  intros pm held.
  assert (H1 : held ≡ₚ held) by reflexivity.
  assert (H2 : Forall (λ p, side_of p = "buy" ∨ quantity p <= 0) held).
  { vm_compute. repeat constructor. }
  do 2 (split; [assumption|]).
  rewrite (portfolio_value_by_position pm held held H1 H2).
  vm_compute. reflexivity.
Defined.
End Exact.

End SizingSpec.
